(** * Border resegmentation and mosaic reconciliation (resegement_tiles.py)

    A shallow embedding of the border-resegmentation engine: the two
    predictors' no-data guards, the temporal aligner, the subtile grid,
    the per-subtile mode selection loop, the border orchestrator, the
    mosaic reconciler, the loader of finished rasters and the batch loop
    of the main block.

    Conventions of the embedding.
    - Python integers are [Z]; sizes, offsets inside arrays and list
      positions are [nat].
    - Floating-point arrays hold exact rationals; [fl := option Q] adds
      not-a-number as [None].  Rounding of float32 is not modelled.
    - An array axis that the code iterates or slices is a list; a raster is
      a list of rows ([grid]).
    - A Python exception is [Raise e]; code that calls the predictor
      sessions or writes files runs in [run], which also records the calls
      in order. *)

From Stdlib Require Import ZArith QArith Qabs Qround List Lia Lqa Bool.
From Stdlib Require String Ascii.
From stdpp Require Import base list option numbers sorting.
Import ListNotations.

Set Default Proof Using "Type".

(** ** Exceptions and effects *)

Inductive exn :=
| ValueError | IndexError | NameError | AssertionError | ZeroDivisionError.

Inductive result (A : Type) :=
| Ok (a : A)
| Raise (e : exn).
Arguments Ok {A} a.
Arguments Raise {A} e.

Definition rbind {A B} (r : result A) (k : A -> result B) : result B :=
  match r with
  | Ok a => k a
  | Raise e => Raise e
  end.

Declare Scope result_scope.
Delimit Scope result_scope with result.
Notation "'let*' x ':=' r 'in' k" := (rbind r (fun x => k))
  (at level 10, x pattern, r at level 100, k at level 200) : result_scope.

(** ** Rasters *)

Abbreviation grid A := (list (list A)) (only parsing).

(** [np.full((h, w), v)] *)
Definition np_full {A} (h w : nat) (v : A) : grid A := replicate h (replicate w v).

(** Pixel [(x, y)] of a raster, [None] outside it. *)
Definition pix {A} (g : grid A) (x y : nat) : option A :=
  match g !! x with
  | Some row => row !! y
  | None => None
  end.

(** The subtile edge length, set once in the script's main block. *)
Definition SIZE : nat := 168.

(** ** Tensors handed to the predictors *)

Record ndarray := {
  shape : list nat;
  data : list Q;       (* the elements in C order *)
  floating : bool      (* isinstance(arr.flat[0], np.floating) *)
}.

(** Exact sum, with the running total kept in lowest terms. *)
Definition qsum (l : list Q) : Q := foldr (fun a acc => Qred (a + acc)) 0%Q l.

Definition np_sum (a : ndarray) : Q := qsum (data a).

Definition qmax_list (l : list Q) : option Q :=
  match l with
  | [] => None
  | a :: t => Some (fold_left (fun m b => if Qle_bool m b then b else m) t a)
  end.

Definition Qltb (a b : Q) : bool := negb (Qle_bool b a).

Definition np_zeros (shp : list nat) : ndarray :=
  {| shape := shp; data := replicate (foldr Nat.mul 1%nat shp) 0%Q; floating := true |}.

(** ** Floats with not-a-number *)

Abbreviation fl := (option Q) (only parsing).

Definition of_Z (v : Z) : Q := inject_Z v.
Definition of_nat (n : nat) : Q := inject_Z (Z.of_nat n).

(** The values of a vector that are numbers. *)
Definition numbers (l : list fl) : list Q := omap id l.

(** [np.nanmean]: not-a-number when no element is a number. *)
Definition np_nanmean (l : list fl) : fl :=
  match numbers l with
  | [] => None
  | vals => Some (Qred (qsum vals / of_nat (length vals)))
  end.

(** [a > b] and [a < b] on floats: false as soon as one side is not a number. *)
Definition fgt (a b : fl) : bool :=
  match a, b with
  | Some x, Some y => Qltb y x
  | _, _ => false
  end.
Definition flt (a b : fl) : bool := fgt b a.

Definition fsub (a b : fl) : fl :=
  match a, b with
  | Some x, Some y => Some (x - y)%Q
  | _, _ => None
  end.

Definition fabs (a : fl) : fl := Qabs <$> a.

(** [arr / 65535.] *)
Definition scale_uint16 (a : ndarray) : ndarray :=
  {| shape := shape a;
     data := map (fun v => Qred (v / 65535)) (data a);
     floating := true |}.

(** [preds[1:-1, 1:-1]] *)
Definition trim_ends {A} (l : list A) : list A := take (length l - 2) (drop 1 l).
Definition crop_border {A} (g : grid A) : grid A := map trim_ends (trim_ends g).

(** ** Recorded effects *)

Inductive session := TemporalSession | GapSession | SuperresolveSession.

Inductive outfile :=
| OwnPatch (folder_y folder_x : Z)       (* {path}right{folder_y}/{folder_x}.npy *)
| NeighbourLeftPatch (folder_x : Z).     (* {path_neighbor}0/left{folder_x}.npy *)

Inductive predictor := Temporal | Median.

Inductive event :=
| EvCall (p : predictor) (subtile : ndarray)   (* predict_subtile / predict_gap is called *)
| EvRun (s : session) (input : ndarray)        (* sess.run on a session *)
| EvSave (f : outfile) (preds : grid Q).       (* np.save *)

(** A computation that first records events and then returns or raises. *)
Definition run (A : Type) : Type := list event * result A.

Definition ret {A} (a : A) : run A := ([], Ok a).
Definition throw {A} (e : exn) : run A := ([], Raise e).
Definition emit (e : event) : run unit := ([e], Ok tt).
Definition lift {A} (r : result A) : run A := ([], r).

Definition bind {A B} (m : run A) (k : A -> run B) : run B :=
  match m with
  | (tr, Ok a) => let '(tr', r) := k a in (tr ++ tr', r)
  | (tr, Raise e) => (tr, Raise e)
  end.

Declare Scope run_scope.
Delimit Scope run_scope with run.
Notation "'let*' x ':=' m 'in' k" := (bind m (fun x => k))
  (at level 10, x pattern, m at level 100, k at level 200) : run_scope.

Definition events {A} (m : run A) : list event := fst m.
Definition outcome {A} (m : run A) : result A := snd m.

Definition is_predictor_event (e : event) : bool :=
  match e with
  | EvCall _ _ | EvRun _ _ => true
  | EvSave _ _ => false
  end.

Definition is_temporal_call (e : event) : bool :=
  match e with
  | EvCall Temporal _ | EvRun TemporalSession _ => true
  | _ => false
  end.

(** ** The two predictors (predict_subtile, predict_gap) *)

Module Predictors.
Section Predictors.
(** Lines 130-143 and 177-191: the 13 bands are stacked with the indices
    evi, bi, msavi2 and grndvi of [preprocessing.indices] (not part of this
    file), the median step is appended, and the result is clipped and
    standardised with the constants of the main block. *)
Variable temporal_features : ndarray -> ndarray.
Variable median_features : ndarray -> ndarray.

(** [if not isinstance(subtile.flat[0], np.floating):
       assert np.max(subtile) > 1; subtile = subtile / 65535.] *)
Definition to_unit_range (subtile : ndarray) : result ndarray :=
  if floating subtile then Ok subtile
  else match qmax_list (data subtile) with
       | None => Raise ValueError
       | Some m => if Qltb 1 m then Ok (scale_uint16 subtile) else Raise AssertionError
       end.

(** [sess] is the session's [run] on the prediction tensor, squeezed. *)
Definition predict_subtile (subtile : ndarray) (sess : ndarray -> grid Q) : run (grid Q) :=
  if Qltb 0 (np_sum subtile) then
    (let* scaled := lift (to_unit_range subtile) in
     let batch_x := temporal_features scaled in
     let* _ := emit (EvRun TemporalSession batch_x) in
     ret (crop_border (sess batch_x)))%run
  else ret (np_full SIZE SIZE 255%Q).

Definition predict_gap (subtile : ndarray) (sess : ndarray -> grid Q) : run (grid Q) :=
  if Qltb 0 (np_sum subtile) then
    (let* scaled := lift (to_unit_range subtile) in
     let batch_x := median_features scaled in
     let* _ := emit (EvRun GapSession batch_x) in
     ret (crop_border (sess batch_x)))%run
  else ret (np_full SIZE SIZE 255%Q).
End Predictors.
End Predictors.


(** ** Python slices and deletions along an axis *)

(** A slice bound [i] of a sequence of length [n]: negative bounds count from
    the end, and every bound is clamped to [0, n]. *)
Definition py_bound (n : nat) (i : Z) : nat :=
  Z.to_nat (if (i <? 0)%Z then Z.max 0 (i + Z.of_nat n) else Z.min i (Z.of_nat n)).

(** [l[a:b]] *)
Definition py_slice {A} (a b : Z) (l : list A) : list A :=
  let lo := py_bound (length l) a in
  let hi := py_bound (length l) b in
  take (hi - lo) (drop lo l).

(** [l[a:]] and [l[:b]] *)
Definition py_from {A} (a : Z) (l : list A) : list A := drop (py_bound (length l) a) l.
Definition py_upto {A} (b : Z) (l : list A) : list A := take (py_bound (length l) b) l.

Fixpoint delete_from {A} (idx : nat) (arr : list A) (obj : list nat) : list A :=
  match arr with
  | [] => []
  | a :: rest =>
      if bool_decide (idx ∈ obj) then delete_from (S idx) rest obj
      else a :: delete_from (S idx) rest obj
  end.

(** [np.delete(arr, obj, 0)] for a list of positions; a position past the end
    is an IndexError. *)
Definition np_delete {A} (arr : list A) (obj : list nat) : result (list A) :=
  if forallb (fun i => i <? length arr)%nat obj then Ok (delete_from 0 arr obj)
  else Raise IndexError.

(** ** Temporal aligner (align_dates and lines 499-520 of resegment_border) *)

Module Aligner.

(** [[idx for idx, date in enumerate(a) if date not in b]] *)
Fixpoint unmatched_from (idx : nat) (a b : list Z) : list nat :=
  match a with
  | [] => []
  | date :: rest =>
      if existsb (Z.eqb date) b then unmatched_from (S idx) rest b
      else idx :: unmatched_from (S idx) rest b
  end.

Definition align_dates (tile_date neighb_date : list Z) : list nat * list nat :=
  (unmatched_from 0 tile_date neighb_date, unmatched_from 0 neighb_date tile_date).

(** The three arrays of one tile that share the date axis. *)
Record series (S2 I : Type) := {
  dates : list Z;
  s2 : list S2;
  interp : list I
}.
Arguments dates {S2 I} _.
Arguments s2 {S2 I} _.
Arguments interp {S2 I} _.

Definition truncate {S2 I} (n : nat) (a : series S2 I) : series S2 I :=
  {| dates := py_upto (Z.of_nat n) (dates a);
     s2 := py_upto (Z.of_nat n) (s2 a);
     interp := py_upto (Z.of_nat n) (interp a) |}.

Definition remove_dates {S2 I} (a : series S2 I) (to_rm : list nat) : result (series S2 I) :=
  if (0 <? length to_rm)%nat then
    (let* s2' := np_delete (s2 a) to_rm in
     let* interp' := np_delete (interp a) to_rm in
     let* dates' := np_delete (dates a) to_rm in
     Ok {| dates := dates'; s2 := s2'; interp := interp' |})%result
  else Ok a.

Inductive aligned (S2 I : Type) :=
| Proceed (tile neighb : series S2 I)
| Return0.                                   (* an empty series: return 0 *)
Arguments Proceed {S2 I} tile neighb.
Arguments Return0 {S2 I}.

(** Whether the branch of line 500 is taken. *)
Definition falls_back (dates dates_neighb : list Z) : bool :=
  let '(to_rm_tile, to_rm_neighb) := align_dates dates dates_neighb in
  (Z.of_nat (length dates) - Z.of_nat (length to_rm_tile) <? 5)%Z
  || (Z.of_nat (length dates_neighb) - Z.of_nat (length to_rm_neighb) <? 5)%Z.

Definition synchronise {S2 I} (tile neighb : series S2 I) : result (aligned S2 I) :=
  let '(to_rm_tile, to_rm_neighb) := align_dates (dates tile) (dates neighb) in
  if falls_back (dates tile) (dates neighb) then
    let tile' := truncate (length (dates neighb)) tile in
    let neighb' := truncate (length (dates tile')) neighb in
    Ok (Proceed tile' neighb')
  else
    (let* tile' := remove_dates tile to_rm_tile in
     let* neighb' := remove_dates neighb to_rm_neighb in
     if (length (dates neighb') =? 0)%nat || (length (dates tile') =? 0)%nat
     then Ok Return0
     else Ok (Proceed tile' neighb'))%result.

End Aligner.

(** ** Grid geometry (cartesian, make_tiles_right_neighb, lines 482-483) *)

Module Grid.

(** An [(n, 4)] integer array, one window per row:
    [start_x, start_y, size_x, size_y]. *)
Abbreviation windows := (list (list Z)) (only parsing).

(** [np.meshgrid], flattened, reshaped to [(2, n)] and transposed: one row
    [[x, y]] per pair, the second vector outermost.  A scalar first
    argument is a vector of one element. *)
Definition cartesian (xs ys : list Z) : windows :=
  flat_map (fun y => map (fun x => [x; y]) xs) ys.

Definition column (k : nat) (a : windows) : list Z := map (fun row => nth k row 0%Z) a.

Definition set_column (k : nat) (vals : list Z) (a : windows) : windows :=
  zip_with (fun row v => <[k:=v]> row) a vals.

Fixpoint insert_sorted (v : Z) (l : list Z) : list Z :=
  match l with
  | [] => [v]
  | h :: t => if (v <=? h)%Z then v :: l else h :: insert_sorted v t
  end.

(** [np.sort] of a vector *)
Definition np_sort (l : list Z) : list Z := foldr insert_sorted [] l.

Fixpoint dedup_sorted (l : list Z) : list Z :=
  match l with
  | [] => []
  | h :: t =>
      match t with
      | h' :: _ => if (h =? h')%Z then dedup_sorted t else h :: dedup_sorted t
      | [] => [h]
      end
  end.

(** [np.unique] of a vector *)
Definition np_unique (l : list Z) : list Z := dedup_sorted (np_sort l).

(** [np.sort(a, axis = 0)]: every column is sorted on its own. *)
Definition np_sort_axis0 (a : windows) : windows :=
  foldr (fun k acc => set_column k (np_sort (column k acc)) acc) a [0; 1; 2; 3]%nat.

(** [np.tile(v, reps)] *)
Definition np_tile (v : list Z) (reps : nat) : list Z := concat (replicate reps v).

(** [a[:, k] = vals]: the lengths agree, or [vals] has one element. *)
Definition assign_column (k : nat) (vals : list Z) (a : windows) : result windows :=
  if (length vals =? length a)%nat then Ok (set_column k vals a)
  else match vals with
       | [v] => Ok (set_column k (replicate (length a) v) a)
       | _ => Raise ValueError
       end.

(** [a[lo:hi, k] += d] for [0 <= lo] and a bound [hi] counted from the end *)
Definition add_to_rows (lo : nat) (from_end : nat) (k : nat) (d : Z) (a : windows) : windows :=
  imap (fun i row =>
          if bool_decide (lo <= i < length a - from_end)%nat
          then <[k := (nth k row 0 + d)%Z]> row else row) a.

Definition make_tiles_right_neighb (tiles_folder_x tiles_folder_y : list Z)
  : result (windows * windows) :=
  let wins := cartesian tiles_folder_x tiles_folder_y in
  let tiles_folder :=
    map (fun row => row ++ [Z.of_nat SIZE + 7; Z.of_nat SIZE + 7]%Z) wins in
  let tiles_folder := np_sort_axis0 tiles_folder in
  let uniq := np_unique (column 1 tiles_folder) in
  (let* reps := match uniq with
                | [] => Raise ZeroDivisionError
                | _ => Ok (length (column 1 tiles_folder) / length uniq)%nat
                end in
   let* tiles_folder := assign_column 1 (np_tile uniq reps) tiles_folder in
   let tiles_array := tiles_folder in
   let tiles_array := add_to_rows 1 0 1 (-7) tiles_array in
   let tiles_array := add_to_rows 1 1 3 7 tiles_array in
   let tiles_array := set_column 0 (replicate (length tiles_array) 0%Z) tiles_array in
   let tiles_array := set_column 2 (replicate (length tiles_array) 182%Z) tiles_array in
   Ok (tiles_array, tiles_folder))%result.

(** The rows [[x, y, SIZE + 7, SIZE + 7]] for one offset [x] and the
    offsets [ys]. *)
Definition storage_rows (x : Z) (ys : list Z) : windows :=
  map (fun y => [x; y; 175; 175]%Z) ys.

(** Read row [j] of [n] for the offset [y]: every later start moves back
    by the margin, and every row strictly inside grows by the margin. *)
Definition read_row (n j : nat) (y : Z) : list Z :=
  [0; if bool_decide (1 <= j)%nat then y - 7 else y; 182;
   if bool_decide (1 <= j < n - 1)%nat then 182 else 175]%Z.

(** [int(np.ceil(a / 4))] *)
Definition ceil_div4 (a : Z) : Z := (- ((- a) / 4))%Z.

(** [np.arange(0, stop, step)] on integers *)
Definition np_arange (stop step : Z) : result (list Z) :=
  if (step =? 0)%Z then Raise ZeroDivisionError
  else
    let n := Z.to_nat (- ((- stop) / step))%Z in
    Ok (map (fun k => (Z.of_nat k * step)%Z) (seq 0 n)).

(** Lines 482-483, for a tile whose radar stack has [extent] rows. *)
Definition gap_y (extent : Z) : Z := ceil_div4 (extent - Z.of_nat SIZE).

Definition tiles_folder_y (extent : Z) : result (list Z) :=
  (let* starts := np_arange (extent - Z.of_nat SIZE) (gap_y extent) in
   Ok (starts ++ [extent - Z.of_nat SIZE]%Z))%result.

(** [split_fn(item, 'tile')] returns [tiles_x = overlap_left + 7] for an
    item that is [width] columns wide. *)
Definition overlap_left (width : Z) : Z := (width - Z.of_nat (SIZE / 2) - 7)%Z.
Definition tiles_x (width : Z) : Z := (overlap_left width + 7)%Z.
Definition overlap_right : Z := (Z.of_nat (SIZE / 2) + 7)%Z.

(** The grid that resegment_border builds for a tile of [extent] rows and
    [width] columns. *)
Definition border_grid (extent width : Z) : result (windows * windows) :=
  (let* ys := tiles_folder_y extent in
   make_tiles_right_neighb [tiles_x width] ys)%result.

(** What is left of read window [j] of [n] once the 7-pixel margin is taken
    off: the leading margin exists except at index 0, the trailing one
    except at the last index.  Returns [(start, length)] along the
    subtile axis. *)
Definition strip_margin (n j : nat) (read : list Z) : Z * Z :=
  let lead := if bool_decide (j = 0)%nat then 0%Z else 7%Z in
  let trail := if bool_decide (S j = n) then 0%Z else 7%Z in
  ((nth 1 read 0 + lead)%Z, (nth 3 read 0 - lead - trail)%Z).

(** The extent along the subtile axis that a storage row records. *)
Definition storage_span (store : list Z) : Z * Z := (nth 1 store 0%Z, nth 3 store 0%Z).

(** Offset [p] lies in the window that starts at [start] and is [len] long. *)
Definition covers (start len p : Z) : Prop := (start <= p < start + len)%Z.

End Grid.

(** ** Subtile preprocessing and mode selection (process_subtiles) *)

(** [g[start_y:end_y, start_x:end_x]] *)
Definition crop2 {A} (start_y end_y start_x end_x : Z) (g : grid A) : grid A :=
  map (py_slice start_x end_x) (py_slice start_y end_y g).

(** External collaborators of the subtile loop, for reflectance pixels [px]
    and radar pixels [px1]. *)
Record collaborators (px px1 : Type) := {
  zero_px : px;
(** gap filling, the two date filters of the preprocessing package, and
    temporal compositing, which raises when no image is left ([None]) *)
interpolate_na_vals : list (grid px) -> list (grid px);
id_missing_px : list (grid px) -> list nat;
remove_missed_clouds : list (grid px) -> list nat;
calculate_and_save_best_images : list (grid px) -> list Z -> option (list (grid px) * Z);
(** lines 329-345 and 100-102: reflect-pad the composite to the canonical
    size, smooth it to 72 steps and pad it for super-resolution *)
to_resolve : list (grid px) -> Z -> ndarray;
(** lines 106-107 and 349-359: write the super-resolved bands, the elevation
    and the radar bands into the (12, SIZE + 14, SIZE + 14, 13) float tensor
    and clip it to [0, 1] *)
stack_bands : ndarray -> ndarray -> list (grid px1) -> grid Q -> Z -> ndarray;
(** the three sessions *)
superresolve_sess : ndarray -> ndarray;
predict_sess : ndarray -> grid Q;
gap_sess : ndarray -> grid Q;
(** the feature stacks of predict_subtile and predict_gap *)
temporal_features : ndarray -> ndarray;
median_features : ndarray -> ndarray
}.
Arguments zero_px {px px1} _.
Arguments interpolate_na_vals {px px1} _ _.
Arguments id_missing_px {px px1} _ _.
Arguments remove_missed_clouds {px px1} _ _.
Arguments calculate_and_save_best_images {px px1} _ _ _.
Arguments to_resolve {px px1} _ _ _.
Arguments stack_bands {px px1} _ _ _ _ _ _.
Arguments superresolve_sess {px px1} _ _.
Arguments predict_sess {px px1} _ _.
Arguments gap_sess {px px1} _ _.
Arguments temporal_features {px px1} _ _.
Arguments median_features {px px1} _ _.

Module Subtiles.
Section Subtiles.
Context {px px1 : Type} (E : collaborators px px1).

Record inputs := {
  s2 : list (grid px);
  dates : list Z;
  interp : list (grid bool);
  s1 : list (grid px1);
  dem : grid Q;
  tiles_folder : Grid.windows;
  tiles_array : Grid.windows
}.

(** The variables that live across iterations of the while loop. *)
Record loop_state := {
  t : nat;
  n_median : Z;
  gap_between_years : bool
}.

Definition median_thresh : Z := 5.

Definition initial_state : loop_state :=
  {| t := 0; n_median := 0; gap_between_years := false |}.

Definition count_true (g : grid bool) : nat := length (filter (fun b => b = true) (concat g)).

(** [np.argwhere(v > SIZE * SIZE / 4).flatten()] *)
Fixpoint over_quarter_from (idx : nat) (sums : list nat) : list nat :=
  match sums with
  | [] => []
  | s :: rest =>
      if (SIZE * SIZE <? 4 * s)%nat then idx :: over_quarter_from (S idx) rest
      else over_quarter_from (S idx) rest
  end.

(** [if len(obj) > 0: dates_tile = np.delete(dates_tile, obj);
                      subset = np.delete(subset, obj, 0)] *)
Definition drop_dates (obj : list nat) (dates_tile : list Z) (subset : list (grid px))
  : result (list Z * list (grid px)) :=
  if (0 <? length obj)%nat then
    (let* d := np_delete dates_tile obj in
     let* s := np_delete subset obj in
     Ok (d, s))%result
  else Ok (dates_tile, subset).

(** Lines 288-312: the dates of one window that survive the three filters. *)
Definition usable_dates (inp : inputs) (start_y end_y start_x end_x : Z)
  : result (list Z * list (grid px)) :=
  let subset := map (crop2 start_y end_y start_x end_x) (interpolate_na_vals E (s2 inp)) in
  let interp_tile := map (crop2 start_y end_y start_x end_x) (interp inp) in
  let interp_tile_sum := map count_true interp_tile in
  (let* (dates_tile, subset) :=
     drop_dates (over_quarter_from 0 interp_tile_sum) (dates inp) subset in
   let* (dates_tile, subset) := drop_dates (id_missing_px E subset) dates_tile subset in
   drop_dates (remove_missed_clouds E subset) dates_tile subset)%result.

Definition first_date (l : list Z) : Z := hd 0%Z l.
Definition last_date (l : list Z) : Z := List.last l 0%Z.

(** The test of line 372. *)
Definition median_worthy (dates_tile : list Z) (max_distance : Z) : bool :=
  (150 <=? first_date dates_tile)%Z
  || (last_date dates_tile <=? 215)%Z
  || (265 <? max_distance)%Z
  || (length dates_tile <? 5)%nat.

Definition window_of (row : list Z) : result (Z * Z * Z * Z) :=
  match row with
  | a :: b :: c :: d :: _ => Ok (a, b, c, d)
  | _ => Raise IndexError
  end.

Definition folder_of (row : list Z) : result (Z * Z) :=
  match row with
  | a :: b :: _ => Ok (b, a)          (* folder_x, folder_y = row[1], row[0] *)
  | _ => Raise IndexError
  end.

Definition save_both (folder_x folder_y : Z) (preds : grid Q) : run unit :=
  (let* _ := emit (EvSave (OwnPatch folder_y folder_x) preds) in
   emit (EvSave (NeighbourLeftPatch folder_x) preds))%run.

Definition lookup_row (a : Grid.windows) (i : nat) : result (list Z) :=
  match a !! i with
  | Some row => Ok row
  | None => Raise IndexError
  end.

(** What the body of the loop computes for subtile [i] before it looks at
    the counters (lines 280-361). *)
Record prepared := {
  folder_x : Z;
  folder_y : Z;
  usable : list Z;             (* dates_tile after the three filters *)
  composite : option Z;        (* max_distance, or None when compositing raised *)
  padded : ndarray;            (* the input of the super-resolution session *)
  tensor : ndarray             (* the input of the predictors *)
}.

Definition prepare (inp : inputs) (i : nat) : result prepared :=
  (let* tile_folder := lookup_row (tiles_folder inp) i in
   let* tile_array := lookup_row (tiles_array inp) i in
   let* (start_x, start_y, size_x, size_y) := window_of tile_array in
   let* (folder_x, folder_y) := folder_of tile_folder in
   let end_x := (start_x + size_x)%Z in
   let end_y := (start_y + size_y)%Z in
   let dem_subtile := crop2 start_y end_y start_x end_x (dem inp) in
   let* (dates_tile, subset) := usable_dates inp start_y end_y start_x end_x in
   let best := calculate_and_save_best_images E subset dates_tile in
   let subtile :=
     match best with
     | Some (subtile, _) => subtile
     | None => replicate 72 (np_full (Z.to_nat (end_y - start_y))
                                     (Z.to_nat (end_x - start_x)) (zero_px E))
     end in
   let s1_subtile := map (crop2 start_y end_y start_x end_x) (s1 inp) in
   let padded := to_resolve E subtile start_y in
   let tensor :=
     stack_bands E padded (superresolve_sess E padded) s1_subtile dem_subtile start_y in
   Ok {| folder_x := folder_x; folder_y := folder_y;
         usable := dates_tile; composite := snd <$> best;
         padded := padded; tensor := tensor |})%result.

(** [dates_tile] as line 366 sees it: the except branch has replaced it by
    the single sentinel date. *)
Definition dates_tile (p : prepared) : list Z :=
  match composite p with
  | Some _ => usable p
  | None => [0%Z]
  end.

(** [no_images] after line 366. *)
Definition no_images (p : prepared) : bool :=
  match composite p with
  | Some _ => (length (usable p) <? 3)%nat
  | None => true
  end.

(** How the prediction of one subtile is produced. *)
Inductive mode := NoData | MedianMode | TemporalMode.

(** Lines 366-380: the branch taken for subtile [p] and the variables after
    the pass, for the variables [st] before it ([t] is incremented by
    line 282). *)
Definition plan (p : prepared) (st : loop_state) : mode * loop_state :=
  let t1 := S (t st) in
  let unchanged :=
    {| t := t1; n_median := n_median st; gap_between_years := gap_between_years st |} in
  match composite p with
  | Some max_distance =>
      if (length (dates_tile p) <? 3)%nat then (NoData, unchanged)
      else
        let worthy := median_worthy (dates_tile p) max_distance in
        let n_median1 := if worthy then (n_median st + 1)%Z else n_median st in
        let restart :=
          worthy && negb (gap_between_years st) && (median_thresh <=? n_median1)%Z in
        let t2 := if restart then (if (1 <? t1)%nat then 0%nat else t1) else t1 in
        let gap1 := gap_between_years st || restart in
        (if (length (dates_tile p) <? 5)%nat || gap1 then MedianMode else TemporalMode,
         {| t := t2; n_median := n_median1; gap_between_years := gap1 |})
  | None => (NoData, unchanged)
  end.

(** Lines 367-391: the prediction in the chosen branch and the two saves. *)
Definition predict_and_save (p : prepared) (m : mode) : run unit :=
  (let* preds :=
     match m with
     | NoData => ret (np_full SIZE SIZE 255%Q)
     | MedianMode =>
         let* _ := emit (EvCall Median (tensor p)) in
         Predictors.predict_gap (median_features E) (tensor p) (gap_sess E)
     | TemporalMode =>
         let* _ := emit (EvCall Temporal (tensor p)) in
         Predictors.predict_subtile (temporal_features E) (tensor p) (predict_sess E)
     end in
   save_both (folder_x p) (folder_y p) preds)%run.

Definition select_and_predict (p : prepared) (st : loop_state) : run loop_state :=
  let '(m, st') := plan p st in
  (let* _ := predict_and_save p m in ret st')%run.

(** One pass through the body of the while loop (lines 280-393). *)
Definition iteration (inp : inputs) (st : loop_state) : run loop_state :=
  (let* p := lift (prepare inp (t st)) in
   let* _ := emit (EvRun SuperresolveSession (padded p)) in
   select_and_predict p st)%run.

(** [while t < len(tiles_folder)], with a bound on the number of passes
    through the body; [None] when the bound is used up. *)
Fixpoint subtile_loop (fuel : nat) (inp : inputs) (st : loop_state)
  : option (run loop_state) :=
  if (t st <? length (tiles_folder inp))%nat then
    match fuel with
    | O => None
    | S fuel' =>
        match iteration inp st with
        | (tr, Ok st') =>
            match subtile_loop fuel' inp st' with
            | Some (tr', r) => Some (tr ++ tr', r)
            | None => None
            end
        | (tr, Raise e) => Some (tr, Raise e)
        end
    end
  else Some (ret st).

Definition process_subtiles (fuel : nat) (inp : inputs) : option (run loop_state) :=
  subtile_loop fuel inp initial_state.

(** The passes a run needs at most: one sweep before the restart and one
    after it. *)
Definition enough_fuel (inp : inputs) : nat := 2 * length (tiles_folder inp).

(** The subtiles of the tile as the body of the loop prepares them. *)
Definition prepare_all (inp : inputs) : list (result prepared) :=
  map (prepare inp) (seq 0 (length (tiles_folder inp))).

(** The subtile enters the count of line 373: it has 3 usable dates or
    more and passes the test of line 372. *)
Definition counted (p : prepared) : bool :=
  match composite p with
  | Some max_distance =>
      negb (length (usable p) <? 3)%nat && median_worthy (usable p) max_distance
  | None => false
  end.

(** The counted subtiles among [l]. *)
Definition counted_among (l : list prepared) : Z :=
  Z.of_nat (length (filter (fun p => counted p = true) l)).

(** The branch of lines 366-389 for a subtile, before the tile has switched
    to the median model ([median = false]) and after it. *)
Definition mode_of (p : prepared) (median : bool) : mode :=
  if no_images p then NoData
  else if (length (usable p) <? 5)%nat || median then MedianMode else TemporalMode.

(** The events of one pass over subtile [p] that predicts in mode [m]. *)
Definition pass_events (p : prepared) (m : mode) : list event :=
  EvRun SuperresolveSession (padded p) :: events (predict_and_save p m).

(** The prediction of subtile [p] in mode [m] does not raise. *)
Definition predicts (p : prepared) (m : mode) : Prop :=
  outcome (predict_and_save p m) = Ok tt.

End Subtiles.
End Subtiles.

(** ** Border orchestrator (resegment_border, split_fn, split_to_border) *)

Module Border.
Section Border.
Context {px px1 : Type} (E : collaborators px px1).

Inductive edge := RightEdge | OtherEdge.

(** What [process_tile] returns for one tile. *)
Record tile_data := {
  s2 : list (grid px);
  dates : list Z;
  interp : list (grid bool);
  s1 : list (grid px1);
  dem : grid Q
}.

(** The answers of the catalog, the file system and the upstream pipeline
    for one tile pair. *)
Record world := {
  processed : bool;                     (* check_if_processed((tile_x, tile_y)) *)
  processed_neighbor : bool;            (* check_if_processed(neighbor_id) *)
  catalog_rows : nat;                   (* rows of the catalog for the neighbour *)
  tile_tif : result (grid Z * Z);       (* load_tif: the raster and the smooth flag *)
  neighbor_tif : result (grid Z * Z);
  test_subtile : result nat;            (* shape[0] of the tile's processed/0/0.npy *)
  test_subtile_neighbor : result nat;
  tile : result tile_data;              (* process_tile(tile_x, tile_y) *)
  neighbor : result tile_data           (* process_tile(neighbor_id) *)
}.

(** [tif[tif > 100] = np.nan] on the float copy *)
Definition mask_invalid (v : Z) : fl := if (100 <? v)%Z then None else Some (of_Z v).

(** [tif[:, 0]] and [tif[:, -1]]: a raster without columns is an IndexError. *)
Definition first_column (g : grid Z) : result (list Z) :=
  foldr (fun row acc =>
           match row, acc with
           | v :: _, Ok col => Ok (v :: col)
           | [], Ok _ => Raise IndexError
           | _, Raise e => Raise e
           end) (Ok []) g.

Definition last_column (g : grid Z) : result (list Z) := first_column (map (@rev Z) g).

(** [abs(right_mean - left_mean) > 15] *)
Definition border_differs (right_mean left_mean : fl) : bool :=
  fgt (fabs (fsub right_mean left_mean)) (Some 15%Q).

Definition right_mean_of (neighbor_raster : grid Z) : result fl :=
  (let* col := first_column neighbor_raster in Ok (np_nanmean (map mask_invalid col)))%result.

Definition left_mean_of (tile_raster : grid Z) : result fl :=
  (let* col := last_column tile_raster in Ok (np_nanmean (map mask_invalid col)))%result.

Inductive decision := Skip | Reprocess.

(** Lines 423-478: the eligibility, discontinuity and sanity checks. *)
Definition checks (w : world) (e : edge) : result decision :=
  let processed_neighbor :=
    if processed_neighbor w then (0 <? catalog_rows w)%nat else false in
  if processed w && processed_neighbor then
    (let* (tile_raster, _) := tile_tif w in
     let* (neighbor_raster, smooth) := neighbor_tif w in
     if (smooth =? 1)%Z then Ok Skip
     else
       let* right_mean := right_mean_of neighbor_raster in
       let* left_mean := left_mean_of tile_raster in
       if border_differs right_mean left_mean then
         let* rows := test_subtile w in
         if negb (rows =? SIZE)%nat then Ok Skip
         else
           match e with
           | RightEdge =>
               let* rows := test_subtile_neighbor w in
               if negb (rows =? SIZE)%nat then Ok Skip else Ok Reprocess
           | OtherEdge => Ok Reprocess
           end
       else Ok Skip)%result
  else Ok Skip.

(** [item.shape[1]] and [item.shape[2]] of a stack of rasters *)
Definition rows_of {A} (item : list (grid A)) : Z :=
  match item with g :: _ => Z.of_nat (length g) | [] => 0%Z end.
Definition cols_of {A} (item : list (grid A)) : Z :=
  match item with (row :: _) :: _ => Z.of_nat (length row) | _ => 0%Z end.

(** [split_fn(item, 'tile')] and [split_fn(item, 'neighbor')] *)
Definition split_fn_tile {A} (item : list (grid A)) : list (grid A) * Z :=
  let overlap_left := Grid.overlap_left (cols_of item) in
  (map (map (py_from overlap_left)) item, (overlap_left + 7)%Z).

Definition split_fn_neighbor {A} (item : list (grid A)) : list (grid A) :=
  map (map (py_upto Grid.overlap_right)) item.

Definition squeeze {A} (item : list (grid A)) : grid A :=
  match item with g :: _ => g | [] => [] end.

(** [split_to_border(..., "tile", edge)]: the fifth result is the
    [tiles_x] of the last [split_fn] call, the one on the elevation. *)
Definition split_to_border_tile (d : tile_data) (e : edge) : result (tile_data * Z) :=
  match e with
  | RightEdge =>
      let '(dem', tiles_x) := split_fn_tile [dem d] in
      Ok ({| s2 := fst (split_fn_tile (s2 d)); dates := dates d;
             interp := fst (split_fn_tile (interp d));
             s1 := fst (split_fn_tile (s1 d)); dem := squeeze dem' |}, tiles_x)
  | OtherEdge => Raise NameError
  end.

Definition split_to_border_neighbor (d : tile_data) (e : edge) : result tile_data :=
  match e with
  | RightEdge =>
      Ok {| s2 := split_fn_neighbor (s2 d); dates := dates d;
            interp := split_fn_neighbor (interp d);
            s1 := split_fn_neighbor (s1 d); dem := squeeze (split_fn_neighbor [dem d]) |}
  | OtherEdge => Raise NameError
  end.

(** [arr[indices]] with a list of positions *)
Definition pick {A} (idxs : list nat) (arr : list A) : result (list A) :=
  foldr (fun i acc =>
           match arr !! i, acc with
           | Some a, Ok l => Ok (a :: l)
           | None, Ok _ => Raise IndexError
           | _, Raise e => Raise e
           end) (Ok []) idxs.

(** Lines 524-549: subsample the radar stack with more observations. *)
Definition reconcile_s1 {A} (s1 s1_neighb : list A) : result (list A * list A) :=
  let n := length s1 in
  let m := length s1_neighb in
  if (n =? m)%nat then Ok (s1, s1_neighb)
  else if (n =? 12)%nat then
    (let* s1 := if (m =? 6)%nat then pick [0; 2; 4; 6; 8; 10]%nat s1 else Ok s1 in
     let* s1 := if (m =? 4)%nat then pick [0; 3; 6; 9]%nat s1 else Ok s1 in
     Ok (s1, s1_neighb))%result
  else if (m =? 12)%nat then
    (let* s1_neighb :=
       if (n =? 6)%nat then pick [0; 2; 4; 6; 8; 10]%nat s1_neighb else Ok s1_neighb in
     let* s1_neighb := if (n =? 4)%nat then pick [0; 3; 6; 9]%nat s1_neighb else Ok s1_neighb in
     Ok (s1, s1_neighb))%result
  else if (n =? 6)%nat then
    (let* s1 := if (m =? 4)%nat then pick [0; 1; 3; 5]%nat s1 else Ok s1 in
     Ok (s1, s1_neighb))%result
  else if (m =? 6)%nat then
    (let* s1_neighb := if (n =? 4)%nat then pick [0; 1; 3; 5]%nat s1_neighb else Ok s1_neighb in
     Ok (s1, s1_neighb))%result
  else Ok (s1, s1_neighb).

(** [np.concatenate([a, b], axis = 1)] of two rasters *)
Definition hconcat {A} (a b : grid A) : result (grid A) :=
  if (length a =? length b)%nat then Ok (zip_with app a b) else Raise ValueError.

(** [np.concatenate([a, b], axis = 2)] of two stacks of rasters *)
Fixpoint hconcat_stack {A} (a b : list (grid A)) : result (list (grid A)) :=
  match a, b with
  | [], [] => Ok []
  | g :: a', h :: b' =>
      (let* gh := hconcat g h in
       let* rest := hconcat_stack a' b' in
       Ok (gh :: rest))%result
  | _, _ => Raise ValueError
  end.

Definition as_series (d : tile_data) : Aligner.series (grid px) (grid bool) :=
  {| Aligner.dates := dates d; Aligner.s2 := s2 d; Aligner.interp := interp d |}.

(** Lines 480-561, reached when the checks ask for reprocessing. *)
Definition merge_and_process (fuel : nat) (w : world) (e : edge) : option (run Z) :=
  let setup : result (option (Subtiles.inputs (px := px) (px1 := px1))) :=
    (let* d := tile w in
     let* tiles_folder_y := Grid.tiles_folder_y (rows_of (s1 d)) in
     let* (d, tiles_folder_x) := split_to_border_tile d e in
     let* dn := neighbor w in
     let* dn := split_to_border_neighbor dn e in
     let* al := Aligner.synchronise (as_series d) (as_series dn) in
     match al with
     | Aligner.Return0 => Ok None
     | Aligner.Proceed a an =>
         let* (s1a, s1n) := reconcile_s1 (s1 d) (s1 dn) in
         let* s2m := hconcat_stack (Aligner.s2 a) (Aligner.s2 an) in
         let* s1m := hconcat_stack s1a s1n in
         let* demm := hconcat (dem d) (dem dn) in
         let* interpm := hconcat_stack (Aligner.interp a) (Aligner.interp an) in
         let* (tiles_array, tiles_folder) :=
           Grid.make_tiles_right_neighb [tiles_folder_x] tiles_folder_y in
         Ok (Some {| Subtiles.s2 := s2m; Subtiles.dates := Aligner.dates a;
                     Subtiles.interp := interpm; Subtiles.s1 := s1m;
                     Subtiles.dem := demm;
                     Subtiles.tiles_folder := tiles_folder;
                     Subtiles.tiles_array := tiles_array |})
     end)%result in
  match setup with
  | Raise err => Some (throw err)
  | Ok None => Some (ret 0%Z)
  | Ok (Some inp) =>
      match Subtiles.process_subtiles E fuel inp with
      | Some (tr, Ok _) => Some (tr, Ok 1%Z)
      | Some (tr, Raise err) => Some (tr, Raise err)
      | None => None
      end
  end.

Definition resegment_border (fuel : nat) (w : world) (e : edge) : option (run Z) :=
  match checks w e with
  | Raise err => Some (throw err)
  | Ok Skip => Some (ret 0%Z)
  | Ok Reprocess => merge_and_process fuel w e
  end.

End Border.
End Border.

(** ** Mosaic reconciler (recreate_resegmented_tifs) *)

Module Mosaic.

(** *** The output folder *)

(** Names of the entries of the output folder and of its subfolders, as
    process_subtiles and the upstream pipeline write them. *)
Inductive dir_name :=
| XDir (x : nat)            (* "{x}" *)
| RightDir (x : nat)        (* "right{x}" *)
| DSStoreDir.               (* ".DS_Store" *)

Inductive file_name :=
| YFile (y : nat)           (* "{y}.npy" *)
| LeftFile (y : nat)        (* "left{y}.npy" *)
| DSStoreFile.              (* ".DS_Store" *)

Abbreviation patch := (list (list Q)) (only parsing).
(** A subfolder and the output folder, in the order of [os.listdir]. *)
Abbreviation folder := (list (file_name * list (list Q))) (only parsing).
Abbreviation out_folder := (list (dir_name * list (file_name * list (list Q)))) (only parsing).

Definition is_right (d : dir_name) : bool :=
  match d with RightDir _ => true | _ => false end.
Definition is_ds_dir (d : dir_name) : bool :=
  match d with DSStoreDir => true | _ => false end.
Definition is_ds (f : file_name) : bool :=
  match f with DSStoreFile => true | _ => false end.
Definition is_left (f : file_name) : bool :=
  match f with LeftFile _ => true | _ => false end.
Definition is_npy (f : file_name) : bool := negb (is_ds f).

(** [os.listdir(out_folder + name + "/")] *)
Fixpoint listdir (d : out_folder) (name : dir_name -> bool) : folder :=
  match d with
  | [] => []
  | (n, files) :: rest => if name n then files else listdir rest name
  end.

Definition named_x (x : nat) (d : dir_name) : bool :=
  match d with XDir x' => (x =? x')%nat | _ => false end.
Definition named_right (x : nat) (d : dir_name) : bool :=
  match d with RightDir x' => (x =? x')%nat | _ => false end.

(** [right = [x for x in os.listdir(out_folder) if 'right' in x]] *)
Definition right_dirs (d : out_folder) : list nat :=
  omap (fun e => match fst e with RightDir x => Some x | _ => None end) d.

(** Lines 584-587 *)
Definition x_tiles_of (d : out_folder) : list nat :=
  omap (fun e => match e with
                 | (XDir x, files) => if (0 <? length files)%nat then Some x else None
                 | _ => None
                 end) d.

Definition not_ds (files : folder) : folder := filter (fun e => is_ds (fst e) = false) files.

(** [[int(y[:-4]) for y in y_tiles if 'left' not in y]] *)
Definition interior_ys (files : folder) : list nat :=
  omap (fun e => match fst e with YFile y => Some y | _ => None end) (not_ds files).
(** [[int(y[4:-4]) for y in y_tiles if 'left' in y]] *)
Definition left_ys (files : folder) : list nat :=
  omap (fun e => match fst e with LeftFile y => Some y | _ => None end) (not_ds files).

(** [np.load(output_file)] for a file name that the listing produced *)
Fixpoint load (files : folder) (name : file_name -> bool) : option patch :=
  match files with
  | [] => None
  | (n, p) :: rest => if name n then Some p else load rest name
  end.
Definition named_y (y : nat) (f : file_name) : bool :=
  match f with YFile y' => (y =? y')%nat | _ => false end.
Definition named_left (y : nat) (f : file_name) : bool :=
  match f with LeftFile y' => (y =? y')%nat | _ => false end.

(** [np.max] of a list of integers *)
Definition np_max (l : list nat) : result nat :=
  match l with
  | [] => Raise ValueError
  | a :: rest => Ok (foldr Nat.max a rest)
  end.

(** Lines 590-596: the count of left-border files and the value that
    [max_y] holds after the loop, if it was ever assigned. *)
Fixpoint count_borders (d : out_folder) (x_tiles : list nat) (n_border : nat) (max_y : option nat)
  : nat * option nat :=
  match x_tiles with
  | [] => (n_border, max_y)
  | x_tile :: rest =>
      let files := listdir d (named_x x_tile) in
      let n_border := (n_border + length (left_ys files))%nat in
      let y_tiles := interior_ys files in
      let max_y :=
        if (1 <? length y_tiles)%nat
        then Some (foldr Nat.max 0%nat y_tiles + SIZE)%nat
        else max_y in
      count_borders d rest n_border max_y
  end.

(** [len(glob(out_folder + "*/*.npy"))] *)
Definition count_npy (d : out_folder) : nat :=
  foldr (fun e acc =>
           if is_ds_dir (fst e) then acc
           else (length (filter (fun f => is_npy (fst f) = true) (snd e)) + acc)%nat) 0%nat d.

Record layout := {
  x_tiles : list nat;
  right : list nat;
  n_right : nat;
  n_border : nat;
  max_x : nat;
  max_y : nat;
  n_tiles : nat
}.

(** Lines 576-598 *)
Definition enumerate (d : out_folder) : result layout :=
  let right := right_dirs d in
  let n_right :=
    match right with
    | r :: _ => length (not_ds (listdir d (named_right r)))
    | [] => 0%nat
    end in
  let x_tiles := x_tiles_of d in
  (let* mx := np_max x_tiles in
   let '(n_border, max_y) := count_borders d x_tiles 0 None in
   match max_y with
   | None => Raise NameError
   | Some max_y =>
       Ok {| x_tiles := x_tiles; right := right; n_right := n_right;
             n_border := n_border; max_x := (mx + SIZE)%nat; max_y := max_y;
             n_tiles := count_npy d |}
   end)%result.

(** *** The two stacks *)

(** The stacks are kept one raster per patch: [predictions[..., i]] is
    element [i]. *)
Record stacks := {
  predictions : list (grid fl);
  mults : list (grid fl)
}.

Definition width {A} (g : grid A) : nat :=
  match g with row :: _ => length row | [] => 0%nat end.

Definition rectangular {A} (h w : nat) (g : grid A) : bool :=
  (length g =? h)%nat && forallb (fun row => (length row =? w)%nat) g.

Fixpoint transpose {A} (w : nat) (g : grid A) : grid A :=
  match g with
  | [] => replicate w []
  | row :: rest => zip_with cons row (transpose w rest)
  end.

(** A value of shape [(1, w)], [(h, 1)] or [(1, 1)] is stretched. *)
Definition broadcast {A} (h w : nat) (v : grid A) : grid A :=
  let v := match v with [row] => replicate h row | _ => v end in
  map (fun row => match row with [a] => replicate w a | _ => row end) v.

(** [layer[x:x+h, y:y+w] = v]: the slice is cut at the edges of the raster
    and the value must have its shape. *)
Definition assign_window {A} (x y h w : nat) (v : grid A) (layer : grid A) : result (grid A) :=
  let rows := length layer in
  let cols := width layer in
  let h' := (Nat.min (x + h) rows - Nat.min x rows)%nat in
  let w' := (Nat.min (y + w) cols - Nat.min y cols)%nat in
  let v := broadcast h' w' v in
  if rectangular h' w' v then
    Ok (take x layer
        ++ zip_with (fun row vrow => take y row ++ vrow ++ drop (y + w') row)
                    (take h' (drop x layer)) v
        ++ drop (x + h') layer)
  else Raise ValueError.

(** [stack[x:x+h, y:y+w, i] = v] *)
Definition assign_layer {A} (i x y h w : nat) (v : grid A) (stack : list (grid A))
  : result (list (grid A)) :=
  match stack !! i with
  | None => Raise IndexError
  | Some layer =>
      (let* layer' := assign_window x y h w v layer in Ok (<[i := layer']> stack))%result
  end.

(** [np.sum(prediction) < SIZE * SIZE * 255] *)
Definition has_data (p : patch) : bool :=
  Qltb (qsum (concat p)) (of_Z (Z.of_nat SIZE * Z.of_nat SIZE * 255)).

(** [(prediction * 100).T] *)
Definition scaled_T (p : patch) : grid fl :=
  transpose (width p) (map (map (fun v => Some (Qred (v * 100)))) p).

Section Fill.
(** [fspecial_gauss(size, sigma)] of download_and_predict_job, which is
    not part of this file: the blend kernel. *)
Variable fspecial_gauss : nat -> Z -> grid Q.

Definition kernel (sigma : Z) : grid fl := map (map Some) (fspecial_gauss SIZE sigma).

(** The three ways a patch enters the stacks (lines 609-614, 624-630 and
    641-647); every one of them advances [i]. *)
Inductive part := Whole | Bottom | Top.

Definition cut {A} (pt : part) (g : grid A) : grid A :=
  match pt with
  | Whole => g
  | Bottom => py_from 84 g
  | Top => py_upto 84 g
  end.

Definition extent (pt : part) : nat :=
  match pt with Whole => SIZE | _ => (SIZE / 2)%nat end.

Definition sigma_of (pt : part) : Z :=
  match pt with Whole => 28%Z | _ => 35%Z end.

Definition add_patch (pt : part) (x_tile y_tile : nat) (p : patch) (st : stacks * nat)
  : result (stacks * nat) :=
  let '(s, i) := st in
  if has_data p then
    (let* preds :=
       assign_layer i x_tile y_tile (extent pt) SIZE (cut pt (scaled_T p)) (predictions s) in
     let* mults :=
       assign_layer i x_tile y_tile (extent pt) SIZE (cut pt (kernel (sigma_of pt))) (mults s) in
     Ok ({| predictions := preds; mults := mults |}, S i))%result
  else Ok (s, S i).

(** [for y_tile in y_tiles: if os.path.exists(output_file): ...] *)
Fixpoint add_files (pt : part) (x_tile : nat) (files : folder) (name : nat -> file_name -> bool)
    (y_tiles : list nat) (st : stacks * nat) : result (stacks * nat) :=
  match y_tiles with
  | [] => Ok st
  | y_tile :: rest =>
      match load files (name y_tile) with
      | Some p =>
          (let* st := add_patch pt x_tile y_tile p st in
           add_files pt x_tile files name rest st)%result
      | None => add_files pt x_tile files name rest st
      end
  end.

Fixpoint add_interior (d : out_folder) (x_tiles : list nat) (st : stacks * nat)
  : result (stacks * nat) :=
  match x_tiles with
  | [] => Ok st
  | x_tile :: rest =>
      let files := listdir d (named_x x_tile) in
      (let* st := add_files Whole x_tile files named_y (interior_ys files) st in
       add_interior d rest st)%result
  end.

Fixpoint add_left (d : out_folder) (x_tiles : list nat) (st : stacks * nat)
  : result (stacks * nat) :=
  match x_tiles with
  | [] => Ok st
  | x_tile :: rest =>
      let files := listdir d (named_x x_tile) in
      (let* st := add_files Bottom x_tile files named_left (left_ys files) st in
       add_left d rest st)%result
  end.

(** In a "right" folder every entry is read as "{y}.npy". *)
Definition right_ys (files : folder) : result (list nat) :=
  foldr (fun e acc =>
           match fst e, acc with
           | YFile y, Ok l => Ok (y :: l)
           | LeftFile _, Ok _ => Raise ValueError
           | DSStoreFile, Ok _ => Raise ValueError
           | _, Raise err => Raise err
           end) (Ok []) (not_ds files).

Fixpoint add_right (d : out_folder) (right : list nat) (st : stacks * nat)
  : result (stacks * nat) :=
  match right with
  | [] => Ok st
  | x_tile :: rest =>
      let files := listdir d (named_right x_tile) in
      (let* ys := right_ys files in
       let* st := add_files Top x_tile files named_y ys st in
       add_right d rest st)%result
  end.

(** Lines 599-647 *)
Definition fill (d : out_folder) (l : layout) : result stacks :=
  let blank (v : fl) := replicate (n_tiles l) (np_full (max_x l) (max_y l) v) in
  let st := ({| predictions := blank None; mults := blank (Some 0%Q) |}, 0%nat) in
  (let* st := add_interior d (x_tiles l) st in
   let* st := if (0 <? n_border l)%nat then add_left d (x_tiles l) st else Ok st in
   let* st := add_right d (right l) st in
   Ok (fst st))%result.
End Fill.

(** *** Outlier rejection (lines 651-672) *)

Definition grid_zip {A B C} (f : A -> B -> C) (a : grid A) (b : grid B) : grid C :=
  zip_with (zip_with f) a b.

Definition nan_pick (pick_left : Q -> Q -> bool) (a b : fl) : fl :=
  match a, b with
  | Some x, Some y => if pick_left x y then Some x else Some y
  | Some x, None => Some x
  | None, _ => b
  end.

(** [np.nanmax(stack, axis = -1)] and [np.nanmin(stack, axis = -1)] *)
Definition reduce_layers (f : fl -> fl -> fl) (stack : list (grid fl)) : result (grid fl) :=
  match stack with
  | [] => Raise ValueError
  | first :: rest => Ok (fold_left (grid_zip f) rest first)
  end.
Definition np_nanmax := reduce_layers (nan_pick (fun x y => Qle_bool y x)).
Definition np_nanmin := reduce_layers (nan_pick (fun x y => Qle_bool x y)).

Definition predictions_range (preds : list (grid fl)) : result (grid fl) :=
  (let* hi := np_nanmax preds in
   let* lo := np_nanmin preds in
   Ok (grid_zip fsub hi lo))%result.

(** [np.nanmean(predictions[mask])] for a mask over the pixels *)
Definition masked_mean (mask : grid bool) (preds : list (grid fl)) : fl :=
  np_nanmean
    (flat_map (fun layer => concat (grid_zip (fun (m : bool) v => if m then v else None)
                                             mask layer)) preds).

(** [range_i]: the range at the pixels where patch [i] has a number, in
    row-major order. *)
Definition range_on (range layer : grid fl) : list Q :=
  numbers (concat (grid_zip (fun r (v : fl) => match v with Some _ => r | None => None end)
                            range layer)).

Fixpoint split_n {A} (parts len : nat) (l : list A) : list (list A) :=
  match parts with
  | O => []
  | S k => take len l :: split_n k len (drop len l)
  end.

(** [np.mean(np.reshape(v, (3, 56, 3, 56)), axis = (1, 3))] *)
Definition block_means (v : list Q) : result (grid Q) :=
  if (length v =? 3 * 56 * 3 * 56)%nat then
    Ok (map (fun band =>
               let rows := map (split_n 3 56) (split_n 56 (3 * 56) band) in
               map (fun c =>
                      Qred (qsum (flat_map (fun row => nth c row []) rows) / of_nat (56 * 56)))
                   [0; 1; 2]%nat)
            (split_n 3 (56 * (3 * 56)) v))
  else Raise ValueError.

Definition count_above (thr : Q) (g : grid Q) : nat :=
  length (filter (fun v => Qltb thr v = true) (concat g)).

Record verdicts := {
  mean_certain_pred : fl;
  mean_uncertain_pred : fl;
  overpredict : bool
}.

Definition judge (range : grid fl) (preds : list (grid fl)) : verdicts :=
  let certain := masked_mean (map (map (fun r => flt r (Some 50%Q))) range) preds in
  let uncertain := masked_mean (map (map (fun r => fgt r (Some 50%Q))) range) preds in
  {| mean_certain_pred := certain;
     mean_uncertain_pred := uncertain;
     overpredict := fgt (fsub uncertain certain) (Some 0%Q) |}.

(** [problem_tile] for one patch *)
Definition problem_tile (v : verdicts) (layer : grid fl) : bool :=
  let m := np_nanmean (concat layer) in
  if overpredict v then fgt m (mean_certain_pred v) else flt m (mean_certain_pred v).

(** Whether the body of the loop discards the patch; the reshape raises for
    a patch that is neither empty nor of 168 x 168 numbers. *)
Definition is_outlier (v : verdicts) (range layer : grid fl) : result bool :=
  let range_i := range_on range layer in
  if (0 <? length range_i)%nat then
    (let* means := block_means range_i in
     Ok ((2 <=? count_above 50 means)%nat && problem_tile v layer))%result
  else Ok false.

(** The reshape of line 666 goes through for the patch: the range has a
    number at none of its pixels, or at 168 x 168 of them. *)
Definition reshapable (range layer : grid fl) : bool :=
  let n := length (range_on range layer) in
  (n =? 0)%nat || (n =? 3 * 56 * 3 * 56)%nat.

Definition blank_layer {A} (v : A) (layer : grid A) : grid A := map (map (fun _ => v)) layer.

(** One pass of the loop for patch [i]. *)
Definition reject_one (v : verdicts) (range : grid fl) (i : nat) (s : stacks) : result stacks :=
  match predictions s !! i with
  | None => Raise IndexError
  | Some layer =>
      (let* out := is_outlier v range layer in
       if out then
         Ok {| predictions := <[i := blank_layer None layer]> (predictions s);
               mults := alter (blank_layer (Some 0%Q)) i (mults s) |}
       else Ok s)%result
  end.

Fixpoint reject_loop (v : verdicts) (range : grid fl) (idxs : list nat) (s : stacks)
  : result stacks :=
  match idxs with
  | [] => Ok s
  | i :: rest => (let* s := reject_one v range i s in reject_loop v range rest s)%result
  end.

(** The number of patches the loop looks at. *)
Definition examined (l : layout) (s : stacks) : nat :=
  (length (predictions s) - n_border l - n_right l)%nat.

Definition reject_outliers (l : layout) (s : stacks) : result stacks :=
  (let* range := predictions_range (predictions s) in
   let v := judge range (predictions s) in
   reject_loop v range (seq 0 (examined l s)) s)%result.

(** *** Fusion (lines 674-683) *)

Definition fadd (a b : fl) : fl :=
  match a, b with
  | Some x, Some y => Some (x + y)%Q
  | _, _ => None
  end.
Definition fmul (a b : fl) : fl :=
  match a, b with
  | Some x, Some y => Some (x * y)%Q
  | _, _ => None
  end.
(** Division; a zero divisor gives not-a-number (the weights are not
    negative, so a zero sum of weights only divides zeros). *)
Definition fdiv (a b : fl) : fl :=
  match a, b with
  | Some x, Some y => if Qeq_bool y 0 then None else Some (x / y)%Q
  | _, _ => None
  end.
(** Addition that reads not-a-number as zero, the step of [np.nansum]. *)
Definition nan_add (a b : fl) : fl :=
  match a, b with
  | Some x, Some y => Some (x + y)%Q
  | Some x, None => Some x
  | None, Some y => Some y
  | None, None => Some 0%Q
  end.

(** [np.sum(mults, axis = -1)] *)
Definition sum_layers (h w : nat) (stack : list (grid fl)) : grid fl :=
  fold_left (grid_zip fadd) stack (np_full h w (Some 0%Q)).

(** [mults / np.sum(mults, axis = -1)[..., np.newaxis]] *)
Definition normalize (h w : nat) (mults : list (grid fl)) : list (grid fl) :=
  let total := sum_layers h w mults in
  map (fun layer => grid_zip fdiv layer total) mults.

(** [predictions[predictions > 100] = np.nan] *)
Definition clip_invalid (v : fl) : fl := if fgt v (Some 100%Q) then None else v.

(** [np.sum(np.isnan(out), axis = 2)] *)
Definition count_nan (h w : nat) (stack : list (grid fl)) : grid nat :=
  fold_left (grid_zip (fun (n : nat) (v : fl) => match v with None => S n | Some _ => n end))
            stack (np_full h w 0%nat).

(** [np.nansum(predictions * mults, axis = -1)] *)
Definition nansum_layers (h w : nat) (stack : list (grid fl)) : grid fl :=
  fold_left (grid_zip nan_add) stack (np_full h w (Some 0%Q)).

(** [astype(np.uint8)] of a float: towards zero, then modulo 256. *)
Definition to_uint8 (v : fl) : Z :=
  match v with
  | Some q => ((Qnum q ÷ Z.pos (Qden q)) mod 256)%Z
  | None => 0%Z
  end.

Definition fuse (h w : nat) (s : stacks) : grid Z * list (grid fl) :=
  let mults := normalize h w (mults s) in
  let preds := map (map (map clip_invalid)) (predictions s) in
  let out := count_nan h w preds in
  let n_preds := length preds in
  let total := nansum_layers h w (zip_with (grid_zip fmul) preds mults) in
  let total := grid_zip (fun v (n : nat) => if (n =? n_preds)%nat then None else v) total out in
  let total := map (map (fun v : fl => match v with None => Some 255%Q | _ => v end)) total in
  (map (map to_uint8) total, mults).

(** *** Local cleanup (lines 685-706) *)

(** A 3 x 3 window, row by row. *)
Abbreviation window := (list Z) (only parsing).

Definition np_max9 (w : window) : Z := foldr Z.max 0%Z w.

(** [np.argmax]: the first position of the maximum *)
Fixpoint argmax_from (idx best_idx : nat) (best : Z) (w : window) : nat :=
  match w with
  | [] => best_idx
  | v :: rest =>
      if (best <? v)%Z then argmax_from (S idx) idx v rest
      else argmax_from (S idx) best_idx best rest
  end.
Definition np_argmax (w : window) : nat :=
  match w with
  | [] => 0%nat
  | v :: rest => argmax_from 1 0 v rest
  end.

Definition count_if (f : Z -> bool) (w : list Z) : nat := length (filter (fun v => f v = true) w).

(** The first rule: the test is made, and [window = 0.] then rebinds the
    local name to a scalar instead of writing through the view. *)
Definition speckle (w : window) : bool :=
  (np_max9 w <? 35)%Z &&
  (let sum_under_35 := count_if (fun v => (10 <? v)%Z && (v <? 35)%Z) w in
   (6 <? sum_under_35)%nat && (sum_under_35 <? 10)%nat).

(** The second rule, on a window that is still a view of the raster. *)
Definition lonely_peak (w : window) : bool :=
  (25 <=? np_max9 w)%Z && (np_argmax w =? 4)%nat &&
  (let window_binary := map (fun v => (25 <=? v)%Z) w in
   let total (l : list bool) := length (filter (fun b => b = true) l) in
   (total window_binary <? 4)%nat &&
   (total (take 3 (drop 3 window_binary)) <? 3)%nat &&
   (total (omap (fun i => window_binary !! i) [1; 4; 7]%nat) <? 3)%nat).

(** The cells of the raster under the window after one pass of the body:
    rows 0 and 2 and columns 0 and 2 are zeroed when the second rule
    applies; after the first rule [window] is the scalar 0, whose maximum
    is below 25. *)
Definition visit (w : window) : window :=
  if speckle w then w
  else if lonely_peak w then
    match w with
    | [_; _; _; _; centre; _; _; _; _] => [0; 0; 0; 0; centre; 0; 0; 0; 0]%Z
    | _ => w
    end
  else w.

(** The inner loop over [y_i] on the three rows [x_i, x_i + 1, x_i + 2]:
    the window slides one column per pass and the rows keep what was
    written. *)
Fixpoint scan_band (passes : nat) (r0 r1 r2 : list Z) : list Z * list Z * list Z :=
  match passes with
  | O => (r0, r1, r2)
  | S k =>
      match r0, r1, r2 with
      | a0 :: a1 :: a2 :: t0, b0 :: b1 :: b2 :: t1, c0 :: c1 :: c2 :: t2 =>
          match visit [a0; a1; a2; b0; b1; b2; c0; c1; c2] with
          | [a0'; a1'; a2'; b0'; b1'; b2'; c0'; c1'; c2'] =>
              let '(r0', r1', r2') :=
                scan_band k (a1' :: a2' :: t0) (b1' :: b2' :: t1) (c1' :: c2' :: t2) in
              (a0' :: r0', b0' :: r1', c0' :: r2')
          | _ => (r0, r1, r2)
          end
      | _, _, _ => (r0, r1, r2)
      end
  end.

(** The outer loop over [x_i]. *)
Fixpoint scan_rows (passes inner : nat) (g : grid Z) : grid Z :=
  match passes with
  | O => g
  | S k =>
      match g with
      | r0 :: r1 :: r2 :: rest =>
          let '(r0', r1', r2') := scan_band inner r0 r1 r2 in
          r0' :: scan_rows k inner (r1' :: r2' :: rest)
      | _ => g
      end
  end.

(** [for x_i in range(0, shape[0] - 3): for y_i in range(0, shape[1] - 3)] *)
Definition cleanup (g : grid Z) : grid Z :=
  scan_rows (length g - 3) (width g - 3) g.

(** A cell after the cleanup: what it was, or 0. *)
Definition kept_or_zero (a b : Z) : Prop := b = a \/ b = 0%Z.

(** Lines 707-708 *)
Definition threshold (v : Z) : Z :=
  let v := if (v <=? 20)%Z then 0%Z else v in
  if (100 <? v)%Z then 255%Z else v.

(** Lines 685-708: what the function does to the fused raster. *)
Definition postprocess (g : grid Z) : grid Z := map (map threshold) (cleanup g).

(** *** The whole function *)

Definition load_stacks (fspecial_gauss : nat -> Z -> grid Q) (d : out_folder)
  : result (layout * stacks) :=
  (let* l := enumerate d in
   let* s := fill fspecial_gauss d l in
   Ok (l, s))%result.

(** The stages of one call: the stacks after outlier rejection, the fused
    raster of line 683, and the two values the function returns. *)
Record reconciled := {
  kept : stacks;
  fused : list (list Z);
  returned : list (list Z);
  weights : list (list (list (option Q)))
}.

Definition reconcile (fspecial_gauss : nat -> Z -> grid Q) (d : out_folder)
  : result reconciled :=
  (let* (l, s) := load_stacks fspecial_gauss d in
   let* s := reject_outliers l s in
   let '(fused, mults) := fuse (max_x l) (max_y l) s in
   Ok {| kept := s; fused := fused; returned := postprocess fused; weights := mults |})%result.

Definition recreate_resegmented_tifs (fspecial_gauss : nat -> Z -> grid Q) (d : out_folder)
  : result (grid Z * list (grid fl)) :=
  (let* r := reconcile fspecial_gauss d in Ok (returned r, weights r))%result.

(** The call returns the raster [g]. *)
Definition returns_raster (r : result (grid Z * list (grid fl))) (g : grid Z) : Prop :=
  match r with
  | Ok (raster, _) => raster = g
  | Raise _ => False
  end.

(** The values that the rasters of a stack hold at pixel [(x, y)], when every
    one of them has that pixel. *)
Definition column_at {A} (stack : list (grid A)) (x y : nat) : option (list A) :=
  mapM (fun layer => pix layer x y) stack.

(** The patches that contribute to a pixel of the fused raster: the ones
    that hold a number there which line 676 keeps. *)
Definition contributes (x y : nat) (layer : grid fl) : bool :=
  match pix layer x y with
  | Some v => match clip_invalid v with Some _ => true | None => false end
  | None => false
  end.

Definition contributing (s : stacks) (x y : nat) : nat :=
  length (filter (fun layer => contributes x y layer = true) (predictions s)).

(** The 3 x 3 means that decide on patch [i], when it is reshaped. *)
Definition report_blocks (fspecial_gauss : nat -> Z -> grid Q) (d : out_folder) (i : nat)
  : option (list (list Q)) :=
  match load_stacks fspecial_gauss d with
  | Ok (l, s) =>
      match predictions_range (predictions s), predictions s !! i with
      | Ok range, Some layer =>
          match block_means (range_on range layer) with
          | Ok means => Some means
          | Raise _ => None
          end
      | _, _ => None
      end
  | Raise _ => None
  end.

(** What the rejection loop makes of patch [i]: whether the loop reaches it,
    the verdict on the tile, the two tests on the patch, and what the patch
    holds after the loop. *)
Record patch_report := {
  reached : bool;                (* i < shape[-1] - n_border - n_right *)
  tile_overpredicts : bool;
  patch_mean : option Q;
  low_range_mean : option Q;
  is_problem_tile : bool;
  cells : Z;                     (* pixels where the patch holds a number *)
  cells_above_50 : Z;            (* of these, pixels whose range is above 50 *)
  numbers_after : Z;             (* numbers the patch holds after the loop *)
  weight_after : Q               (* sum of its weights after the loop *)
}.

Definition report_patch (fspecial_gauss : nat -> Z -> grid Q) (d : out_folder) (i : nat)
  : option patch_report :=
  match load_stacks fspecial_gauss d with
  | Ok (l, s) =>
      match predictions_range (predictions s), reject_outliers l s with
      | Ok range, Ok s' =>
          let v := judge range (predictions s) in
          match predictions s !! i, predictions s' !! i, mults s' !! i with
          | Some layer, Some layer', Some w' =>
              Some {| reached := (i <? examined l s)%nat;
                      tile_overpredicts := overpredict v;
                      patch_mean := np_nanmean (concat layer);
                      low_range_mean := mean_certain_pred v;
                      is_problem_tile := problem_tile v layer;
                      cells := Z.of_nat (length (range_on range layer));
                      cells_above_50 := Z.of_nat (count_above 50 [range_on range layer]);
                      numbers_after := Z.of_nat (length (numbers (concat layer')));
                      weight_after := qsum (numbers (concat w')) |}
          | _, _, _ => None
          end
      | _, _ => None
      end
  | Raise _ => None
  end.

(** A patch that is not entirely the no-data sentinel. *)
Definition usable_patches (d : out_folder) : nat :=
  length (filter (fun f => is_npy (fst f) && has_data (snd f) = true) (flat_map snd d)).

(** A raster of [h] rows of [w] pixels each. *)
Definition has_shape {A} (h w : nat) (g : grid A) : Prop :=
  length g = h /\ Forall (fun row => length row = w) g.

(** Two stacks of [n] rasters of [h] rows and [w] columns each. *)
Definition stacks_shaped (h w n : nat) (s : stacks) : Prop :=
  length (predictions s) = n /\ length (mults s) = n /\
  Forall (has_shape h w) (predictions s) /\ Forall (has_shape h w) (mults s).

(** The range is nowhere above 50 (not-a-number counts as not above). *)
Definition agree (range : grid fl) : bool :=
  forallb (forallb (fun r => negb (fgt r (Some 50%Q)))) range.

(** A prediction that is not-a-number or lies between 0 and [hi]. *)
Definition within (hi : Q) (p : fl) : Prop :=
  match p with Some q => (0 <= q <= hi)%Q | None => True end.

(** The blend kernel has no zero and no negative entry. *)
Definition positive_kernel (fspecial_gauss : nat -> Z -> grid Q) : Prop :=
  forall sigma, Forall (Forall (fun q => (0 < q)%Q)) (fspecial_gauss SIZE sigma).

(** The weights of a patch follow its values over a raster of [h] rows and
    [w] columns: every weight is a number that is not negative, and it is
    positive where the patch holds a number. *)
Definition weights_follow (h w : nat) (layer wl : grid fl) : Prop :=
  forall x y, (x < h)%nat -> (y < w)%nat ->
    exists q, pix wl x y = Some (Some q) /\ (0 <= q)%Q /\
              (forall v, pix layer x y = Some (Some v) -> (0 < q)%Q).

(** Stacks of [n] rasters of [h] rows and [w] columns in which the weights
    of every patch follow its values. *)
Definition weighted (h w n : nat) (s : stacks) : Prop :=
  stacks_shaped h w n s /\ Forall2 (weights_follow h w) (predictions s) (mults s).

(** The row of the transposed patch that enters the stacks first: a
    left-border patch gives its second half. *)
Definition first_row (pt : part) : nat :=
  match pt with Bottom => 84%nat | _ => 0%nat end.

End Mosaic.

(** ** Loading the finished raster of a tile (load_tif) *)

Import String.StringSyntax Ascii.AsciiSyntax.
Delimit Scope string_scope with string.
Delimit Scope char_scope with char.

Module Tif.

Abbreviation str := String.string (only parsing).

(** [needle in hay] on strings *)
Fixpoint contains (needle hay : str) : bool :=
  String.prefix needle hay ||
  match hay with
  | String.EmptyString => false
  | String.String _ rest => contains needle rest
  end.

(** [p.rfind(c)]: the last position of the character, or -1 *)
Fixpoint rfind (c : Ascii.ascii) (p : str) : Z :=
  match p with
  | String.EmptyString => (-1)%Z
  | String.String a rest =>
      let i := rfind c rest in
      if (0 <=? i)%Z then (i + 1)%Z else if Ascii.eqb a c then 0%Z else (-1)%Z
  end.

(** [os.path.splitext]: the extension starts at the last dot, when that dot
    comes after the last separator and after a character of the file name
    that is not a dot. *)
Definition splitext (p : str) : str * str :=
  let sepIndex := rfind "/"%char p in
  let dotIndex := rfind "."%char p in
  if (sepIndex <? dotIndex)%Z then
    let leading :=
      String.substring (Z.to_nat (sepIndex + 1)) (Z.to_nat (dotIndex - (sepIndex + 1))) p in
    if existsb (fun a => negb (Ascii.eqb a "."%char)) (String.list_ascii_of_string leading) then
      (String.substring 0 (Z.to_nat dotIndex) p,
       String.substring (Z.to_nat dotIndex) (String.length p - Z.to_nat dotIndex) p)
    else (p, ""%string)
  else (p, ""%string).

(** [os.path.splitext(file)[-1] == '.tif'] *)
Definition is_tif (file : str) : bool := String.eqb (snd (splitext file)) ".tif"%string.

(** [os.path.join(a, b)] *)
Definition os_path_join (a b : str) : str :=
  if String.prefix "/"%string b then b
  else if String.eqb a ""%string || String.eqb (String.substring (String.length a - 1) 1 a) "/"%string
       then String.append a b
       else String.append a (String.append "/"%string b).

(** The file system as the function sees it: the names that [os.listdir]
    gives for a folder, [None] when [os.path.exists] is false; and the
    first band that rasterio reads from a path. *)
Record files := {
  listdir : str -> option (list str);
  read_band : str -> result (grid Z)
}.

(** Lines 405-412: the candidate files, in the order of the listing. *)
Definition candidates (names : list str) : list str :=
  let files := filter (fun file => is_tif file = true) names in
  let files :=
    if (1 <? length files)%nat then filter (fun x => contains "_FINAL"%string x = true) files
    else files in
  if (length files =? 0)%nat then
    let files := filter (fun file => is_tif file = true) names in
    if (1 <? length files)%nat then filter (fun x => contains "_POST"%string x = true) files
    else files
  else files.

Definition dir_of (tile_id : str * str) (local_path : str) : str :=
  String.append local_path
    (String.append "/"%string
       (String.append (fst tile_id)
          (String.append "/"%string (String.append (snd tile_id) "/"%string)))).

Definition load_tif (fs : files) (tile_id : str * str) (local_path : str)
  : result (grid Z * Z) :=
  let dir_i := dir_of tile_id local_path in
  let '(tifs, smooth) :=
    match listdir fs dir_i with
    | Some names =>
        let processed := filter (fun file => contains "SMOOTH"%string file = true) names in
        (map (os_path_join dir_i) (candidates names),
         if (0 <? length processed)%nat then 1%Z else 0%Z)
    | None => ([], 0%Z)
    end in
  match tifs with
  | [] => Raise IndexError
  | first :: _ => (let* band := read_band fs first in Ok (band, smooth))%result
  end.

End Tif.

(** ** The batch loop of the main block (lines 824-883) *)

Module Batch.

(** A row of the table of line 829: its index label, the tile and the
    coordinates of the tile. *)
Record row := mk_row {
  label : Z;
  X_tile : Z;
  Y_tile : Z;
  X : Q;
  Y : Q
}.

(** [data.reset_index(drop = True)] on the rows of the country, given as
    [(X_tile, Y_tile, X, Y)]: the labels count the rows from 0. *)
Fixpoint number_from (i : Z) (table : list (Z * Z * Q * Q)) : list row :=
  match table with
  | [] => []
  | (xt, yt, x, y) :: rest => mk_row i xt yt x y :: number_from (i + 1) rest
  end.
Definition reset_index := number_from 0.

(** [data.sort_values(['Y_tile', 'X_tile'], ascending = [False, True])]:
    a stable sort that keeps the labels with their rows. *)
Definition precedes (a b : row) : bool :=
  (Y_tile b <? Y_tile a)%Z || ((Y_tile a =? Y_tile b)%Z && (X_tile a <=? X_tile b)%Z).
Fixpoint insert_row (r : row) (l : list row) : list row :=
  match l with
  | [] => [r]
  | r' :: l' => if precedes r r' then r :: l else r' :: insert_row r l'
  end.
Definition sort_values (l : list row) : list row := foldr insert_row [] l.

(** [data['X'][key]] and [data['Y'][key]]: the row that carries the label. *)
Definition at_label (data : list row) (key : Z) : option row :=
  find (fun r => (label r =? key)%Z) data.

(** How the loop ends: it runs out of rows, or line 861 raises outside of
    any [try]. *)
Inductive ending := Finished | KeyError (key : Z).

(** One pass of the body that got beyond line 861. *)
Record visit := {
  index : Z;
  tile : Z * Z;
  neighb : Q * Q;             (* the point that [neighb_bbx] is made from *)
  finished : Z;
  smoothed : bool             (* the block of lines 868-880 is entered *)
}.

Section Loop.
(** The outcome of [resegment_border(x, y, "right", args.local_path)]. *)
Variable border_outcome : Z -> Z -> result Z.

(** Lines 847-882 for one row. *)
Definition body (data : list row) (r : row) : ending + visit :=
  match at_label data (label r + 1) with
  | None => inl (KeyError (label r + 1))
  | Some next =>
      let finished :=
        match border_outcome (X_tile r) (Y_tile r) with
        | Ok v => v
        | Raise _ => 0%Z
        end in
      inr {| index := label r; tile := (X_tile r, Y_tile r); neighb := (X next, Y next);
             finished := finished; smoothed := (finished =? 1)%Z |}
  end.

(** Lines 845-882: the rows in the order of the sorted table. *)
Fixpoint loop (data : list row) (start_id : Z) (rows : list row) : list visit * ending :=
  match rows with
  | [] => ([], Finished)
  | r :: rest =>
      if (start_id <? label r)%Z then
        match body data r with
        | inl e => ([], e)
        | inr v => let '(vs, e) := loop data start_id rest in (v :: vs, e)
        end
      else loop data start_id rest
  end.

(** Lines 827-882 *)
Definition main_loop (table : list (Z * Z * Q * Q)) (start_id : Z) : list visit * ending :=
  let data := sort_values (reset_index table) in
  loop data start_id data.
End Loop.

End Batch.

(** ** Small worlds on which the definitions are run *)

Module Examples.

(** A strip of nine one-pixel windows.  The pixel of a window tells the
    missing-pixel filter how many leading dates to drop there: none in the
    first two windows, four in the next five, six and then all eight in the
    last two.  Compositing raises when no date is left. *)
Definition demo_env : collaborators Z unit :=
  {| zero_px := 0%Z;
     interpolate_na_vals := id;
     id_missing_px := fun subset =>
       match subset with
       | ((v :: _) :: _) :: _ => seq 0 (Z.to_nat v)
       | _ => []
       end;
     remove_missed_clouds := fun _ => [];
     calculate_and_save_best_images := fun subset dates_tile =>
       match dates_tile with
       | [] => None
       | _ => Some (subset, 40%Z)
       end;
     to_resolve := fun _ _ => np_zeros [1%nat];
     stack_bands := fun _ _ _ _ _ =>
       {| shape := [1%nat]; data := [1%Q]; floating := true |};
     superresolve_sess := id;
     predict_sess := fun _ => np_full 3 3 (1 # 2)%Q;
     gap_sess := fun _ => np_full 3 3 (1 # 4)%Q;
     temporal_features := id;
     median_features := id |}.

Definition demo_image : list (list Z) := map (fun v => [v]) [0; 0; 4; 4; 4; 4; 4; 6; 8]%Z.

Definition demo_inputs : Subtiles.inputs (px := Z) (px1 := unit) :=
  {| Subtiles.s2 := replicate 8 demo_image;
     Subtiles.dates := [10; 50; 100; 140; 180; 220; 260; 300]%Z;
     Subtiles.interp := replicate 8 (np_full 9 1 false);
     Subtiles.s1 := [];
     Subtiles.dem := np_full 9 1 0%Q;
     Subtiles.tiles_folder := map (fun j => [534; Z.of_nat j; 175; 175]%Z) (seq 0 9);
     Subtiles.tiles_array := map (fun j => [0; Z.of_nat j; 1; 1]%Z) (seq 0 9) |}.

(** The loop variables on entry to the window with two usable dates, in
    temporal mode, and what the pass prepares there. *)
Definition at_window_7 : Subtiles.loop_state :=
  {| Subtiles.t := 7; Subtiles.n_median := 3; Subtiles.gap_between_years := false |}.

Definition prepared_7 : Subtiles.prepared :=
  {| Subtiles.folder_x := 7; Subtiles.folder_y := 534;
     Subtiles.usable := [260; 300]%Z; Subtiles.composite := Some 40%Z;
     Subtiles.padded := np_zeros [1%nat];
     Subtiles.tensor := {| shape := [1%nat]; data := [1%Q]; floating := true |} |}.

(** The nine windows of the strip as the loop prepares them, and the
    seventh of them, which has four usable dates. *)
Definition demo_prepared : list Subtiles.prepared :=
  flat_map (fun r => match r with Ok p => [p] | Raise _ => [] end)
           (Subtiles.prepare_all demo_env demo_inputs).

Definition prepared_6 : Subtiles.prepared :=
  {| Subtiles.folder_x := 6; Subtiles.folder_y := 534;
     Subtiles.usable := [180; 220; 260; 300]%Z; Subtiles.composite := Some 40%Z;
     Subtiles.padded := np_zeros [1%nat];
     Subtiles.tensor := {| shape := [1%nat]; data := [1%Q]; floating := true |} |}.

(** Two finished rasters whose facing columns average 40 and 43; 255 is a
    no-data pixel. *)
Definition tile_raster : list (list Z) := [[10; 38]; [20; 42]; [0; 255]]%Z.
Definition neighbor_raster : list (list Z) := [[41; 90]; [255; 90]; [45; 90]]%Z.

Definition agreeing_world : Border.world (px := Z) (px1 := unit) :=
  {| Border.processed := true;
     Border.processed_neighbor := true;
     Border.catalog_rows := 1;
     Border.tile_tif := Ok (tile_raster, 0%Z);
     Border.neighbor_tif := Ok (neighbor_raster, 0%Z);
     Border.test_subtile := Ok SIZE;
     Border.test_subtile_neighbor := Ok SIZE;
     Border.tile := Raise ValueError;
     Border.neighbor := Raise ValueError |}.

(** A stand-in for the blend kernel: every weight is 1. *)
Definition flat_kernel (size : nat) (sigma : Z) : list (list Q) := np_full size size 1%Q.

Definition const_patch (v : Q) : list (list Q) := np_full SIZE SIZE v.

(** Folder "0" with two overlapping interior patches of 0.30 everywhere. *)
Definition speckle_folder : Mosaic.out_folder :=
  [(Mosaic.XDir 0, [(Mosaic.YFile 0, const_patch (3 # 10));
                    (Mosaic.YFile 1, const_patch (3 # 10))])].

(** Folder "0" with two interior patches that are entirely no-data. *)
Definition no_data_folder : Mosaic.out_folder :=
  [(Mosaic.XDir 0, [(Mosaic.YFile 0, const_patch 255);
                    (Mosaic.YFile 1, const_patch 255)])].

(** Four interior patches of 0 that leave row 0 uncovered left of column 168
    and row 168 uncovered from column 168 on. *)
Definition notch_folder : Mosaic.out_folder :=
  [(Mosaic.XDir 0, [(Mosaic.YFile 168, const_patch 0)]);
   (Mosaic.XDir 1, [(Mosaic.YFile 0, const_patch 0)]);
   (Mosaic.XDir 169, [(Mosaic.YFile 0, const_patch 0);
                      (Mosaic.YFile 168, const_patch 0)])].

(** Two interior patches of 0 and a left-border patch of 1.0 over the first
    of them. *)
Definition border_outlier_folder : Mosaic.out_folder :=
  [(Mosaic.XDir 0, [(Mosaic.YFile 0, const_patch 0);
                    (Mosaic.YFile 168, const_patch 0);
                    (Mosaic.LeftFile 0, const_patch 1)])].

(** Two interior patches one column apart, 1.0 and 0 everywhere. *)
Definition interior_outlier_folder : Mosaic.out_folder :=
  [(Mosaic.XDir 0, [(Mosaic.YFile 0, const_patch 1);
                    (Mosaic.YFile 1, const_patch 0)])].

(** The stacks that the fill builds from that folder: a raster of 168 rows
    and 169 columns, the first patch on columns 0 to 167 and the second on
    columns 1 to 168. *)
Definition outlier_layout : Mosaic.layout :=
  {| Mosaic.x_tiles := [0%nat]; Mosaic.right := []; Mosaic.n_right := 0;
     Mosaic.n_border := 0; Mosaic.max_x := 168; Mosaic.max_y := 169;
     Mosaic.n_tiles := 2 |}.
Definition high_layer : list (list (option Q)) :=
  map (fun row => row ++ [None]) (np_full SIZE SIZE (Some 100%Q)).
Definition low_layer : list (list (option Q)) :=
  map (fun row => None :: row) (np_full SIZE SIZE (Some 0%Q)).
Definition outlier_stacks : Mosaic.stacks :=
  {| Mosaic.predictions := [high_layer; low_layer];
     Mosaic.mults :=
       [map (fun row => row ++ [Some 0%Q]) (np_full SIZE SIZE (Some 1%Q));
        map (fun row => Some 0%Q :: row) (np_full SIZE SIZE (Some 1%Q))] |}.

(** The range of those stacks: the patches differ by 100 where they
    overlap, and one patch alone has range 0. *)
Definition outlier_range : list (list (option Q)) :=
  replicate SIZE (Some 0%Q :: replicate 167 (Some 100%Q) ++ [Some 0%Q]).

(** A folder that only holds a right-border subfolder. *)
Definition right_only_folder : Mosaic.out_folder :=
  [(Mosaic.DSStoreDir, []); (Mosaic.RightDir 0, [(Mosaic.YFile 0, const_patch (1 # 2))])].

(** Two patches over a raster of one row and two columns: both hold a
    number at pixel (0, 0), with weights 1 and 3, and none at pixel (0, 1). *)
Definition two_pixel_stacks : Mosaic.stacks :=
  {| Mosaic.predictions := [[[Some 40%Q; None]]; [[Some 60%Q; None]]];
     Mosaic.mults := [[[Some 1%Q; Some 0%Q]]; [[Some 3%Q; Some 0%Q]]] |}.

(** Two date series with six common dates; the images and masks are
    numbered by position. *)
Definition tile_series : Aligner.series nat nat :=
  {| Aligner.dates := [10; 40; 70; 100; 130; 160; 190]%Z;
     Aligner.s2 := seq 0 7;
     Aligner.interp := seq 0 7 |}.
Definition neighbour_series : Aligner.series nat nat :=
  {| Aligner.dates := [10; 40; 75; 100; 130; 160; 190; 220]%Z;
     Aligner.s2 := seq 0 8;
     Aligner.interp := seq 0 8 |}.

(** The loop variables on entry to the third window of the strip, which
    has four usable dates, and what the pass prepares there. *)
Definition at_window_2 : Subtiles.loop_state :=
  {| Subtiles.t := 2; Subtiles.n_median := 0; Subtiles.gap_between_years := false |}.

Definition prepared_2 : Subtiles.prepared :=
  {| Subtiles.folder_x := 2; Subtiles.folder_y := 534;
     Subtiles.usable := [180; 220; 260; 300]%Z; Subtiles.composite := Some 40%Z;
     Subtiles.padded := np_zeros [1%nat];
     Subtiles.tensor := {| shape := [1%nat]; data := [1%Q]; floating := true |} |}.

(** The strip with the grid that resegment_border builds for a tile of 618
    rows and 618 columns. *)
Definition border_windows : list (list Z) * list (list Z) :=
  match Grid.border_grid 618 618 with
  | Ok grids => grids
  | Raise _ => ([], [])
  end.

Definition border_inputs : Subtiles.inputs (px := Z) (px1 := unit) :=
  {| Subtiles.s2 := replicate 8 demo_image;
     Subtiles.dates := [10; 50; 100; 140; 180; 220; 260; 300]%Z;
     Subtiles.interp := replicate 8 (np_full 9 1 false);
     Subtiles.s1 := [];
     Subtiles.dem := np_full 9 1 0%Q;
     Subtiles.tiles_folder := snd border_windows;
     Subtiles.tiles_array := fst border_windows |}.

(** A session whose output is one pixel wider than the subtile on every
    side. *)
Definition ring_sess (input : ndarray) : list (list Q) :=
  np_full (SIZE + 2) (SIZE + 2) (1 # 2)%Q.

Definition unit_tensor : ndarray :=
  {| shape := [1%nat]; data := [1%Q]; floating := true |}.

(** A pair of processed tiles of 170 rows whose facing columns average 80
    and 20: the checks pass and the strip of three windows is predicted. *)
Definition strip_tile : Border.tile_data (px := Z) (px1 := unit) :=
  {| Border.s2 := replicate 8 (np_full 170 1 0%Z);
     Border.dates := [10; 50; 100; 140; 180; 220; 260; 300]%Z;
     Border.interp := replicate 8 (np_full 170 1 false);
     Border.s1 := [np_full 170 1 tt];
     Border.dem := np_full 170 1 0%Q |}.

Definition reprocess_world : Border.world (px := Z) (px1 := unit) :=
  {| Border.processed := true;
     Border.processed_neighbor := true;
     Border.catalog_rows := 1;
     Border.tile_tif := Ok ([[10; 80]]%Z, 0%Z);
     Border.neighbor_tif := Ok ([[20; 90]]%Z, 0%Z);
     Border.test_subtile := Ok SIZE;
     Border.test_subtile_neighbor := Ok SIZE;
     Border.tile := Ok strip_tile;
     Border.neighbor := Ok strip_tile |}.

Definition reprocess_trace : list event :=
  match Border.resegment_border demo_env 6 reprocess_world Border.RightEdge with
  | Some (tr, _) => tr
  | None => []
  end.

(** Radar stacks of 12, 6 and 5 observations. *)
Definition radar_12 : list (list (list nat)) := map (fun k => [[k]]) (seq 0 12).
Definition radar_6 : list (list (list nat)) := map (fun k => [[k]]) (seq 0 6).
Definition radar_5 : list (list (list nat)) := map (fun k => [[k]]) (seq 0 5).

(** One band of a tile of 100 columns and of a neighbour of 95 columns. *)
Definition tile_band : list (list (list nat)) := [np_full 2 100 0%nat].
Definition neighbour_band : list (list (list nat)) := [np_full 2 95 1%nat].

(** Two blank layers of 168 rows and 169 columns, as the fill starts
    with. *)
Definition blank_stacks : Mosaic.stacks :=
  {| Mosaic.predictions := replicate 2 (np_full 168 169 None);
     Mosaic.mults := replicate 2 (np_full 168 169 (Some 0%Q)) |}.

(** Two patches of 30 and of 70 that overlap on 167 columns, and their
    range. *)
Definition agreeing_stacks : Mosaic.stacks :=
  {| Mosaic.predictions :=
       [map (fun row => row ++ [None]) (np_full SIZE SIZE (Some 30%Q));
        map (fun row => None :: row) (np_full SIZE SIZE (Some 70%Q))];
     Mosaic.mults :=
       [map (fun row => row ++ [Some 0%Q]) (np_full SIZE SIZE (Some 1%Q));
        map (fun row => Some 0%Q :: row) (np_full SIZE SIZE (Some 1%Q))] |}.
Definition agreeing_range : list (list (option Q)) :=
  replicate SIZE (Some 0%Q :: replicate 167 (Some 40%Q) ++ [Some 0%Q]).

(** A raster of 3 rows and 4 columns and a patch of 2 rows and 2 columns. *)
Definition small_raster : list (list nat) := np_full 3 4 0%nat.
Definition small_patch : list (list nat) := [[1; 2]; [3; 4]]%nat.

(** The stacks of the rejection example after the loop: the second patch is
    emptied. *)
Definition rejected_stacks : Mosaic.stacks :=
  {| Mosaic.predictions := [high_layer; Mosaic.blank_layer None low_layer];
     Mosaic.mults :=
       [map (fun row => row ++ [Some 0%Q]) (np_full SIZE SIZE (Some 1%Q));
        np_full SIZE (SIZE + 1) (Some 0%Q)] |}.

(** A fused raster of 5 rows and 5 columns with a lone peak at (1, 1) among
    pixels of 24, and a peak in the last row and column. *)
Definition peak_raster : list (list Z) :=
  [[24; 24; 24; 24; 24];
   [24; 60; 24; 24; 24];
   [24; 24; 24; 24; 24];
   [24; 24; 24; 24; 24];
   [24; 24; 24; 24; 90]]%Z.

(** A table of three tiles, listed in the order in which the sort leaves
    them, and a border step that asks for both tiles to be rebuilt. *)
Definition three_tiles : list (Z * Z * Q * Q) :=
  [(2010, 1080, 5 # 2, 10 # 1); (2011, 1079, 3 # 1, 19 # 2); (2012, 1079, 7 # 2, 19 # 2)]%Z.
Definition always_reprocessed (x y : Z) : result Z := Ok 1%Z.

(** A tile folder with three rasters and a text file, and a folder with two
    rasters whose names carry no suffix. *)
Definition tile_files : Tif.files :=
  {| Tif.listdir := fun d =>
       if String.eqb d "tiles//2011/1079/"
       then Some ["2011X1079Y_POST.tif"; "notes.txt"; "2011X1079Y_FINAL.tif";
                  "2011X1079Y_SMOOTH.tif"]
       else if String.eqb d "tiles//2012/1079/" then Some ["a.tif"; "b.tif"]
       else None;
     Tif.read_band := fun p =>
       if String.eqb p "tiles//2011/1079/2011X1079Y_FINAL.tif" then Ok [[7; 8]]%Z
       else Raise ValueError |}%string.

End Examples.
(** * Properties *)

(** ** Facts about sums *)

Lemma Qltb_lt (a b : Q) : Qltb a b = true <-> (a < b)%Q.
Proof.
  unfold Qltb. rewrite negb_true_iff, <- not_true_iff_false, Qle_bool_iff.
  split; [apply Qnot_le_lt | apply Qlt_not_le].
Qed.

Lemma qsum_replicate_zero (n : nat) : qsum (replicate n 0%Q) = 0%Q.
Proof. induction n as [|n IH]; simpl; [done | by rewrite IH]. Qed.

Lemma np_sum_zeros (shp : list nat) : np_sum (np_zeros shp) = 0%Q.
Proof. apply qsum_replicate_zero. Qed.

(** C10.  An input whose element sum is not strictly positive never reaches a
    session: [predict_subtile] and [predict_gap] both return the constant
    [SIZE] x [SIZE] raster of 255 and record no call; the zero-filled no-data
    stack of any shape is such an input. *)
Theorem predict_nonpositive_sum_is_nodata
    (tf mf : ndarray -> ndarray) (sess gap_sess : ndarray -> grid Q) :
  (forall subtile : ndarray,
      ~ (0 < np_sum subtile)%Q ->
      Predictors.predict_subtile tf subtile sess = ([], Ok (np_full SIZE SIZE 255%Q)) /\
      Predictors.predict_gap mf subtile gap_sess = ([], Ok (np_full SIZE SIZE 255%Q))) /\
  (forall shp : list nat,
      Predictors.predict_subtile tf (np_zeros shp) sess = ([], Ok (np_full SIZE SIZE 255%Q)) /\
      Predictors.predict_gap mf (np_zeros shp) gap_sess = ([], Ok (np_full SIZE SIZE 255%Q))).
Proof.
  assert (Hgen : forall subtile : ndarray,
      ~ (0 < np_sum subtile)%Q ->
      Predictors.predict_subtile tf subtile sess = ([], Ok (np_full SIZE SIZE 255%Q)) /\
      Predictors.predict_gap mf subtile gap_sess = ([], Ok (np_full SIZE SIZE 255%Q))).
  { intros subtile Hsum.
    unfold Predictors.predict_subtile, Predictors.predict_gap.
    destruct (Qltb 0 (np_sum subtile)) eqn:E; [|done].
    apply Qltb_lt in E. contradiction. }
  split; [exact Hgen|].
  intros shp. apply Hgen. rewrite np_sum_zeros. apply Qlt_irrefl.
Qed.

Lemma predict_nonpositive_sum_is_nodata_witness :
  let subtile := {| shape := [1; 2]%nat; data := [(-3 # 2)%Q; (1 # 2)%Q]; floating := true |} in
  ~ (0 < np_sum subtile)%Q /\
  Predictors.predict_subtile id subtile (fun _ => []) = ([], Ok (np_full SIZE SIZE 255%Q)) /\
  Predictors.predict_gap id subtile (fun _ => []) = ([], Ok (np_full SIZE SIZE 255%Q)).
Proof.
  intros subtile.
  assert (H : ~ (0 < np_sum subtile)%Q) by (vm_compute; discriminate).
  split; [exact H|].
  exact (proj1 (predict_nonpositive_sum_is_nodata id id (fun _ => []) (fun _ => [])) subtile H).
Defined.

(** ** Temporal aligner *)

Lemma py_bound_of_nat (n k : nat) : py_bound n (Z.of_nat k) = Nat.min k n.
Proof.
  unfold py_bound. destruct (Z.ltb_spec (Z.of_nat k) 0); lia.
Qed.

Lemma py_upto_length {A} (k : nat) (l : list A) :
  length (py_upto (Z.of_nat k) l) = Nat.min k (length l).
Proof. unfold py_upto. rewrite py_bound_of_nat, length_take. lia. Qed.

Lemma take_min_length {A} (n : nat) (l : list A) :
  take (Nat.min n (length l)) l = take n l.
Proof.
  destruct (Nat.le_ge_cases n (length l)) as [Hle | Hge].
  - by rewrite Nat.min_l.
  - rewrite Nat.min_r by done. by rewrite !take_ge by lia.
Qed.

Lemma unmatched_from_disjoint (a b : list Z) (idx : nat) :
  (forall d, d ∈ a -> d ∉ b) ->
  length (Aligner.unmatched_from idx a b) = length a.
Proof.
  revert idx. induction a as [|date rest IH]; intros idx Hdis; simpl; [done|].
  destruct (existsb (Z.eqb date) b) eqn:Hex.
  - apply existsb_exists in Hex as (d & Hin & Heq).
    apply Z.eqb_eq in Heq. subst d.
    exfalso. apply (Hdis date); [left | by apply list_elem_of_In].
  - simpl. f_equal. apply IH. intros d Hd. apply Hdis. by right.
Qed.

Lemma synchronise_fallback {S2 I} (tile neighb : Aligner.series S2 I) :
  Aligner.falls_back (Aligner.dates tile) (Aligner.dates neighb) = true ->
  exists tile' neighb',
    Aligner.synchronise tile neighb = Ok (Aligner.Proceed tile' neighb') /\
    tile' = Aligner.truncate (length (Aligner.dates neighb)) tile /\
    neighb' = Aligner.truncate (length (Aligner.dates tile')) neighb /\
    length (Aligner.dates tile') =
      Nat.min (length (Aligner.dates tile)) (length (Aligner.dates neighb)) /\
    length (Aligner.dates neighb') =
      Nat.min (length (Aligner.dates tile)) (length (Aligner.dates neighb)).
Proof.
  intros Hfb. eexists _, _. unfold Aligner.synchronise.
  destruct (Aligner.align_dates _ _) as [to_rm_tile to_rm_neighb].
  rewrite Hfb. split; [reflexivity|]. split; [reflexivity|]. split; [reflexivity|].
  simpl. rewrite !py_upto_length. lia.
Qed.

(** C4.  When removing the unmatched dates would leave the tile or the
    neighbour with fewer than 5 dates, resegment_border truncates both series
    by position instead: the aligned date vectors are the leading dates of the
    inputs and both have the length of the shorter input.  Two series without
    a common date always take this branch. *)
Theorem short_overlap_truncates_by_position {S2 I} :
  (forall tile neighb : Aligner.series S2 I,
      let to_rm := Aligner.align_dates (Aligner.dates tile) (Aligner.dates neighb) in
      (Z.of_nat (length (Aligner.dates tile)) - Z.of_nat (length (fst to_rm)) < 5 \/
       Z.of_nat (length (Aligner.dates neighb)) - Z.of_nat (length (snd to_rm)) < 5)%Z ->
      exists tile' neighb',
        Aligner.synchronise tile neighb = Ok (Aligner.Proceed tile' neighb') /\
        Aligner.dates tile' = take (length (Aligner.dates neighb)) (Aligner.dates tile) /\
        Aligner.dates neighb' = take (length (Aligner.dates tile)) (Aligner.dates neighb) /\
        length (Aligner.dates tile') =
          Nat.min (length (Aligner.dates tile)) (length (Aligner.dates neighb)) /\
        length (Aligner.dates neighb') =
          Nat.min (length (Aligner.dates tile)) (length (Aligner.dates neighb))) /\
  (forall tile neighb : Aligner.series S2 I,
      (forall d, d ∈ Aligner.dates tile -> d ∉ Aligner.dates neighb) ->
      Aligner.falls_back (Aligner.dates tile) (Aligner.dates neighb) = true).
Proof.
  split.
  - intros tile neighb to_rm Hshort.
    assert (Hfb : Aligner.falls_back (Aligner.dates tile) (Aligner.dates neighb) = true).
    { unfold Aligner.falls_back. fold to_rm. destruct to_rm as [a b]. simpl in Hshort.
      apply orb_true_iff. destruct Hshort; [left | right]; by apply Z.ltb_lt. }
    destruct (synchronise_fallback tile neighb Hfb) as (t' & n' & Hs & Ht & Hn & Hlt & Hln).
    exists t', n'. split; [done|]. subst t' n'. simpl in *.
    unfold py_upto. rewrite !py_bound_of_nat. rewrite length_take.
    repeat split; try done.
    + apply take_min_length.
    + rewrite <- (take_min_length (length (Aligner.dates tile))). f_equal. lia.
    + lia.
    + rewrite length_take. lia.
  - intros tile neighb Hdis. unfold Aligner.falls_back, Aligner.align_dates.
    apply orb_true_iff. left. apply Z.ltb_lt.
    rewrite unmatched_from_disjoint by done. lia.
Qed.

Lemma short_overlap_truncates_by_position_witness :
  let tile : Aligner.series nat nat :=
    {| Aligner.dates := [10; 40; 70; 100; 130; 160; 190]%Z;
       Aligner.s2 := [0; 1; 2; 3; 4; 5; 6]%nat;
       Aligner.interp := [0; 1; 2; 3; 4; 5; 6]%nat |} in
  let neighb : Aligner.series nat nat :=
    {| Aligner.dates := [10; 45; 75; 100; 135; 165]%Z;
       Aligner.s2 := [0; 1; 2; 3; 4; 5]%nat;
       Aligner.interp := [0; 1; 2; 3; 4; 5]%nat |} in
  exists tile' neighb',
    Aligner.synchronise tile neighb = Ok (Aligner.Proceed tile' neighb') /\
    Aligner.dates tile' = [10; 40; 70; 100; 130; 160]%Z /\
    Aligner.dates neighb' = [10; 45; 75; 100; 135; 165]%Z /\
    length (Aligner.dates tile') = 6%nat /\
    length (Aligner.dates neighb') = 6%nat.
Proof.
  intros tile neighb.
  apply (proj1 (@short_overlap_truncates_by_position nat nat) tile neighb).
  vm_compute. left. reflexivity.
Defined.

(** ** Grid geometry *)

Section GridFacts.
Import Grid.
Local Open Scope Z_scope.

Lemma cartesian_scalar (x : Z) (ys : list Z) :
  cartesian [x] ys = map (fun y => [x; y]) ys.
Proof. unfold cartesian. induction ys as [|y ys IH]; simpl; [done | by f_equal]. Qed.

Lemma np_sort_sorted (l : list Z) : Sorted Z.le l -> np_sort l = l.
Proof.
  induction 1 as [|h t Hs IH Hhd]; [done|].
  unfold np_sort in *. simpl. rewrite IH.
  destruct Hhd as [|h' t' Hle]; simpl; [done|].
  by apply Z.leb_le in Hle as ->.
Qed.

Lemma dedup_sorted_strict (l : list Z) : Sorted Z.lt l -> dedup_sorted l = l.
Proof.
  induction 1 as [|h t Hs IH Hhd]; [done|].
  simpl. destruct Hhd as [|h' t' Hlt]; [done|].
  assert ((h =? h') = false) as -> by (apply Z.eqb_neq; lia).
  by rewrite IH.
Qed.

Lemma sorted_lt_le (l : list Z) : Sorted Z.lt l -> Sorted Z.le l.
Proof.
  induction 1 as [|h t Hs IH Hhd]; constructor; [done|].
  destruct Hhd; constructor. lia.
Qed.

Lemma np_unique_strict (l : list Z) : Sorted Z.lt l -> np_unique l = l.
Proof.
  intros Hs. unfold np_unique.
  rewrite np_sort_sorted by by apply sorted_lt_le. by apply dedup_sorted_strict.
Qed.

Lemma sorted_constant (v : Z) (n : nat) : Sorted Z.le (replicate n v).
Proof.
  induction n as [|n IH]; simpl; constructor; [done|].
  destruct n; simpl; constructor. lia.
Qed.

Lemma column_storage_rows (x : Z) (ys : list Z) :
  column 0 (storage_rows x ys) = replicate (length ys) x /\
  column 1 (storage_rows x ys) = ys /\
  column 2 (storage_rows x ys) = replicate (length ys) 175 /\
  column 3 (storage_rows x ys) = replicate (length ys) 175.
Proof.
  unfold column, storage_rows. rewrite !map_map. simpl.
  repeat split; induction ys as [|y ys IH]; simpl; congruence.
Qed.

Lemma set_column_same (k : nat) (a : windows) :
  Forall (fun row => (k < length row)%nat) a ->
  set_column k (column k a) a = a.
Proof.
  unfold set_column, column. induction 1 as [|row a Hlt Hall IH]; simpl; [done|].
  rewrite IH. f_equal.
  destruct (lookup_lt_is_Some_2 row k Hlt) as [v Hv].
  rewrite nth_lookup, Hv. simpl. by apply list_insert_id.
Qed.

Lemma np_sort_axis0_storage_rows (x : Z) (ys : list Z) :
  Sorted Z.lt ys -> np_sort_axis0 (storage_rows x ys) = storage_rows x ys.
Proof.
  intros Hs. unfold np_sort_axis0.
  destruct (column_storage_rows x ys) as (H0 & H1 & H2 & H3).
  assert (Hlen : forall k, (k < 4)%nat ->
            Forall (fun row => (k < length row)%nat) (storage_rows x ys)).
  { intros k Hk. unfold storage_rows. apply Forall_map, Forall_true. intros y. simpl. lia. }
  cbn [foldr].
  assert (Hsame : forall k, (k < 4)%nat ->
            set_column k (column k (storage_rows x ys)) (storage_rows x ys)
            = storage_rows x ys).
  { intros k Hk. apply set_column_same, Hlen, Hk. }
  assert (Hsort : forall k, (k < 4)%nat ->
            np_sort (column k (storage_rows x ys)) = column k (storage_rows x ys)).
  { intros k Hk. apply np_sort_sorted.
    destruct k as [|[|[|[|k]]]]; [rewrite H0 | rewrite H1 | rewrite H2 | rewrite H3 | lia];
      auto using sorted_constant, sorted_lt_le. }
  rewrite (Hsort 3%nat), (Hsame 3%nat) by lia.
  rewrite (Hsort 2%nat), (Hsame 2%nat) by lia.
  rewrite (Hsort 1%nat), (Hsame 1%nat) by lia.
  rewrite (Hsort 0%nat), (Hsame 0%nat) by lia.
  done.
Qed.

Lemma make_tiles_right_neighb_sorted (x : Z) (ys : list Z) :
  Sorted Z.lt ys -> ys <> [] ->
  exists tiles_array,
    make_tiles_right_neighb [x] ys = Ok (tiles_array, storage_rows x ys) /\
    length tiles_array = length ys /\
    forall j y, ys !! j = Some y -> tiles_array !! j = Some (read_row (length ys) j y).
Proof.
  intros Hs Hne. unfold make_tiles_right_neighb.
  rewrite cartesian_scalar, map_map.
  change (map _ ys) with (storage_rows x ys).
  rewrite np_sort_axis0_storage_rows by done.
  destruct (column_storage_rows x ys) as (_ & H1 & _ & _).
  rewrite H1, np_unique_strict by done.
  assert (Hlen : length (storage_rows x ys) = length ys) by apply length_map.
  assert (Hset : set_column 1 ys (storage_rows x ys) = storage_rows x ys).
  { pose proof (set_column_same 1 (storage_rows x ys)) as Hsame.
    rewrite H1 in Hsame. apply Hsame.
    unfold storage_rows. apply Forall_map, Forall_true. intros ?. simpl. lia. }
  assert (Hreps : match ys with
                  | [] => Raise ZeroDivisionError
                  | _ :: _ => Ok (length ys / length ys)%nat
                  end = Ok 1%nat).
  { destruct ys; [done|]. by rewrite Nat.div_same. }
  rewrite Hreps. cbn [rbind].
  unfold np_tile. simpl concat. rewrite app_nil_r.
  unfold assign_column. rewrite Hlen, Nat.eqb_refl. cbn [rbind].
  rewrite Hset.
  eexists. split; [reflexivity|].
  unfold set_column, add_to_rows.
  repeat (progress rewrite ?length_zip_with, ?length_imap, ?length_replicate, ?Hlen).
  split; [lia|].
  intros j y Hj.
  assert (Hjlt : (j < length ys)%nat) by (by apply lookup_lt_Some in Hj).
  rewrite !lookup_zip_with, !list_lookup_imap.
  unfold storage_rows. rewrite list_lookup_fmap, Hj.
  rewrite !lookup_replicate_2 by lia.
  simpl. unfold read_row.
  repeat case_bool_decide; simpl; try done; try lia.
Qed.

Lemma ceil_div_bounds (d g : Z) :
  0 < g -> 0 < d ->
  let q := - ((- d) / g) in 1 <= q /\ (q - 1) * g < d <= q * g.
Proof.
  intros Hg Hd q. subst q.
  pose proof (Z.div_mod (- d) g ltac:(lia)) as Hdm.
  pose proof (Z.mod_pos_bound (- d) g Hg) as Hmod.
  split; nia.
Qed.

Lemma sorted_arange (g d : Z) (start m : nat) :
  0 < g -> (Z.of_nat start + Z.of_nat m - 1) * g < d -> (0 < start + m)%nat ->
  Sorted Z.lt (map (fun k => Z.of_nat k * g) (seq start m) ++ [d]).
Proof.
  intros Hg. revert start. induction m as [|m IH]; intros start Hlast Hpos; simpl.
  - repeat constructor.
  - constructor.
    + apply IH; [nia | lia].
    + destruct m as [|m]; simpl; constructor; nia.
Qed.

(** The offsets of lines 482-483 in closed form. *)
Lemma tiles_folder_y_closed (extent : Z) :
  Z.of_nat SIZE < extent ->
  let d := extent - Z.of_nat SIZE in
  let g := gap_y extent in
  exists m : nat,
    (1 <= m)%nat /\ 0 < g /\
    (Z.of_nat m - 1) * g < d <= Z.of_nat m * g /\ d <= 4 * g /\
    tiles_folder_y extent = Ok (map (fun k => Z.of_nat k * g) (seq 0 m) ++ [d]).
Proof.
  intros Hext d g. subst g. unfold tiles_folder_y, np_arange, gap_y, ceil_div4. fold d.
  assert (Hd : 0 < d) by (subst d; lia).
  destruct (ceil_div_bounds d 4 ltac:(lia) Hd) as [Hg1 Hg2].
  set (g := - (- d / 4)) in *.
  destruct (ceil_div_bounds d g ltac:(lia) Hd) as [Hq1 Hq2].
  set (q := - (- d / g)) in *.
  exists (Z.to_nat q).
  assert ((g =? 0) = false) as -> by (apply Z.eqb_neq; lia).
  rewrite Z2Nat.id by lia. simpl. repeat split; try lia.
Qed.

Lemma lookup_arange (g d : Z) (m j : nat) (y : Z) :
  (map (fun k => Z.of_nat k * g) (seq 0 m) ++ [d]) !! j = Some y ->
  ((j < m)%nat /\ y = Z.of_nat j * g) \/ (j = m /\ y = d).
Proof.
  intros Hj.
  destruct (decide (j < m)%nat) as [Hlt | Hge].
  - left. split; [done|].
    rewrite lookup_app_l in Hj by (rewrite length_map, length_seq; lia).
    rewrite list_lookup_fmap, lookup_seq_lt in Hj by done. simpl in Hj. by inversion Hj.
  - right. rewrite lookup_app_r in Hj by (rewrite length_map, length_seq; lia).
    rewrite length_map, length_seq in Hj.
    destruct (j - m)%nat as [|k] eqn:Hk; simpl in Hj; [|done].
    split; [lia | by inversion Hj].
Qed.

(** C7, as the code has it.  For a tile of more than [SIZE] rows the grid is
    built, with at least two windows.  Read window [j] without its 7-pixel
    margin (trailing side only at index 0, leading side only at the last
    index, both sides in between) starts where storage row [j] starts and is
    [SIZE] long, 7 short of the [SIZE + 7] that the storage row records.
    The storage offsets run from 0 to [extent - SIZE] in steps of at most
    [gap_y]; up to five subtile lengths the [SIZE]-long windows leave no
    offset of the tile uncovered, and whenever the step is below [SIZE]
    each window overlaps the next. *)
Theorem read_windows_align_with_storage_offsets (extent width : Z) :
  Z.of_nat SIZE < extent ->
  exists ys tiles_array tiles_folder,
    tiles_folder_y extent = Ok ys /\
    border_grid extent width = Ok (tiles_array, tiles_folder) /\
    length tiles_array = length ys /\ length tiles_folder = length ys /\
    (2 <= length ys)%nat /\
    (forall j y, ys !! j = Some y ->
       exists read store,
         tiles_array !! j = Some read /\ tiles_folder !! j = Some store /\
         storage_span store = (y, Z.of_nat SIZE + 7) /\
         strip_margin (length ys) j read = (y, Z.of_nat SIZE)) /\
    ys !! 0%nat = Some 0 /\
    ys !! (length ys - 1)%nat = Some (extent - Z.of_nat SIZE) /\
    (forall j y y', ys !! j = Some y -> ys !! S j = Some y' ->
       y < y' <= y + gap_y extent /\
       (gap_y extent < Z.of_nat SIZE ->
        covers y (Z.of_nat SIZE) y' /\ covers y' (Z.of_nat SIZE) y')) /\
    (extent <= 5 * Z.of_nat SIZE ->
     forall p, 0 <= p < extent ->
       exists j y, ys !! j = Some y /\ covers y (Z.of_nat SIZE) p).
Proof.
  intros Hext.
  destruct (tiles_folder_y_closed extent Hext) as (m & Hm & Hg & Hlast & Hfour & Hys).
  set (d := extent - Z.of_nat SIZE) in *. set (g := gap_y extent) in *.
  set (ys := map (fun k => Z.of_nat k * g) (seq 0 m) ++ [d]) in *.
  assert (Hsorted : Sorted Z.lt ys) by (apply sorted_arange; lia).
  assert (Hlen : length ys = S m).
  { unfold ys. rewrite length_app, length_map, length_seq. simpl. lia. }
  assert (Hne : ys <> []) by (intros Heq; rewrite Heq in Hlen; done).
  destruct (make_tiles_right_neighb_sorted (tiles_x width) ys Hsorted Hne)
    as (ta & Hmake & Hta & Hrows).
  exists ys, ta, (storage_rows (tiles_x width) ys).
  split; [done|].
  split; [unfold border_grid; rewrite Hys; exact Hmake|].
  split; [done|]. split; [apply length_map|]. split; [lia|].
  assert (Hlook : forall j y, ys !! j = Some y ->
            ((j < m)%nat /\ y = Z.of_nat j * g) \/ (j = m /\ y = d))
    by (intros j y; apply lookup_arange).
  assert (Hlow : forall j, (j < m)%nat -> ys !! j = Some (Z.of_nat j * g)).
  { intros j Hj. unfold ys.
    rewrite lookup_app_l by (rewrite length_map, length_seq; lia).
    by rewrite list_lookup_fmap, lookup_seq_lt. }
  assert (Htop : ys !! m = Some d).
  { unfold ys. rewrite lookup_app_r by (rewrite length_map, length_seq; lia).
    by rewrite length_map, length_seq, Nat.sub_diag. }
  split.
  { intros j y Hj. exists (read_row (length ys) j y), [tiles_x width; y; 175; 175].
    split; [by apply Hrows|].
    split; [unfold storage_rows; by rewrite list_lookup_fmap, Hj|].
    split; [done|].
    assert (j < length ys)%nat by (by apply lookup_lt_Some in Hj).
    unfold strip_margin, read_row. simpl.
    repeat case_bool_decide; f_equal; lia. }
  split; [rewrite (Hlow 0%nat) by lia; f_equal; lia|].
  split; [rewrite Hlen; replace (S m - 1)%nat with m by lia; done|].
  split.
  { intros j y y' Hj Hj'.
    assert (Hstep : y < y' <= y + g).
    { destruct (Hlook _ _ Hj) as [[Hjm ->] | [-> ->]];
        destruct (Hlook _ _ Hj') as [[Hjm' ->] | [Hjm' ->]]; try lia; nia. }
    split; [done|]. unfold covers. lia. }
  intros Hsmall p Hp.
  assert (Hgs : g <= Z.of_nat SIZE).
  { subst g. unfold gap_y, ceil_div4. fold d.
    assert (d <= 4 * Z.of_nat SIZE) by (subst d; lia).
    apply Z.opp_le_mono. rewrite Z.opp_involutive.
    apply Z.div_le_lower_bound; lia. }
  destruct (decide (d <= p)) as [Hhigh | Hlowp].
  - exists m, d. split; [done|]. unfold covers. subst d. lia.
  - assert (Hq : 0 <= p / g < Z.of_nat m).
    { split; [apply Z.div_pos; lia|].
      apply Z.div_lt_upper_bound; [lia|]. nia. }
    exists (Z.to_nat (p / g)), (Z.of_nat (Z.to_nat (p / g)) * g).
    split; [apply Hlow; lia|].
    rewrite Z2Nat.id by lia. unfold covers.
    pose proof (Z.div_mod p g ltac:(lia)) as Hdm.
    pose proof (Z.mod_pos_bound p g Hg) as Hmod.
    nia.
Qed.
End GridFacts.

Lemma read_windows_align_with_storage_offsets_witness :
  exists ys tiles_array tiles_folder,
    Grid.tiles_folder_y 618 = Ok ys /\
    Grid.border_grid 618 618 = Ok (tiles_array, tiles_folder) /\
    length tiles_array = length ys /\ length tiles_folder = length ys /\
    (2 <= length ys)%nat /\
    (forall j y, ys !! j = Some y ->
       exists read store,
         tiles_array !! j = Some read /\ tiles_folder !! j = Some store /\
         Grid.storage_span store = (y, Z.of_nat SIZE + 7)%Z /\
         Grid.strip_margin (length ys) j read = (y, Z.of_nat SIZE)) /\
    ys !! 0%nat = Some 0%Z /\
    ys !! (length ys - 1)%nat = Some (618 - Z.of_nat SIZE)%Z /\
    (forall j y y', ys !! j = Some y -> ys !! S j = Some y' ->
       (y < y' <= y + Grid.gap_y 618)%Z /\
       ((Grid.gap_y 618 < Z.of_nat SIZE)%Z ->
        Grid.covers y (Z.of_nat SIZE) y' /\ Grid.covers y' (Z.of_nat SIZE) y')) /\
    ((618 <= 5 * Z.of_nat SIZE)%Z ->
     forall p, (0 <= p < 618)%Z ->
       exists j y, ys !! j = Some y /\ Grid.covers y (Z.of_nat SIZE) p).
Proof.
  apply (read_windows_align_with_storage_offsets 618 618). vm_compute. reflexivity.
Defined.

(** C7 as stated fails on a tile of 618 rows: the first read window without
    its trailing margin is 168 long where the storage row records 175, and
    offset 113 lies in the first two storage windows, whether they are taken
    175 long as recorded or 168 long as written. *)
Lemma storage_windows_overlap_at_618 :
  exists tiles_array tiles_folder read0 store0 store1,
    Grid.border_grid 618 618 = Ok (tiles_array, tiles_folder) /\
    tiles_array !! 0%nat = Some read0 /\
    tiles_folder !! 0%nat = Some store0 /\
    tiles_folder !! 1%nat = Some store1 /\
    Grid.strip_margin (length tiles_array) 0 read0 <> Grid.storage_span store0 /\
    Grid.covers (fst (Grid.storage_span store0)) (snd (Grid.storage_span store0)) 113 /\
    Grid.covers (fst (Grid.storage_span store1)) (snd (Grid.storage_span store1)) 113 /\
    Grid.covers (fst (Grid.storage_span store0)) (Z.of_nat SIZE) 113 /\
    Grid.covers (fst (Grid.storage_span store1)) (Z.of_nat SIZE) 113.
Proof.
  eexists _, _, _, _, _.
  split; [vm_compute; reflexivity|].
  repeat (split; [reflexivity|]).
  split; [vm_compute; discriminate|].
  unfold Grid.covers. vm_compute. repeat split; discriminate.
Qed.

(** ** Subtile loop *)

Section SubtileFacts.
Context {px px1 : Type} (E : collaborators px px1).
Import Subtiles.
Local Open Scope Z_scope.

Lemma iteration_unfold (inp : inputs) (st : loop_state) :
  iteration E inp st =
  match prepare E inp (t st) with
  | Raise e => ([], Raise e)
  | Ok p =>
      (EvRun SuperresolveSession (padded p) :: events (predict_and_save E p (fst (plan p st))),
       match outcome (predict_and_save E p (fst (plan p st))) with
       | Ok _ => Ok (snd (plan p st))
       | Raise e => Raise e
       end)
  end.
Proof.
  unfold iteration, select_and_predict. destruct (prepare E inp (t st)) as [p|e]; [|done].
  simpl. destruct (plan p st) as [m st']. simpl.
  destruct (predict_and_save E p m) as [tr [[]|e]]; simpl; by rewrite ?app_nil_r.
Qed.

Lemma plan_no_data (p : prepared) (st : loop_state) :
  (length (usable p) < 3)%nat \/ composite p = None ->
  plan p st = (NoData, {| t := S (t st); n_median := n_median st;
                          gap_between_years := gap_between_years st |}).
Proof.
  intros Hfew. unfold plan, dates_tile.
  destruct (composite p) as [md|]; [|done].
  destruct Hfew as [Hfew|]; [|done].
  by apply Nat.ltb_lt in Hfew as ->.
Qed.

(** One pass of lines 366-380 in terms of the subtile alone: whether it is
    counted, and the branch it takes outside and inside median mode. *)
Lemma plan_spec (p : prepared) (st : loop_state) :
  plan p st =
  let n_median1 := if counted p then n_median st + 1 else n_median st in
  let restart :=
    counted p && negb (gap_between_years st) && (median_thresh <=? n_median1) in
  (mode_of p (gap_between_years st || restart),
   {| t := if restart then (if (1 <? S (t st))%nat then 0%nat else S (t st)) else S (t st);
      n_median := n_median1;
      gap_between_years := gap_between_years st || restart |}).
Proof.
  unfold plan, counted, mode_of, no_images, dates_tile. cbv zeta.
  destruct (composite p) as [md|]; [|by rewrite orb_false_r].
  destruct (length (usable p) <? 3)%nat; cbn [negb andb]; [by rewrite orb_false_r|].
  reflexivity.
Qed.

Lemma counted_mode (p : prepared) : counted p = true -> mode_of p true = MedianMode.
Proof.
  unfold counted, mode_of, no_images. destruct (composite p); [|done].
  destruct (length (usable p) <? 3)%nat; [done|]. by rewrite orb_true_r.
Qed.

Lemma mode_of_median (p : prepared) : mode_of p true <> TemporalMode.
Proof.
  unfold mode_of. destruct (no_images p); [done|]. by rewrite orb_true_r.
Qed.

Lemma pass_events_without_temporal_call (p : prepared) (m : mode) :
  m <> TemporalMode -> Forall (fun e => is_temporal_call e = false) (pass_events E p m).
Proof.
  intros Hm. unfold pass_events. constructor; [done|].
  unfold predict_and_save, Predictors.predict_gap, Predictors.to_unit_range.
  destruct m; [| |done].
  - repeat constructor.
  - destruct (Qltb 0 (np_sum (tensor p))); [|repeat constructor].
    destruct (floating (tensor p)); [repeat constructor|].
    destruct (qmax_list _) as [m|]; [|repeat constructor].
    destruct (Qltb 1 m); repeat constructor.
Qed.

(** The predictions of a list of subtiles do not raise, by evaluation. *)
Lemma predicts_all (median : bool) (l : list prepared) :
  forallb (fun p => match outcome (predict_and_save E p (mode_of p median)) with
                    | Ok _ => true
                    | Raise _ => false
                    end) l = true ->
  Forall (fun p => predicts E p (mode_of p median)) l.
Proof.
  intros Hall. apply Forall_forall. intros p Hp.
  rewrite forallb_forall in Hall. apply list_elem_of_In, Hall in Hp.
  unfold predicts. by destruct (outcome _) as [[]|].
Qed.

(** A pass whose prediction does not raise. *)
Lemma iteration_completes (inp : inputs) (st : loop_state) (p : prepared) :
  prepare E inp (t st) = Ok p ->
  predicts E p (fst (plan p st)) ->
  iteration E inp st = (pass_events E p (fst (plan p st)), Ok (snd (plan p st))).
Proof.
  intros Hp Hok. rewrite iteration_unfold, Hp. unfold predicts in Hok. by rewrite Hok.
Qed.

Lemma counted_among_cons (p : prepared) (l : list prepared) :
  counted_among (p :: l) = (if counted p then 1 else 0) + counted_among l.
Proof.
  unfold counted_among. rewrite filter_cons.
  destruct (decide (counted p = true)) as [->|Hno].
  - cbn [length]. lia.
  - apply not_true_is_false in Hno. rewrite Hno. lia.
Qed.

Lemma counted_among_app (l1 l2 : list prepared) :
  counted_among (l1 ++ l2) = counted_among l1 + counted_among l2.
Proof.
  unfold counted_among. rewrite filter_app, length_app. lia.
Qed.

Lemma counted_among_nonneg (l : list prepared) : 0 <= counted_among l.
Proof. unfold counted_among. lia. Qed.

Lemma counted_among_length (l : list prepared) : counted_among l <= Z.of_nat (length l).
Proof. unfold counted_among. pose proof (length_filter (fun p => counted p = true) l). lia. Qed.

Lemma counted_among_take_S (l : list prepared) (i : nat) (p : prepared) :
  l !! i = Some p ->
  counted_among (take (S i) l)
  = if counted p then counted_among (take i l) + 1 else counted_among (take i l).
Proof.
  intros Hp. rewrite (take_S_r l i p Hp), counted_among_app, counted_among_cons.
  change (counted_among []) with 0. destruct (counted p); lia.
Qed.

Lemma counted_among_take_le (l : list prepared) (i k : nat) :
  (i <= k)%nat -> counted_among (take i l) <= counted_among (take k l).
Proof.
  intros Hik. rewrite <- (take_drop i (take k l)), counted_among_app.
  rewrite take_take. replace (Nat.min i k) with i by lia.
  pose proof (counted_among_nonneg (drop i (take k l))). lia.
Qed.

(** *** The loop over a tile whose subtiles all prepare *)

Section Sweeps.
Variable inp : inputs (px := px) (px1 := px1).
Variable ps : list prepared.
Hypothesis Hps : prepare_all E inp = map Ok ps.

Lemma prepared_length : length ps = length (tiles_folder inp).
Proof using Hps.
  apply (f_equal length) in Hps. unfold prepare_all in Hps.
  by rewrite !length_map, length_seq in Hps.
Qed.

Lemma prepared_lookup (i : nat) (p : prepared) :
  ps !! i = Some p -> prepare E inp i = Ok p /\ (i < length (tiles_folder inp))%nat.
Proof using Hps.
  intros Hp. pose proof (lookup_lt_Some _ _ _ Hp) as Hi. rewrite prepared_length in Hi.
  split; [|done].
  apply (f_equal (fun l => l !! i)) in Hps. unfold prepare_all in Hps.
  rewrite !list_lookup_fmap, Hp, lookup_seq_lt in Hps by done.
  cbn in Hps. by injection Hps.
Qed.

(** Once the flag is set, the loop sweeps the remaining subtiles in
    median mode and ends. *)
Lemma sweep_in_median_mode (j : nat) : forall (i fuel : nat) (c : Z),
  (i + j = length (tiles_folder inp))%nat -> (j <= fuel)%nat ->
  Forall (fun p => predicts E p (mode_of p true)) (drop i ps) ->
  subtile_loop E fuel inp {| t := i; n_median := c; gap_between_years := true |}
  = Some (flat_map (fun p => pass_events E p (mode_of p true)) (drop i ps),
          Ok {| t := length (tiles_folder inp);
                n_median := c + counted_among (drop i ps);
                gap_between_years := true |}).
Proof using Hps.
  induction j as [|j IH]; intros i fuel c Hij Hfuel Hok.
  - assert (i = length (tiles_folder inp)) as -> by lia.
    rewrite drop_ge by (rewrite prepared_length; lia).
    change (counted_among []) with 0. rewrite Z.add_0_r.
    destruct fuel; cbn [subtile_loop t]; by rewrite Nat.ltb_irrefl.
  - destruct fuel as [|fuel]; [lia|].
    destruct (lookup_lt_is_Some_2 ps i) as [p Hp]; [rewrite prepared_length; lia|].
    destruct (prepared_lookup i p Hp) as [Hprep Hi].
    rewrite (drop_S ps p i Hp) in *. apply Forall_cons in Hok as [Hokp Hok].
    cbn [subtile_loop t]. apply Nat.ltb_lt in Hi as Hlt. rewrite Hlt.
    set (st := {| t := i; n_median := c; gap_between_years := true |}).
    assert (Hplan : plan p st =
              (mode_of p true,
               {| t := S i; n_median := if counted p then c + 1 else c;
                  gap_between_years := true |})).
    { rewrite plan_spec. cbv zeta. cbn [gap_between_years n_median t st].
      by rewrite andb_false_r. }
    rewrite (iteration_completes inp st p) by (by rewrite ?Hplan).
    rewrite Hplan. cbn [fst snd].
    rewrite (IH (S i) fuel) by (done || lia).
    cbn [flat_map]. rewrite counted_among_cons.
    replace ((if counted p then c + 1 else c) + counted_among (drop (S i) ps))
      with (c + ((if counted p then 1 else 0) + counted_among (drop (S i) ps)))
      by (destruct (counted p); lia).
    reflexivity.
Qed.

(** A tile with fewer than five counted subtiles is swept once, every
    subtile in the branch it takes outside median mode. *)
Lemma sweep_without_switch (j : nat) : forall (i fuel : nat),
  counted_among ps < median_thresh ->
  (i + j = length (tiles_folder inp))%nat -> (j <= fuel)%nat ->
  Forall (fun p => predicts E p (mode_of p false)) (drop i ps) ->
  subtile_loop E fuel inp
    {| t := i; n_median := counted_among (take i ps); gap_between_years := false |}
  = Some (flat_map (fun p => pass_events E p (mode_of p false)) (drop i ps),
          Ok {| t := length (tiles_folder inp);
                n_median := counted_among ps;
                gap_between_years := false |}).
Proof using Hps.
  induction j as [|j IH]; intros i fuel Hlow Hij Hfuel Hok.
  - assert (i = length (tiles_folder inp)) as -> by lia.
    rewrite drop_ge, take_ge by (rewrite prepared_length; lia).
    destruct fuel; cbn [subtile_loop t]; by rewrite Nat.ltb_irrefl.
  - destruct fuel as [|fuel]; [lia|].
    destruct (lookup_lt_is_Some_2 ps i) as [p Hp]; [rewrite prepared_length; lia|].
    destruct (prepared_lookup i p Hp) as [Hprep Hi].
    rewrite (drop_S ps p i Hp) in *. apply Forall_cons in Hok as [Hokp Hok].
    cbn [subtile_loop t]. apply Nat.ltb_lt in Hi as Hlt. rewrite Hlt.
    set (st := {| t := i; n_median := counted_among (take i ps);
                  gap_between_years := false |}).
    assert (Hbelow : counted_among (take (S i) ps) < median_thresh).
    { pose proof (counted_among_take_le ps (S i) (length ps)) as Hle.
      rewrite (take_ge ps (length ps)) in Hle by lia.
      pose proof (lookup_lt_Some _ _ _ Hp). lia. }
    assert (Hplan : plan p st =
              (mode_of p false,
               {| t := S i; n_median := counted_among (take (S i) ps);
                  gap_between_years := false |})).
    { rewrite plan_spec. cbv zeta. cbn [gap_between_years n_median t st].
      rewrite <- (counted_among_take_S ps i p Hp).
      assert ((median_thresh <=? counted_among (take (S i) ps)) = false) as ->
        by (apply Z.leb_gt; lia).
      by rewrite andb_false_r. }
    rewrite (iteration_completes inp st p) by (by rewrite ?Hplan).
    rewrite Hplan. cbn [fst snd].
    rewrite (IH (S i) fuel) by (done || lia).
    reflexivity.
Qed.

(** A tile whose subtile [k] is the fifth counted one: the subtiles before
    it are predicted outside median mode, subtile [k] by the median model,
    and then every subtile from the first on in median mode. *)
Lemma sweep_with_switch (k : nat) (pk : prepared) (j : nat) : forall (i fuel : nat),
  ps !! k = Some pk -> counted pk = true ->
  counted_among (take k ps) = median_thresh - 1 ->
  (i + j = k)%nat -> (j + 1 + length (tiles_folder inp) <= fuel)%nat ->
  Forall (fun p => predicts E p (mode_of p false)) (take j (drop i ps)) ->
  Forall (fun p => predicts E p (mode_of p true)) ps ->
  subtile_loop E fuel inp
    {| t := i; n_median := counted_among (take i ps); gap_between_years := false |}
  = Some (flat_map (fun p => pass_events E p (mode_of p false)) (take j (drop i ps))
          ++ pass_events E pk MedianMode
          ++ flat_map (fun p => pass_events E p (mode_of p true)) ps,
          Ok {| t := length (tiles_folder inp);
                n_median := median_thresh + counted_among ps;
                gap_between_years := true |}).
Proof using Hps.
  induction j as [|j IH]; intros i fuel Hk Hcounted Hfour Hij Hfuel Hfirst Hsecond.
  - assert (i = k) as -> by lia.
    destruct fuel as [|fuel]; [lia|].
    destruct (prepared_lookup k pk Hk) as [Hprep Hi].
    cbn [subtile_loop t]. apply Nat.ltb_lt in Hi as Hlt. rewrite Hlt.
    set (st := {| t := k; n_median := counted_among (take k ps);
                  gap_between_years := false |}).
    assert (Hk4 : (4 <= k)%nat).
    { pose proof (counted_among_length (take k ps)) as Hle.
      rewrite length_take in Hle. unfold median_thresh in *. lia. }
    assert (Hplan : plan pk st =
              (MedianMode,
               {| t := 0; n_median := median_thresh; gap_between_years := true |})).
    { rewrite plan_spec. cbv zeta. cbn [gap_between_years n_median t st].
      rewrite Hcounted, Hfour. cbn [andb negb orb].
      replace (median_thresh - 1 + 1) with median_thresh by lia.
      rewrite Z.leb_refl, (counted_mode pk Hcounted).
      assert ((1 <? S k)%nat = true) as -> by (apply Nat.ltb_lt; lia). done. }
    assert (Hokk : predicts E pk MedianMode).
    { rewrite <- (counted_mode pk Hcounted).
      rewrite Forall_forall in Hsecond. apply Hsecond. by eapply list_elem_of_lookup_2. }
    rewrite (iteration_completes inp st pk) by (by rewrite ?Hplan).
    rewrite Hplan. cbn [fst snd].
    rewrite (sweep_in_median_mode (length (tiles_folder inp)) 0 fuel)
      by (done || lia || by rewrite drop_0).
    rewrite drop_0. cbn [take flat_map app]. reflexivity.
  - destruct fuel as [|fuel]; [lia|].
    assert (Hik : (i < k)%nat) by lia.
    pose proof (lookup_lt_Some _ _ _ Hk) as Hklen.
    destruct (lookup_lt_is_Some_2 ps i) as [p Hp]; [lia|].
    destruct (prepared_lookup i p Hp) as [Hprep Hi].
    rewrite (drop_S ps p i Hp) in *. cbn [take] in *.
    apply Forall_cons in Hfirst as [Hokp Hfirst].
    cbn [subtile_loop t]. apply Nat.ltb_lt in Hi as Hlt. rewrite Hlt.
    set (st := {| t := i; n_median := counted_among (take i ps);
                  gap_between_years := false |}).
    assert (Hbelow : counted_among (take (S i) ps) < median_thresh).
    { pose proof (counted_among_take_le ps (S i) k). lia. }
    assert (Hplan : plan p st =
              (mode_of p false,
               {| t := S i; n_median := counted_among (take (S i) ps);
                  gap_between_years := false |})).
    { rewrite plan_spec. cbv zeta. cbn [gap_between_years n_median t st].
      rewrite <- (counted_among_take_S ps i p Hp).
      assert ((median_thresh <=? counted_among (take (S i) ps)) = false) as ->
        by (apply Z.leb_gt; lia).
      by rewrite andb_false_r. }
    rewrite (iteration_completes inp st p) by (by rewrite ?Hplan).
    rewrite Hplan. cbn [fst snd].
    rewrite (IH (S i) fuel) by (done || lia).
    cbn [flat_map]. by rewrite <- !app_assoc.
Qed.
End Sweeps.

(** C8.  A subtile with fewer than 3 usable dates, or whose compositing
    raised, is saved twice as the all-255 patch of [SIZE] x [SIZE]; the pass
    runs the super-resolution session only, calls neither predictor, and
    leaves the count and the mode as they were, whatever they were. *)
Theorem few_dates_save_no_data_patch (inp : inputs) (st : loop_state) (p : prepared) :
  prepare E inp (t st) = Ok p ->
  (length (usable p) < 3)%nat \/ composite p = None ->
  iteration E inp st =
    ([EvRun SuperresolveSession (padded p);
      EvSave (OwnPatch (folder_y p) (folder_x p)) (np_full SIZE SIZE 255%Q);
      EvSave (NeighbourLeftPatch (folder_x p)) (np_full SIZE SIZE 255%Q)],
     Ok {| t := S (t st); n_median := n_median st;
           gap_between_years := gap_between_years st |}).
Proof.
  intros Hp Hfew. rewrite iteration_unfold, Hp, (plan_no_data p st Hfew). done.
Qed.

End SubtileFacts.

Lemma few_dates_save_no_data_patch_witness :
  Subtiles.iteration Examples.demo_env Examples.demo_inputs Examples.at_window_7 =
    ([EvRun SuperresolveSession (Subtiles.padded Examples.prepared_7);
      EvSave (OwnPatch (Subtiles.folder_y Examples.prepared_7)
                       (Subtiles.folder_x Examples.prepared_7)) (np_full SIZE SIZE 255%Q);
      EvSave (NeighbourLeftPatch (Subtiles.folder_x Examples.prepared_7))
             (np_full SIZE SIZE 255%Q)],
     Ok {| Subtiles.t := 8; Subtiles.n_median := 3; Subtiles.gap_between_years := false |}).
Proof.
  apply (few_dates_save_no_data_patch Examples.demo_env Examples.demo_inputs
           Examples.at_window_7 Examples.prepared_7).
  - vm_compute. reflexivity.
  - left. vm_compute. lia.
Defined.

(** The demo strip: its seventh window is the fifth counted one, so the
    first six windows are predicted once outside median mode, the seventh by
    the median model, and all nine again in median mode; the run ends after
    the ninth window with the flag set. *)
Example demo_run_ends_in_median_mode :
  outcome <$> Subtiles.process_subtiles Examples.demo_env 18 Examples.demo_inputs
  = Some (Ok {| Subtiles.t := 9; Subtiles.n_median := 10;
                Subtiles.gap_between_years := true |}).
Proof. vm_compute. reflexivity. Qed.


(** ** Border orchestrator *)

Section BorderFacts.
Context {px px1 : Type} (E : collaborators px px1).
Import Border.

Lemma border_differs_spec (right_mean left_mean : option Q) :
  border_differs right_mean left_mean = true <->
  exists r l, right_mean = Some r /\ left_mean = Some l /\ (15 < Qabs (r - l))%Q.
Proof.
  unfold border_differs, fgt, fabs, fsub.
  destruct right_mean as [r|], left_mean as [l|]; simpl;
    try (split; [done | intros (? & ? & ? & ? & ?); done]).
  rewrite Qltb_lt. split.
  - intros H. by exists r, l.
  - intros (r' & l' & [= <-] & [= <-] & H). done.
Qed.

End BorderFacts.


(** ** Mosaic reconciler: the output folder and the examples *)

Section MosaicFolder.
Import Mosaic.

Lemma listdir_named_x (d : out_folder) (x : nat) :
  listdir d (named_x x) = [] \/ (XDir x, listdir d (named_x x)) ∈ d.
Proof.
  induction d as [|[n files] d IH]; simpl; [by left|].
  destruct (named_x x n) eqn:Hn.
  - right. destruct n as [x'| |]; try done. simpl in Hn.
    apply Nat.eqb_eq in Hn as <-. by left.
  - destruct IH as [IH | IH]; [by left | right; by right].
Qed.

Lemma count_borders_unassigned (d : out_folder) (xs : list nat) (n_border : nat) :
  (forall x files, (XDir x, files) ∈ d -> (length (interior_ys files) <= 1)%nat) ->
  snd (count_borders d xs n_border None) = None.
Proof.
  intros Hfew. revert n_border. induction xs as [|x xs IH]; intros n_border; simpl; [done|].
  assert ((1 <? length (interior_ys (listdir d (named_x x))))%nat = false) as ->; [|apply IH].
  apply Nat.ltb_ge. destruct (listdir_named_x d x) as [-> | Hin]; [simpl; lia|].
  by apply (Hfew x).
Qed.

Lemma no_npy_no_interior (files : list (file_name * list (list Q))) :
  filter (fun f => is_npy (fst f) = true) files = [] -> interior_ys files = [].
Proof.
  unfold interior_ys, not_ds. induction files as [|[f p] files IH]; [done|].
  rewrite !filter_cons. destruct f; simpl; try done.
Qed.

Lemma count_npy_zero (d : out_folder) (x : nat) (files : list (file_name * list (list Q))) :
  count_npy d = 0%nat -> (XDir x, files) ∈ d -> interior_ys files = [].
Proof.
  induction d as [|[n fs] d IH]; simpl; intros Hzero Hin; [by apply elem_of_nil in Hin|].
  apply elem_of_cons in Hin as [[= <- <-] | Hin].
  - simpl in Hzero. apply Nat.eq_add_0 in Hzero as [Hfiles _].
    apply length_zero_iff_nil in Hfiles. by apply no_npy_no_interior.
  - apply IH; [|done]. destruct (is_ds_dir n); lia.
Qed.

(** C9, as the code has it.  The function raises when no interior subfolder
    of the output folder has an entry, and more generally when no interior
    subfolder holds two or more interior patches, which includes a folder
    without any patch file. *)
Theorem folder_without_stacked_patches_raises
    (fspecial_gauss : nat -> Z -> list (list Q)) (d : out_folder) :
  (x_tiles_of d = [] -> recreate_resegmented_tifs fspecial_gauss d = Raise ValueError) /\
  ((forall x files, (XDir x, files) ∈ d -> (length (interior_ys files) <= 1)%nat) ->
   exists e, recreate_resegmented_tifs fspecial_gauss d = Raise e) /\
  (count_npy d = 0%nat -> exists e, recreate_resegmented_tifs fspecial_gauss d = Raise e).
Proof.
  assert (Hfew : (forall x files, (XDir x, files) ∈ d ->
                    (length (interior_ys files) <= 1)%nat) ->
                 exists e, recreate_resegmented_tifs fspecial_gauss d = Raise e).
  { intros Hfew. unfold recreate_resegmented_tifs, reconcile, load_stacks, enumerate.
    destruct (np_max (x_tiles_of d)) as [mx|e]; [|by exists e].
    simpl. pose proof (count_borders_unassigned d (x_tiles_of d) 0 Hfew) as Hnone.
    destruct (count_borders d (x_tiles_of d) 0 None) as [n_border max_y].
    simpl in Hnone. subst max_y. by exists NameError. }
  split; [|split; [exact Hfew|]].
  - intros Hnone. unfold recreate_resegmented_tifs, reconcile, load_stacks, enumerate.
    by rewrite Hnone.
  - intros Hzero. apply Hfew. intros x files Hin.
    rewrite (count_npy_zero d x files Hzero Hin). simpl. lia.
Qed.
End MosaicFolder.

Lemma folder_without_stacked_patches_raises_witness :
  Mosaic.recreate_resegmented_tifs Examples.flat_kernel Examples.right_only_folder
  = Raise ValueError.
Proof.
  apply (proj1 (folder_without_stacked_patches_raises
                  Examples.flat_kernel Examples.right_only_folder)).
  reflexivity.
Defined.


(** ** Mosaic reconciler: fusion and cleanup, pixel by pixel *)

Section Pixels.
Import Mosaic.

Lemma pix_grid_zip {A B C} (f : A -> B -> C) (a : list (list A)) (b : list (list B))
    (x y : nat) :
  pix (grid_zip f a b) x y =
  match pix a x y, pix b x y with
  | Some u, Some v => Some (f u v)
  | _, _ => None
  end.
Proof.
  unfold pix, grid_zip. rewrite lookup_zip_with.
  destruct (a !! x) as [ra|]; simpl; [|done].
  destruct (b !! x) as [rb|]; simpl; [|by destruct (ra !! y)].
  rewrite lookup_zip_with. destruct (ra !! y); simpl; [|done]. by destruct (rb !! y).
Qed.

Lemma pix_map {A B} (f : A -> B) (g : list (list A)) (x y : nat) :
  pix (map (map f) g) x y = f <$> pix g x y.
Proof.
  unfold pix. rewrite list_lookup_fmap.
  destruct (g !! x); simpl; [apply list_lookup_fmap | done].
Qed.

Lemma pix_np_full {A} (h w : nat) (v : A) (x y : nat) :
  (x < h)%nat -> (y < w)%nat -> pix (np_full h w v) x y = Some v.
Proof.
  intros Hx Hy. unfold pix, np_full.
  rewrite lookup_replicate_2 by done. by apply lookup_replicate_2.
Qed.

Lemma column_at_Forall2 {A} (stack : list (list (list A))) (x y : nat) (vals : list A) :
  column_at stack x y = Some vals <->
  Forall2 (fun layer v => pix layer x y = Some v) stack vals.
Proof. apply mapM_Some. Qed.

Lemma pix_fold_left {A B} (f : B -> A -> B) (stack : list (list (list A))) (vals : list A)
    (init : list (list B)) (a : B) (x y : nat) :
  Forall2 (fun layer v => pix layer x y = Some v) stack vals ->
  pix init x y = Some a ->
  pix (fold_left (grid_zip f) stack init) x y = Some (fold_left f vals a).
Proof.
  intros Hcol. revert init a.
  induction Hcol as [|layer v stack vals Hv Hcol IH]; intros init a Hinit; simpl; [done|].
  apply IH. by rewrite pix_grid_zip, Hinit, Hv.
Qed.

Lemma Forall2_zip_with_pix {A B C} (f : A -> B -> C)
    (sa : list (list (list A))) (sb : list (list (list B)))
    (va : list A) (vb : list B) (x y : nat) :
  Forall2 (fun layer v => pix layer x y = Some v) sa va ->
  Forall2 (fun layer v => pix layer x y = Some v) sb vb ->
  Forall2 (fun layer v => pix layer x y = Some v)
          (zip_with (grid_zip f) sa sb) (zip_with f va vb).
Proof.
  intros Ha. revert sb vb.
  induction Ha as [|la a sa va Hla Ha IH]; intros sb vb Hb; simpl; [constructor|].
  destruct Hb as [|lb b sb vb Hlb Hb]; simpl; constructor; [|by apply IH].
  by rewrite pix_grid_zip, Hla, Hlb.
Qed.

Lemma Forall2_map_pix {A B} (f : A -> B) (stack : list (list (list A))) (vals : list A)
    (x y : nat) :
  Forall2 (fun layer v => pix layer x y = Some v) stack vals ->
  Forall2 (fun layer v => pix layer x y = Some v) (map (map (map f)) stack) (map f vals).
Proof.
  induction 1 as [|layer v stack vals Hv Hcol IH]; simpl; constructor; [|done].
  by rewrite pix_map, Hv.
Qed.

(** *** Sums of rationals *)

Lemma qsum_foldr (l : list Q) : (qsum l == foldr Qplus 0 l)%Q.
Proof.
  induction l as [|a l IH]; simpl; [reflexivity|].
  rewrite Qred_correct, IH. reflexivity.
Qed.

Lemma fold_left_Qplus (l : list Q) (a : Q) :
  (fold_left Qplus l a == a + foldr Qplus 0 l)%Q.
Proof.
  revert a. induction l as [|b l IH]; intros a; simpl.
  - ring.
  - rewrite IH. ring.
Qed.

Lemma foldr_Qplus_nonneg (l : list Q) :
  Forall (fun q => (0 <= q)%Q) l -> (0 <= foldr Qplus 0 l)%Q.
Proof.
  induction 1 as [|a l Ha Hl IH]; simpl; [apply Qle_refl|].
  replace 0%Q with (0 + 0)%Q by reflexivity. by apply Qplus_le_compat.
Qed.

Lemma foldr_Qplus_pos (l : list Q) :
  Forall (fun q => (0 <= q)%Q) l -> Exists (fun q => (0 < q)%Q) l ->
  (0 < foldr Qplus 0 l)%Q.
Proof.
  intros Hall Hex. induction Hex as [a l Ha | a l Hex IH]; simpl;
    apply Forall_cons in Hall as [Ha0 Hl].
  - apply Qlt_le_trans with (a + 0)%Q; [by rewrite Qplus_0_r|].
    apply Qplus_le_compat; [apply Qle_refl | by apply foldr_Qplus_nonneg].
  - apply Qlt_le_trans with (0 + foldr Qplus 0 l)%Q; [rewrite Qplus_0_l; by apply IH|].
    apply Qplus_le_compat; [done | apply Qle_refl].
Qed.

Lemma foldr_Qplus_div (l : list Q) (W : Q) :
  (foldr Qplus 0 (map (fun q => q / W) l) == foldr Qplus 0 l / W)%Q.
Proof.
  induction l as [|a l IH]; simpl.
  - unfold Qdiv. ring.
  - rewrite IH. unfold Qdiv. ring.
Qed.

Lemma fold_left_fadd_numbers (ws : list Q) (a : Q) :
  fold_left fadd (map Some ws) (Some a) = Some (fold_left Qplus ws a).
Proof. revert a. induction ws as [|w ws IH]; intros a; simpl; [done | apply IH]. Qed.

(** *** Weights *)

Lemma normalize_column (h w : nat) (mults : list (list (list (option Q))))
    (x y : nat) (ms : list (option Q)) :
  (x < h)%nat -> (y < w)%nat ->
  column_at mults x y = Some ms ->
  column_at (normalize h w mults) x y
  = Some (map (fun m => fdiv m (fold_left fadd ms (Some 0%Q))) ms).
Proof.
  intros Hx Hy Hcol. apply column_at_Forall2 in Hcol. apply column_at_Forall2.
  unfold normalize.
  assert (Htotal : pix (sum_layers h w mults) x y = Some (fold_left fadd ms (Some 0%Q))).
  { unfold sum_layers. apply pix_fold_left; [done | by apply pix_np_full]. }
  revert Htotal. generalize (sum_layers h w mults) (fold_left fadd ms (Some 0%Q)).
  intros total T Htotal.
  induction Hcol as [|layer m stack vals Hm Hcol IH]; simpl; constructor; [|done].
  by rewrite pix_grid_zip, Hm, Htotal.
Qed.

Lemma normalized_weights_sum_to_one (h w : nat) (mults : list (list (list (option Q))))
    (x y : nat) (ws : list Q) :
  (x < h)%nat -> (y < w)%nat ->
  column_at mults x y = Some (map Some ws) ->
  Forall (fun q => (0 <= q)%Q) ws ->
  Exists (fun q => (0 < q)%Q) ws ->
  exists ns, column_at (normalize h w mults) x y = Some (map Some ns) /\ (qsum ns == 1)%Q.
Proof.
  intros Hx Hy Hcol Hnonneg Hpos.
  pose proof (normalize_column h w mults x y _ Hx Hy Hcol) as Hnorm.
  rewrite fold_left_fadd_numbers in Hnorm.
  set (W := fold_left Qplus ws 0%Q) in *.
  assert (HW : (0 < W)%Q).
  { unfold W. rewrite fold_left_Qplus, Qplus_0_l. by apply foldr_Qplus_pos. }
  assert (Hnz : Qeq_bool W 0 = false).
  { apply not_true_iff_false. rewrite Qeq_bool_iff. intros Heq.
    rewrite Heq in HW. by apply Qlt_irrefl in HW. }
  exists (map (fun q => q / W)%Q ws). split.
  - rewrite Hnorm. f_equal. rewrite !map_map. apply map_ext. intros q. simpl.
    by rewrite Hnz.
  - rewrite qsum_foldr, foldr_Qplus_div.
    assert (Hsame : (foldr Qplus 0 ws == W)%Q).
    { unfold W. rewrite fold_left_Qplus. ring. }
    rewrite Hsame. apply Qmult_inv_r. intros Heq.
    rewrite Heq in HW. by apply Qlt_irrefl in HW.
Qed.

(** *** Pixels without a contributing patch *)

Lemma count_nan_all (vals : list (option Q)) (n : nat) :
  Forall (fun v => v = None) vals ->
  fold_left (fun (n : nat) (v : option Q) => match v with None => S n | Some _ => n end)
            vals n
  = (n + length vals)%nat.
Proof.
  intros Hall. revert n. induction Hall as [|v vals -> Hall IH]; intros n; simpl; [lia|].
  rewrite IH. lia.
Qed.

Lemma nansum_is_number (vals : list (option Q)) (a : Q) :
  exists q, fold_left nan_add vals (Some a) = Some q.
Proof.
  revert a. induction vals as [|v vals IH]; intros a; simpl; [by exists a|].
  destruct v; apply IH.
Qed.

Lemma fuse_snd (h w : nat) (s : stacks) : snd (fuse h w s) = normalize h w (mults s).
Proof. reflexivity. Qed.

Lemma fused_pixel_without_contribution (h w : nat) (s : stacks) (x y : nat)
    (ps ms : list (option Q)) :
  (x < h)%nat -> (y < w)%nat ->
  column_at (predictions s) x y = Some ps ->
  column_at (mults s) x y = Some ms ->
  Forall (fun p => clip_invalid p = None) ps ->
  pix (fst (fuse h w s)) x y = Some 255%Z.
Proof.
  intros Hx Hy Hps Hms Hnone.
  pose proof (normalize_column h w (mults s) x y ms Hx Hy Hms) as Hnorm.
  apply column_at_Forall2 in Hps, Hnorm.
  pose proof (Forall2_map_pix clip_invalid _ _ x y Hps) as Hclipped.
  unfold fuse. simpl.
  rewrite !pix_map, pix_grid_zip.
  set (preds := map (map (map clip_invalid)) (predictions s)) in *.
  assert (Hout : pix (count_nan h w preds) x y = Some (length preds)).
  { unfold count_nan.
    rewrite (pix_fold_left _ _ _ _ 0%nat x y Hclipped) by (by apply pix_np_full).
    rewrite count_nan_all by (by apply Forall_fmap).
    f_equal. simpl. apply Forall2_length in Hclipped. by rewrite Hclipped. }
  pose proof (Forall2_zip_with_pix fmul _ _ _ _ x y Hclipped Hnorm) as Hprod.
  destruct (nansum_is_number
              (zip_with fmul (map clip_invalid ps)
                 (map (fun m => fdiv m (fold_left fadd ms (Some 0%Q))) ms)) 0%Q)
    as [q Hq].
  unfold nansum_layers.
  rewrite (pix_fold_left _ _ _ _ (Some 0%Q) x y Hprod) by (by apply pix_np_full).
  rewrite Hq, Hout. simpl. by rewrite Nat.eqb_refl.
Qed.

(** *** The cleanup only writes zeros *)

Lemma kept_or_zero_refl (l : list Z) : Forall2 kept_or_zero l l.
Proof. apply Forall2_same_length_lookup. split; [done|]. intros; simplify_eq; by left. Qed.

Lemma kept_or_zero_trans (l1 l2 l3 : list Z) :
  Forall2 kept_or_zero l1 l2 -> Forall2 kept_or_zero l2 l3 -> Forall2 kept_or_zero l1 l3.
Proof.
  intros H12. revert l3. induction H12 as [|a b l1 l2 Hab H12 IH]; intros l3 H23;
    inversion H23 as [|b' c l2' l3' Hbc H23']; subst; constructor; [|by apply IH].
  unfold kept_or_zero in *. destruct Hab, Hbc; subst; auto.
Qed.

Lemma visit_nine (a0 a1 a2 b0 b1 b2 c0 c1 c2 : Z) :
  exists a0' a1' a2' b0' b1' b2' c0' c1' c2',
    visit [a0; a1; a2; b0; b1; b2; c0; c1; c2] = [a0'; a1'; a2'; b0'; b1'; b2'; c0'; c1'; c2'] /\
    Forall2 kept_or_zero [a0; a1; a2; b0; b1; b2; c0; c1; c2]
                         [a0'; a1'; a2'; b0'; b1'; b2'; c0'; c1'; c2'].
Proof.
  unfold visit.
  destruct (speckle _); [|destruct (lonely_peak _)];
    eexists _, _, _, _, _, _, _, _, _; (split; [reflexivity|]);
    repeat (constructor; [unfold kept_or_zero; auto|]); constructor.
Qed.

Lemma scan_band_kept_or_zero (passes : nat) (r0 r1 r2 : list Z) :
  Forall2 kept_or_zero r0 (scan_band passes r0 r1 r2).1.1 /\
  Forall2 kept_or_zero r1 (scan_band passes r0 r1 r2).1.2 /\
  Forall2 kept_or_zero r2 (scan_band passes r0 r1 r2).2.
Proof.
  revert r0 r1 r2. induction passes as [|k IH]; intros r0 r1 r2; simpl;
    [auto using kept_or_zero_refl|].
  destruct r0 as [|a0 [|a1 [|a2 t0]]]; simpl; try (auto using kept_or_zero_refl).
  destruct r1 as [|b0 [|b1 [|b2 t1]]]; simpl; try (auto using kept_or_zero_refl).
  destruct r2 as [|c0 [|c1 [|c2 t2]]]; simpl; try (auto using kept_or_zero_refl).
  destruct (visit_nine a0 a1 a2 b0 b1 b2 c0 c1 c2)
    as (a0' & a1' & a2' & b0' & b1' & b2' & c0' & c1' & c2' & -> & Hv).
  specialize (IH (a1' :: a2' :: t0) (b1' :: b2' :: t1) (c1' :: c2' :: t2)).
  destruct (scan_band k _ _ _) as [[r0' r1'] r2']. simpl in *.
  destruct IH as (H0 & H1 & H2).
  repeat match goal with
         | H : Forall2 _ (_ :: _) (_ :: _) |- _ => apply Forall2_cons in H as [? H]
         end.
  repeat split; (constructor; [done|]);
    (eapply kept_or_zero_trans; [|eassumption]);
    repeat (constructor; [done|]); apply kept_or_zero_refl.
Qed.

Lemma scan_rows_kept_or_zero (passes inner : nat) (g : list (list Z)) :
  Forall2 (Forall2 kept_or_zero) g (scan_rows passes inner g).
Proof.
  revert g. induction passes as [|k IH]; intros g; simpl.
  - apply Forall2_same_length_lookup. split; [done|].
    intros; simplify_eq; apply kept_or_zero_refl.
  - destruct g as [|r0 [|r1 [|r2 rest]]];
      try (apply Forall2_same_length_lookup; split; [done|];
           intros; simplify_eq; apply kept_or_zero_refl).
    destruct (scan_band_kept_or_zero inner r0 r1 r2) as (H0 & H1 & H2).
    destruct (scan_band inner r0 r1 r2) as [[r0' r1'] r2']. simpl in *.
    constructor; [done|].
    specialize (IH (r1' :: r2' :: rest)).
    destruct (scan_rows k inner (r1' :: r2' :: rest)) as [|q1 [|q2 qs]];
      inversion IH as [|? ? ? ? Hq1 IH']; subst.
    { inversion IH'. }
    inversion IH' as [|? ? ? ? Hq2 IH'']; subst.
    constructor; [by eapply kept_or_zero_trans|].
    constructor; [by eapply kept_or_zero_trans|]. done.
Qed.

Lemma cleanup_pixel (g : list (list Z)) (x y : nat) (v : Z) :
  pix g x y = Some v ->
  pix (cleanup g) x y = Some v \/ pix (cleanup g) x y = Some 0%Z.
Proof.
  unfold cleanup. intros Hv.
  pose proof (scan_rows_kept_or_zero (length g - 3) (width g - 3) g) as Hrows.
  unfold pix in *.
  destruct (g !! x) as [row|] eqn:Hrow; [|done].
  destruct (Forall2_lookup_l _ _ _ _ _ Hrows Hrow) as (row' & -> & Hcells).
  destruct (Forall2_lookup_l _ _ _ _ _ Hcells Hv) as (v' & -> & [-> | ->]); auto.
Qed.

Lemma postprocess_no_data_pixel (g : list (list Z)) (x y : nat) :
  pix g x y = Some 255%Z ->
  pix (postprocess g) x y = Some 255%Z \/ pix (postprocess g) x y = Some 0%Z.
Proof.
  intros Hv. unfold postprocess. rewrite pix_map.
  destruct (cleanup_pixel g x y 255 Hv) as [-> | ->]; auto.
Qed.

Lemma no_contribution_column (s : stacks) (x y : nat) (ps : list (option Q)) :
  column_at (predictions s) x y = Some ps ->
  contributing s x y = 0%nat ->
  Forall (fun p => clip_invalid p = None) ps.
Proof.
  unfold contributing. intros Hcol. apply column_at_Forall2 in Hcol.
  induction Hcol as [|layer p stack vals Hp Hcol IH]; [constructor|].
  rewrite filter_cons.
  destruct (decide (contributes x y layer = true)) as [Hc|Hc]; simpl; [done|].
  intros Hzero. constructor; [| by apply IH].
  unfold contributes in Hc. rewrite Hp in Hc.
  destruct (clip_invalid p); [by destruct Hc | done].
Qed.

End Pixels.

(** On the two-pixel stacks: the weights 1 and 3 become 1/4 and 3/4 and the
    fused value is 55; the pixel without a number is 255. *)
Example two_pixel_fusion :
  Mosaic.fuse 1 2 Examples.two_pixel_stacks =
  ([[55; 255]]%Z,
   [[[Some (1 / 4)%Q; None]]; [[Some (3 / 4)%Q; None]]]).
Proof. reflexivity. Qed.

(** ** Mosaic reconciler: the outlier rejection loop *)

Section Rejection.
Import Mosaic.

Lemma is_outlier_reshapable (v : verdicts) (range layer : list (list (option Q))) :
  reshapable range layer = true -> exists b, is_outlier v range layer = Ok b.
Proof.
  unfold reshapable, is_outlier, block_means. cbv zeta.
  destruct (0 <? length (range_on range layer))%nat eqn:Hpos; [|by eexists].
  intros Hshape. apply orb_true_iff in Hshape as [Hzero | Hfull].
  - apply Nat.eqb_eq in Hzero. apply Nat.ltb_lt in Hpos. lia.
  - rewrite Hfull. by eexists.
Qed.

Lemma is_outlier_true (v : verdicts) (range layer : list (list (option Q)))
    (means : list (list Q)) :
  block_means (range_on range layer) = Ok means ->
  (2 <= count_above 50 means)%nat ->
  problem_tile v layer = true ->
  is_outlier v range layer = Ok true.
Proof.
  intros Hmeans Hcount Hproblem. unfold is_outlier. cbv zeta. rewrite Hmeans.
  assert (Hpos : (0 <? length (range_on range layer))%nat = true).
  { unfold block_means in Hmeans.
    destruct (length (range_on range layer) =? 3 * 56 * 3 * 56)%nat eqn:Hlen; [|done].
    apply Nat.eqb_eq in Hlen. apply Nat.ltb_lt. rewrite Hlen. lia. }
  rewrite Hpos. cbn [rbind]. rewrite Hproblem.
  apply Nat.leb_le in Hcount. by rewrite Hcount.
Qed.

(** One pass of the loop changes the patch at its own position only. *)
Lemma reject_one_spec (v : verdicts) (range : list (list (option Q))) (i : nat) (s : stacks)
    (layer : list (list (option Q))) (b : bool) :
  predictions s !! i = Some layer ->
  is_outlier v range layer = Ok b ->
  exists s1, reject_one v range i s = Ok s1 /\
    (forall j, j <> i ->
       predictions s1 !! j = predictions s !! j /\ mults s1 !! j = mults s !! j) /\
    predictions s1 !! i = Some (if b then blank_layer None layer else layer) /\
    mults s1 !! i = (if b then blank_layer (Some 0%Q) <$> mults s !! i else mults s !! i).
Proof.
  intros Hlayer Hout. unfold reject_one. rewrite Hlayer, Hout. cbn [rbind].
  destruct b; eexists; (split; [reflexivity|]); cbn [predictions mults].
  - split; [|split].
    + intros j Hj. by rewrite list_lookup_insert_ne, list_lookup_alter_ne.
    + apply list_lookup_insert_eq. by eapply lookup_lt_Some.
    + apply list_lookup_alter_eq.
  - by repeat split.
Qed.

Lemma reject_loop_spec (v : verdicts) (range : list (list (option Q))) (idxs : list nat) :
  forall s : stacks,
  NoDup idxs ->
  (forall i, i ∈ idxs ->
     exists layer, predictions s !! i = Some layer /\ reshapable range layer = true) ->
  exists s', reject_loop v range idxs s = Ok s' /\
    (forall j, j ∉ idxs ->
       predictions s' !! j = predictions s !! j /\ mults s' !! j = mults s !! j) /\
    (forall i layer, i ∈ idxs -> predictions s !! i = Some layer ->
       is_outlier v range layer = Ok true ->
       predictions s' !! i = Some (blank_layer None layer) /\
       mults s' !! i = blank_layer (Some 0%Q) <$> mults s !! i).
Proof.
  induction idxs as [|i0 rest IH]; intros s Hnodup Hshape.
  - exists s. split; [done|]. split; [done|].
    intros i layer Hin. by apply elem_of_nil in Hin.
  - apply NoDup_cons in Hnodup as [Hfresh Hnodup].
    destruct (Hshape i0) as (layer0 & Hlayer0 & Hshape0); [by left|].
    destruct (is_outlier_reshapable v range layer0 Hshape0) as [b0 Hout0].
    destruct (reject_one_spec v range i0 s layer0 b0 Hlayer0 Hout0)
      as (s1 & Hstep & Hother & Hpred & Hmult).
    destruct (IH s1 Hnodup) as (s' & Hloop & Hkeep & Hdrop).
    { intros i Hin. assert (Hne : i <> i0) by (intros ->; done).
      destruct (Hother i Hne) as [-> _]. apply Hshape. by right. }
    exists s'. split; [cbn [reject_loop]; by rewrite Hstep|]. split.
    + intros j Hj. apply not_elem_of_cons in Hj as [Hne Hj].
      destruct (Hkeep j Hj) as [-> ->]. by apply Hother.
    + intros i layer Hin Hlayer Hout. apply elem_of_cons in Hin as [-> | Hin].
      * rewrite Hlayer in Hlayer0. injection Hlayer0 as <-.
        rewrite Hout in Hout0. injection Hout0 as <-.
        destruct (Hkeep i0 Hfresh) as [-> ->]. by rewrite Hpred, Hmult.
      * assert (Hne : i <> i0) by (intros ->; done).
        destruct (Hother i Hne) as [Hp Hm].
        destruct (Hdrop i layer Hin) as [Hp' Hm']; [by rewrite Hp | done |].
        by rewrite Hp', Hm', Hm.
Qed.

Lemma blank_layer_contributes_nothing (layer : list (list (option Q))) (x y : nat) :
  contributes x y (blank_layer None layer) = false.
Proof.
  unfold contributes, blank_layer. rewrite pix_map.
  by destruct (pix layer x y).
Qed.

(** C3, as the code has it.  The loop of line 657 runs over the patches
    below position [n - n_border - n_right], the interior ones.  When the
    reshape goes through for each of them, the rejection returns, and a
    patch [i] among them whose range has at least 2 of its 9 block means
    above 50 and that is a problem tile (its mean is above the low-range
    mean in a tile that over-predicts, below it in one that
    under-predicts) has its values set to not-a-number and its weights
    to 0, so that it contributes at no pixel; the patches from position
    [n - n_border - n_right] on, the left-border and right-border ones,
    keep their values and weights. *)
Theorem examined_outlier_patch_is_discarded
    (l : layout) (s : stacks) (range : list (list (option Q))) (i : nat)
    (layer : list (list (option Q))) (means : list (list Q)) :
  predictions_range (predictions s) = Ok range ->
  forallb (reshapable range) (take (examined l s) (predictions s)) = true ->
  (i < examined l s)%nat ->
  predictions s !! i = Some layer ->
  block_means (range_on range layer) = Ok means ->
  (2 <= count_above 50 means)%nat ->
  problem_tile (judge range (predictions s)) layer = true ->
  exists s', reject_outliers l s = Ok s' /\
    predictions s' !! i = Some (blank_layer None layer) /\
    mults s' !! i = blank_layer (Some 0%Q) <$> mults s !! i /\
    (forall x y, contributes x y (blank_layer None layer) = false) /\
    (forall j, (examined l s <= j)%nat ->
       predictions s' !! j = predictions s !! j /\ mults s' !! j = mults s !! j).
Proof.
  intros Hrange Hshape Hi Hlayer Hmeans Hcount Hproblem.
  destruct (reject_loop_spec (judge range (predictions s)) range
              (seq 0 (examined l s)) s) as (s' & Hloop & Hkeep & Hdrop).
  { apply NoDup_seq. }
  { intros k Hk. apply elem_of_seq in Hk.
    assert (Hlen : (examined l s <= length (predictions s))%nat)
      by (unfold examined; lia).
    destruct (lookup_lt_is_Some_2 (predictions s) k) as [layer_k Hlayer_k]; [lia|].
    exists layer_k. split; [done|].
    rewrite forallb_forall in Hshape. apply Hshape.
    apply list_elem_of_In, list_elem_of_lookup. exists k.
    rewrite lookup_take_lt by lia. done. }
  exists s'. split.
  { unfold reject_outliers. rewrite Hrange. exact Hloop. }
  destruct (Hdrop i layer) as [Hp Hm].
  { apply elem_of_seq. lia. }
  { done. }
  { by apply is_outlier_true with means. }
  split; [done|]. split; [done|]. split.
  - intros x y. apply blank_layer_contributes_nothing.
  - intros j Hj. apply Hkeep. rewrite elem_of_seq. lia.
Qed.
End Rejection.

Lemma examined_outlier_patch_is_discarded_witness :
  exists s', Mosaic.reject_outliers Examples.outlier_layout Examples.outlier_stacks = Ok s' /\
    Mosaic.predictions s' !! 1%nat = Some (Mosaic.blank_layer None Examples.low_layer) /\
    Mosaic.mults s' !! 1%nat =
      Mosaic.blank_layer (Some 0%Q) <$> Mosaic.mults Examples.outlier_stacks !! 1%nat /\
    (forall x y, Mosaic.contributes x y (Mosaic.blank_layer None Examples.low_layer) = false) /\
    (forall j, (Mosaic.examined Examples.outlier_layout Examples.outlier_stacks <= j)%nat ->
       Mosaic.predictions s' !! j = Mosaic.predictions Examples.outlier_stacks !! j /\
       Mosaic.mults s' !! j = Mosaic.mults Examples.outlier_stacks !! j).
Proof.
  apply (examined_outlier_patch_is_discarded
           Examples.outlier_layout Examples.outlier_stacks Examples.outlier_range 1
           Examples.low_layer
           [[100; 100; 1375 # 14]; [100; 100; 1375 # 14]; [100; 100; 1375 # 14]]%Q).
  - vm_compute. reflexivity.
  - vm_compute. reflexivity.
  - vm_compute. lia.
  - reflexivity.
  - vm_compute. reflexivity.
  - vm_compute. lia.
  - vm_compute. reflexivity.
Defined.

(** ** Temporal aligner: the branch that deletes the unmatched dates *)

Section AlignerFacts.
Import Aligner.

Lemma existsb_eqb_elem_of (d : Z) (b : list Z) : existsb (Z.eqb d) b = true <-> d ∈ b.
Proof.
  rewrite existsb_exists. split.
  - intros (x & Hin & Heq). apply Z.eqb_eq in Heq as <-. by apply list_elem_of_In.
  - intros Hin. exists d. split; [by apply list_elem_of_In | apply Z.eqb_refl].
Qed.

Lemma unmatched_from_bounds (a b : list Z) (idx j : nat) :
  j ∈ unmatched_from idx a b -> (idx <= j < idx + length a)%nat.
Proof.
  revert idx. induction a as [|d a IH]; intros idx; simpl.
  - intros Hin. by apply elem_of_nil in Hin.
  - destruct (existsb (Z.eqb d) b).
    + intros Hin. apply IH in Hin. lia.
    + intros Hin. apply elem_of_cons in Hin as [-> | Hin]; [lia|].
      apply IH in Hin. lia.
Qed.

Lemma unmatched_from_length (a b : list Z) (idx : nat) :
  (length (unmatched_from idx a b) + length (filter (.∈ b) a) = length a)%nat.
Proof.
  revert idx. induction a as [|d a IH]; intros idx; simpl; [done|].
  rewrite filter_cons. destruct (existsb (Z.eqb d) b) eqn:Hex.
  - apply existsb_eqb_elem_of in Hex. rewrite decide_True by done. simpl.
    specialize (IH (S idx)). lia.
  - assert (Hout : d ∉ b).
    { intros Hin. apply existsb_eqb_elem_of in Hin. congruence. }
    rewrite decide_False by done. simpl. specialize (IH (S idx)). lia.
Qed.

Lemma delete_from_fmap {A B} (f : A -> B) (l : list A) (obj : list nat) (idx : nat) :
  delete_from idx (f <$> l) obj = f <$> delete_from idx l obj.
Proof.
  revert idx. induction l as [|x l IH]; intros idx; simpl; [done|].
  destruct (bool_decide (idx ∈ obj)); simpl; by rewrite IH.
Qed.

(** Deleting the unmatched positions keeps the entries whose date occurs in
    the other series. *)
Lemma delete_from_unmatched {A} (b : list Z) (l : list (Z * A)) (obj : list nat) (idx : nat) :
  (forall j, (idx <= j)%nat -> j ∈ obj <-> j ∈ unmatched_from idx (l.*1) b) ->
  delete_from idx l obj = filter (fun p => p.1 ∈ b) l.
Proof.
  revert idx. induction l as [|[d x] l IH]; intros idx Hobj; simpl; [done|].
  rewrite filter_cons. simpl in Hobj. simpl.
  destruct (existsb (Z.eqb d) b) eqn:Hex.
  - apply existsb_eqb_elem_of in Hex. rewrite decide_True by done.
    rewrite bool_decide_eq_false_2.
    + f_equal. apply IH. intros j Hj. apply Hobj. lia.
    + intros Hin. apply Hobj in Hin; [|lia]. apply unmatched_from_bounds in Hin. lia.
  - assert (Hout : d ∉ b).
    { intros Hin. apply existsb_eqb_elem_of in Hin. congruence. }
    rewrite decide_False by done.
    rewrite bool_decide_eq_true_2 by (apply Hobj; [lia | by left]).
    apply IH. intros j Hj. rewrite Hobj by lia.
    rewrite elem_of_cons. split; [|by right].
    intros [-> | Hin]; [lia | done].
Qed.

Lemma filter_fst_fmap {A} (b : list Z) (l : list (Z * A)) :
  (filter (fun p => p.1 ∈ b) l).*1 = filter (.∈ b) (l.*1).
Proof.
  induction l as [|[d x] l IH]; [done|].
  rewrite fmap_cons, !filter_cons. cbn [fst].
  destruct (decide (d ∈ b)); [|exact IH].
  rewrite fmap_cons. cbn [fst]. f_equal. exact IH.
Qed.

Lemma np_delete_unmatched {A} (a b : list Z) (arr : list A) :
  length arr = length a ->
  np_delete arr (unmatched_from 0 a b) = Ok ((filter (fun p => p.1 ∈ b) (zip a arr)).*2).
Proof.
  intros Hlen. unfold np_delete.
  assert (Hin : forallb (fun i => i <? length arr)%nat (unmatched_from 0 a b) = true).
  { apply forallb_forall. intros j Hj. apply list_elem_of_In in Hj.
    apply unmatched_from_bounds in Hj. apply Nat.ltb_lt. lia. }
  rewrite Hin. f_equal.
  rewrite <- (delete_from_unmatched b (zip a arr) (unmatched_from 0 a b) 0).
  - rewrite <- delete_from_fmap. by rewrite snd_zip by lia.
  - intros j _. by rewrite fst_zip by lia.
Qed.

Lemma filter_snd_diagonal (a b : list Z) :
  (filter (fun p : Z * Z => p.1 ∈ b) (zip a a)).*2 = filter (.∈ b) a.
Proof.
  induction a as [|d a IH]; [done|].
  cbn [zip zip_with]. rewrite !filter_cons. cbn [fst].
  destruct (decide (d ∈ b)); [|exact IH].
  rewrite fmap_cons. cbn [snd]. f_equal. exact IH.
Qed.

Lemma np_delete_unmatched_dates (a b : list Z) :
  np_delete a (unmatched_from 0 a b) = Ok (filter (.∈ b) a).
Proof. by rewrite (np_delete_unmatched a b a eq_refl), filter_snd_diagonal. Qed.

Lemma delete_from_nil {A} (arr : list A) (idx : nat) : delete_from idx arr [] = arr.
Proof.
  revert idx. induction arr as [|x arr IH]; intros idx; [done|].
  cbn [delete_from]. rewrite bool_decide_eq_false_2 by apply not_elem_of_nil.
  by rewrite IH.
Qed.

Lemma np_delete_nil {A} (arr : list A) : np_delete arr [] = Ok arr.
Proof. unfold np_delete. cbn [forallb]. by rewrite delete_from_nil. Qed.

Lemma zip_filtered {A} (b d : list Z) (arr : list A) :
  length arr = length d ->
  zip (filter (.∈ b) d) ((filter (fun p => p.1 ∈ b) (zip d arr)).*2)
  = filter (fun p => p.1 ∈ b) (zip d arr).
Proof.
  intros Hlen.
  assert (Hfst : filter (.∈ b) d = (filter (fun p => p.1 ∈ b) (zip d arr)).*1).
  { rewrite filter_fst_fmap. by rewrite fst_zip by lia. }
  rewrite Hfst. apply zip_fst_snd.
Qed.

(** Lines 509-517 for one series: the deletions go through and every date
    that stays keeps its own image and its own interpolation mask. *)
Lemma remove_dates_spec {S2 I} (a : series S2 I) (b : list Z) :
  length (s2 a) = length (dates a) ->
  length (interp a) = length (dates a) ->
  exists a',
    remove_dates a (unmatched_from 0 (dates a) b) = Ok a' /\
    dates a' = filter (.∈ b) (dates a) /\
    zip (dates a') (s2 a') = filter (fun p => p.1 ∈ b) (zip (dates a) (s2 a)) /\
    zip (dates a') (interp a') = filter (fun p => p.1 ∈ b) (zip (dates a) (interp a)).
Proof.
  intros Hs2 Hinterp.
  pose proof (np_delete_unmatched (dates a) b (s2 a) Hs2) as Hd2.
  pose proof (np_delete_unmatched (dates a) b (interp a) Hinterp) as Hdi.
  pose proof (np_delete_unmatched_dates (dates a) b) as Hdd.
  unfold remove_dates.
  destruct (0 <? length (unmatched_from 0 (dates a) b))%nat eqn:Hany.
  - rewrite Hd2, Hdi, Hdd. cbn [rbind]. eexists. split; [reflexivity|].
    cbn [dates s2 interp]. split; [done|]. by rewrite !zip_filtered.
  - apply Nat.ltb_ge in Hany.
    assert (Hnil : unmatched_from 0 (dates a) b = []) by (apply length_zero_iff_nil; lia).
    rewrite Hnil in Hd2, Hdi, Hdd.
    rewrite np_delete_nil in Hd2. rewrite np_delete_nil in Hdi.
    rewrite np_delete_nil in Hdd.
    injection Hd2 as Hd2. injection Hdi as Hdi. injection Hdd as Hdd.
    exists a. split; [done|]. split; [done|].
    rewrite Hdd at 1 3. rewrite Hd2 at 1. rewrite Hdi at 1.
    by rewrite !zip_filtered.
Qed.

Lemma strictly_sorted_filter (b l : list Z) :
  StronglySorted Z.lt l -> StronglySorted Z.lt (filter (.∈ b) l).
Proof.
  induction 1 as [|x l Hsorted IH Hlt]; [constructor|].
  rewrite filter_cons. destruct (decide (x ∈ b)); [|done].
  constructor; [done|]. apply Forall_forall. intros y Hy.
  apply list_elem_of_filter in Hy as [_ Hy].
  rewrite Forall_forall in Hlt. by apply Hlt.
Qed.

Lemma strictly_sorted_ext (l1 l2 : list Z) :
  StronglySorted Z.lt l1 -> StronglySorted Z.lt l2 ->
  (forall x, x ∈ l1 <-> x ∈ l2) -> l1 = l2.
Proof.
  intros Hl1. revert l2. induction Hl1 as [|x l1 Hs1 IH Hx]; intros l2 Hl2 Hsame.
  - destruct l2 as [|y l2]; [done|].
    assert (Hy : y ∈ []) by (apply Hsame; by left). by apply elem_of_nil in Hy.
  - destruct Hl2 as [|y l2 Hs2 Hy].
    { assert (Hin : x ∈ []) by (apply Hsame; by left). by apply elem_of_nil in Hin. }
    rewrite Forall_forall in Hx, Hy.
    assert (x = y) as <-.
    { assert (Hxin : x ∈ y :: l2) by (apply Hsame; by left).
      assert (Hyin : y ∈ x :: l1) by (apply Hsame; by left).
      apply elem_of_cons in Hxin as [? | Hxin]; [done|].
      apply elem_of_cons in Hyin as [? | Hyin]; [done|].
      apply Hx in Hyin. apply Hy in Hxin. lia. }
    f_equal. apply IH; [done|]. intros z. split; intros Hz.
    + assert (Hz' : z ∈ x :: l2) by (apply Hsame; by right).
      apply elem_of_cons in Hz' as [-> | ?]; [|done]. apply Hx in Hz. lia.
    + assert (Hz' : z ∈ x :: l1) by (apply Hsame; by right).
      apply elem_of_cons in Hz' as [-> | ?]; [|done]. apply Hy in Hz. lia.
Qed.

Lemma falls_back_false (da db : list Z) :
  falls_back da db = false ->
  (5 <= length (filter (.∈ db) da))%nat /\ (5 <= length (filter (.∈ da) db))%nat.
Proof.
  unfold falls_back, align_dates. intros Hfb.
  apply orb_false_iff in Hfb as [Ha Hb]. apply Z.ltb_ge in Ha, Hb.
  pose proof (unmatched_from_length da db 0). pose proof (unmatched_from_length db da 0).
  lia.
Qed.

(** X1.  When the test of line 500 fails, the deletions of lines 509-517
    go through for two series that hold one image and one mask per date:
    each series keeps exactly the entries whose date occurs in the other
    one, every date with its own image and mask, and at least 5 of them.
    When both date vectors are strictly increasing, the two aligned date
    vectors are equal. *)
Theorem aligned_series_keep_the_common_dates {S2 I} (tile neighb : series S2 I) :
  length (s2 tile) = length (dates tile) ->
  length (interp tile) = length (dates tile) ->
  length (s2 neighb) = length (dates neighb) ->
  length (interp neighb) = length (dates neighb) ->
  falls_back (dates tile) (dates neighb) = false ->
  exists tile' neighb',
    synchronise tile neighb = Ok (Proceed tile' neighb') /\
    dates tile' = filter (.∈ dates neighb) (dates tile) /\
    dates neighb' = filter (.∈ dates tile) (dates neighb) /\
    zip (dates tile') (s2 tile')
    = filter (fun p => p.1 ∈ dates neighb) (zip (dates tile) (s2 tile)) /\
    zip (dates tile') (interp tile')
    = filter (fun p => p.1 ∈ dates neighb) (zip (dates tile) (interp tile)) /\
    zip (dates neighb') (s2 neighb')
    = filter (fun p => p.1 ∈ dates tile) (zip (dates neighb) (s2 neighb)) /\
    zip (dates neighb') (interp neighb')
    = filter (fun p => p.1 ∈ dates tile) (zip (dates neighb) (interp neighb)) /\
    (5 <= length (dates tile'))%nat /\ (5 <= length (dates neighb'))%nat /\
    (StronglySorted Z.lt (dates tile) -> StronglySorted Z.lt (dates neighb) ->
     dates tile' = dates neighb').
Proof.
  intros Hs2 Hi Hs2n Hin Hfb.
  destruct (remove_dates_spec tile (dates neighb) Hs2 Hi) as (t' & Ht & Hdt & Hzt & Hit).
  destruct (remove_dates_spec neighb (dates tile) Hs2n Hin) as (n' & Hn & Hdn & Hzn & Hinn).
  destruct (falls_back_false _ _ Hfb) as [Hlt Hln].
  exists t', n'. split.
  { unfold synchronise, align_dates. rewrite Hfb, Ht, Hn. cbn [rbind].
    rewrite Hdt, Hdn.
    destruct (length (filter (.∈ dates tile) (dates neighb))) eqn:E1; [lia|].
    destruct (length (filter (.∈ dates neighb) (dates tile))) eqn:E2; [lia|].
    done. }
  repeat (split; [done|]).
  split; [by rewrite Hdt|]. split; [by rewrite Hdn|].
  intros Hst Hsn. rewrite Hdt, Hdn.
  apply strictly_sorted_ext; [by apply strictly_sorted_filter..|].
  intros x. rewrite !list_elem_of_filter. tauto.
Qed.

(** X2.  The aligner never reports an empty intersection: whatever the two
    series are, line 520 is not reached, since the deletions are only
    made when they leave 5 dates or more on both sides.  Two series
    without a common date are cut by position instead. *)
Theorem synchronise_never_returns_zero {S2 I} (tile neighb : series S2 I) :
  synchronise tile neighb <> Ok Return0.
Proof.
  unfold synchronise, align_dates.
  destruct (falls_back (dates tile) (dates neighb)) eqn:Hfb; [done|].
  destruct (falls_back_false _ _ Hfb) as [Hlt Hln].
  pose proof (np_delete_unmatched_dates (dates tile) (dates neighb)) as Hdt.
  pose proof (np_delete_unmatched_dates (dates neighb) (dates tile)) as Hdn.
  assert (Hkeep : forall (a : series S2 I) (b : list Z) a',
             remove_dates a (unmatched_from 0 (dates a) b) = Ok a' ->
             length (dates a') = length (filter (.∈ b) (dates a))).
  { intros a b a'. unfold remove_dates.
    destruct (0 <? length (unmatched_from 0 (dates a) b))%nat eqn:Hany.
    - destruct (np_delete (s2 a) _); [|done]. destruct (np_delete (interp a) _); [|done].
      rewrite np_delete_unmatched_dates. cbn [rbind]. by intros [= <-].
    - intros [= <-]. apply Nat.ltb_ge in Hany.
      pose proof (unmatched_from_length (dates a) b 0). lia. }
  destruct (remove_dates tile _) as [t'|e] eqn:Ht; [|done].
  destruct (remove_dates neighb _) as [n'|e] eqn:Hn; [|done].
  cbn [rbind]. rewrite (Hkeep _ _ _ Ht), (Hkeep _ _ _ Hn).
  destruct (length (filter (.∈ dates tile) (dates neighb))) eqn:E1; [lia|].
  destruct (length (filter (.∈ dates neighb) (dates tile))) eqn:E2; [lia|].
  done.
Qed.
End AlignerFacts.

Lemma aligned_series_keep_the_common_dates_witness :
  exists tile' neighb',
    Aligner.synchronise Examples.tile_series Examples.neighbour_series
    = Ok (Aligner.Proceed tile' neighb') /\
    Aligner.dates tile' = [10; 40; 100; 130; 160; 190]%Z /\
    Aligner.dates neighb' = [10; 40; 100; 130; 160; 190]%Z /\
    zip (Aligner.dates tile') (Aligner.s2 tile')
    = [(10%Z, 0%nat); (40%Z, 1%nat); (100%Z, 3%nat); (130%Z, 4%nat); (160%Z, 5%nat);
       (190%Z, 6%nat)] /\
    zip (Aligner.dates tile') (Aligner.interp tile')
    = [(10%Z, 0%nat); (40%Z, 1%nat); (100%Z, 3%nat); (130%Z, 4%nat); (160%Z, 5%nat);
       (190%Z, 6%nat)] /\
    zip (Aligner.dates neighb') (Aligner.s2 neighb')
    = [(10%Z, 0%nat); (40%Z, 1%nat); (100%Z, 3%nat); (130%Z, 4%nat); (160%Z, 5%nat);
       (190%Z, 6%nat)] /\
    zip (Aligner.dates neighb') (Aligner.interp neighb')
    = [(10%Z, 0%nat); (40%Z, 1%nat); (100%Z, 3%nat); (130%Z, 4%nat); (160%Z, 5%nat);
       (190%Z, 6%nat)] /\
    (5 <= length (Aligner.dates tile'))%nat /\ (5 <= length (Aligner.dates neighb'))%nat /\
    (StronglySorted Z.lt (Aligner.dates Examples.tile_series) ->
     StronglySorted Z.lt (Aligner.dates Examples.neighbour_series) ->
     Aligner.dates tile' = Aligner.dates neighb').
Proof.
  apply (aligned_series_keep_the_common_dates Examples.tile_series Examples.neighbour_series);
    reflexivity.
Defined.

(** ** Grid geometry: tiles that are too short for a grid *)

Section ShortTiles.
Context {px px1 : Type} (E : collaborators px px1).
Import Grid.
Local Open Scope Z_scope.

Lemma gap_y_zero (extent : Z) :
  gap_y extent = 0 <-> Z.of_nat SIZE - 4 < extent <= Z.of_nat SIZE.
Proof.
  unfold gap_y, ceil_div4.
  set (d := extent - Z.of_nat SIZE).
  pose proof (Z.div_mod (- d) 4 ltac:(lia)) as Hdm.
  pose proof (Z.mod_pos_bound (- d) 4 ltac:(lia)) as Hmod.
  split; intros H; subst d; lia.
Qed.

Lemma tiles_folder_y_raises (extent : Z) (e : exn) :
  tiles_folder_y extent = Raise e <-> e = ZeroDivisionError /\ gap_y extent = 0.
Proof.
  unfold tiles_folder_y, np_arange.
  destruct (Z.eqb_spec (gap_y extent) 0) as [Hz | Hnz]; cbn [rbind].
  - split; [intros [= <-]; done | intros [-> _]; done].
  - split; [done | intros [_ ?]; done].
Qed.

(** X3.  Lines 482-483 divide by the step [ceil((extent - SIZE) / 4)]: the
    offsets cannot be built, with a ZeroDivisionError, exactly for a tile
    whose radar stack has between [SIZE - 3] and [SIZE] rows, and for no
    other reason.  resegment_border then raises before any session runs or
    any file is written. *)
Theorem short_tile_has_no_grid (extent : Z) :
  (forall e, tiles_folder_y extent = Raise e <->
             e = ZeroDivisionError /\ Z.of_nat SIZE - 4 < extent <= Z.of_nat SIZE) /\
  (forall fuel (w : Border.world (px := px) (px1 := px1)) edge d,
      Border.tile w = Ok d ->
      Border.rows_of (Border.s1 d) = extent ->
      Z.of_nat SIZE - 4 < extent <= Z.of_nat SIZE ->
      Border.merge_and_process E fuel w edge = Some ([], Raise ZeroDivisionError)).
Proof.
  split.
  - intros e. rewrite tiles_folder_y_raises, gap_y_zero. done.
  - intros fuel w edge d Htile Hrows Hshort.
    assert (Hraise : tiles_folder_y extent = Raise ZeroDivisionError).
    { apply tiles_folder_y_raises. split; [done|]. by apply gap_y_zero. }
    unfold Border.merge_and_process. rewrite Htile. cbn [rbind].
    rewrite Hrows, Hraise. done.
Qed.
End ShortTiles.

(** ** Subtile loop: what one pass calls and saves *)

Section PassFacts.
Context {px px1 : Type} (E : collaborators px px1).
Import Subtiles.
Local Open Scope Z_scope.

(** A predictor records its session run, if any, and nothing else. *)
Lemma predictor_events (features : ndarray -> ndarray) (s : session)
    (subtile : ndarray) (sess : ndarray -> list (list Q)) :
  let m := if Qltb 0 (np_sum subtile) then
             (let* scaled := lift (Predictors.to_unit_range subtile) in
              let batch_x := features scaled in
              let* _ := emit (EvRun s batch_x) in
              ret (crop_border (sess batch_x)))%run
           else ret (np_full SIZE SIZE 255%Q) in
  Forall (fun e => is_predictor_event e = true) (events m) /\
  Forall (fun e => is_temporal_call e = true <-> s = TemporalSession) (events m).
Proof.
  intros m. subst m.
  destruct (Qltb 0 (np_sum subtile)); [|split; constructor].
  destruct (Predictors.to_unit_range subtile) as [scaled|e]; [|split; constructor].
  split; repeat constructor; destruct s; simpl; try done.
Qed.

(** The pass saves the prediction twice, last of all, and only when the
    prediction did not raise. *)
Lemma predict_and_save_events (p : prepared) (m : mode) :
  exists pre,
    Forall (fun e => is_predictor_event e = true) pre /\
    (Forall (fun e => is_temporal_call e = false) pre <-> m <> TemporalMode) /\
    (m = MedianMode -> exists rest, pre = EvCall Median (tensor p) :: rest) /\
    (m = TemporalMode -> exists rest, pre = EvCall Temporal (tensor p) :: rest) /\
    ((exists preds,
        predict_and_save E p m =
          (pre ++ [EvSave (OwnPatch (folder_y p) (folder_x p)) preds;
                   EvSave (NeighbourLeftPatch (folder_x p)) preds], Ok tt)) \/
     (exists e, predict_and_save E p m = (pre, Raise e))).
Proof.
  unfold predict_and_save, save_both.
  destruct m.
  - exists []. split; [constructor|]. split; [done|]. split; [done|]. split; [done|].
    left. eexists. reflexivity.
  - pose proof (predictor_events (median_features E) GapSession (tensor p) (gap_sess E))
      as [Hev Htemp].
    unfold Predictors.predict_gap.
    destruct (if Qltb 0 (np_sum (tensor p)) then _ else _) as [tr [preds|e]] eqn:Hrun;
      simpl in Hev, Htemp.
    + exists (EvCall Median (tensor p) :: tr).
      split; [by constructor|]. split.
      { split; [done|]. intros _. constructor; [done|].
        eapply Forall_impl; [exact Htemp|]. simpl. intros e He.
        destruct (is_temporal_call e); [|done]. by destruct He as [He _]; specialize (He eq_refl). }
      split; [intros _; by eexists|]. split; [done|].
      left. by exists preds.
    + exists (EvCall Median (tensor p) :: tr).
      split; [by constructor|]. split.
      { split; [done|]. intros _. constructor; [done|].
        eapply Forall_impl; [exact Htemp|]. simpl. intros e0 He.
        destruct (is_temporal_call e0); [|done]. by destruct He as [He _]; specialize (He eq_refl). }
      split; [intros _; by eexists|]. split; [done|].
      right. by exists e.
  - pose proof (predictor_events (temporal_features E) TemporalSession (tensor p)
                  (predict_sess E)) as [Hev Htemp].
    unfold Predictors.predict_subtile.
    destruct (if Qltb 0 (np_sum (tensor p)) then _ else _) as [tr [preds|e]] eqn:Hrun;
      simpl in Hev, Htemp.
    + exists (EvCall Temporal (tensor p) :: tr).
      split; [by constructor|]. split.
      { split; [|done]. intros Hall. by apply Forall_cons in Hall as [? _]. }
      split; [done|]. split; [intros _; by eexists|].
      left. by exists preds.
    + exists (EvCall Temporal (tensor p) :: tr).
      split; [by constructor|]. split.
      { split; [|done]. intros Hall. by apply Forall_cons in Hall as [? _]. }
      split; [done|]. split; [intros _; by eexists|].
      right. by exists e.
Qed.

Lemma tiles_x_value (width : Z) : Grid.tiles_x width = width - 84.
Proof.
  unfold Grid.tiles_x, Grid.overlap_left.
  change (Z.of_nat (SIZE / 2)) with 84. lia.
Qed.

(** X4.  For a tile of more than [SIZE] rows whose grid resegment_border
    built, the pass over window [j] saves its prediction under the start
    offset [y] of that window: as right{width - 84}/{y}.npy in the tile's
    folder and as 0/left{y}.npy in the neighbour's.  The two saves hold the
    same raster and are the last thing a completed pass records; a pass
    that raises has saved nothing. *)
Theorem border_patches_are_saved_under_their_offsets
    (extent width : Z) (inp : inputs (px := px) (px1 := px1)) :
  Z.of_nat SIZE < extent ->
  Grid.border_grid extent width = Ok (tiles_array inp, tiles_folder inp) ->
  exists ys,
    Grid.tiles_folder_y extent = Ok ys /\
    length (tiles_folder inp) = length ys /\
    forall st y, ys !! t st = Some y ->
      (forall p, prepare E inp (t st) = Ok p ->
         folder_x p = y /\ folder_y p = width - 84) /\
      (forall tr st', iteration E inp st = (tr, Ok st') ->
         exists pre preds,
           tr = pre ++ [EvSave (OwnPatch (width - 84) y) preds;
                        EvSave (NeighbourLeftPatch y) preds] /\
           Forall (fun e => is_predictor_event e = true) pre) /\
      (forall tr e, iteration E inp st = (tr, Raise e) ->
         Forall (fun e => is_predictor_event e = true) tr).
Proof.
  intros Hext Hgrid.
  destruct (tiles_folder_y_closed extent Hext) as (m & Hm & Hg & Hlast & _ & Hys).
  set (ys := map (fun k => Z.of_nat k * Grid.gap_y extent) (seq 0 m)
             ++ [extent - Z.of_nat SIZE]) in *.
  assert (Hsorted : Sorted Z.lt ys) by (apply sorted_arange; lia).
  assert (Hne : ys <> []).
  { unfold ys. intros Heq. apply (f_equal length) in Heq.
    rewrite length_app in Heq. simpl in Heq. lia. }
  destruct (make_tiles_right_neighb_sorted (Grid.tiles_x width) ys Hsorted Hne)
    as (ta & Hmake & Hta & Hrows).
  unfold Grid.border_grid in Hgrid. rewrite Hys in Hgrid. cbn [rbind] in Hgrid.
  rewrite Hmake in Hgrid. injection Hgrid as Harr Hfold.
  exists ys. split; [done|].
  split; [rewrite <- Hfold; apply length_map|].
  intros st y Hy.
  assert (Hprep : forall p, prepare E inp (t st) = Ok p ->
                    folder_x p = y /\ folder_y p = width - 84).
  { intros p. unfold prepare, lookup_row.
    rewrite <- Hfold, <- Harr. unfold Grid.storage_rows.
    rewrite list_lookup_fmap, Hy, (Hrows _ _ Hy). cbn [fmap option_fmap option_map rbind].
    unfold Grid.read_row, window_of, folder_of. cbn [rbind].
    destruct (usable_dates _ _ _ _ _ _) as [[dates_tile subset]|]; [|done].
    cbn [rbind]. intros [= <-]. cbn [folder_x folder_y].
    split; [done | apply tiles_x_value]. }
  split; [exact Hprep|].
  pose proof (iteration_unfold E inp st) as Hit.
  destruct (prepare E inp (t st)) as [p|e0] eqn:Hp.
  2:{ rewrite Hit. split; [intros tr st' [= ]|]. intros tr e [= <- _]. constructor. }
  destruct (Hprep p eq_refl) as [Hfx Hfy].
  destruct (predict_and_save_events p (fst (plan p st)))
    as (pre & Hpre & _ & _ & _ & [[preds Hrun] | [e1 Hrun]]);
    rewrite Hit, Hrun, ?Hfx, ?Hfy; cbn [events outcome fst snd].
  - split.
    + intros tr st' [= <- _].
      exists (EvRun SuperresolveSession (padded p) :: pre), preds.
      split; [done|]. by constructor.
    + intros tr e [= ].
  - split.
    + intros tr st' [= ].
    + intros tr e [= <- _]. by constructor.
Qed.

(** X5.  A subtile with 3 or 4 usable dates is counted as median-worthy and
    predicted by the median model in every state of the loop: the pass
    calls predict_gap on the subtile's tensor and records no temporal
    call. *)
Theorem three_or_four_dates_go_to_the_median_model
    (inp : inputs (px := px) (px1 := px1)) (st : loop_state) (p : prepared) (md : Z) :
  prepare E inp (t st) = Ok p ->
  composite p = Some md ->
  (3 <= length (usable p) < 5)%nat ->
  fst (plan p st) = MedianMode /\
  n_median (snd (plan p st)) = n_median st + 1 /\
  (exists rest,
      events (iteration E inp st)
      = EvRun SuperresolveSession (padded p) :: EvCall Median (tensor p) :: rest) /\
  Forall (fun e => is_temporal_call e = false) (events (iteration E inp st)).
Proof.
  intros Hp Hc [Hlo Hhi].
  assert (Hplan : fst (plan p st) = MedianMode /\
                  n_median (snd (plan p st)) = n_median st + 1).
  { unfold plan, dates_tile. rewrite Hc.
    assert ((length (usable p) <? 3)%nat = false) as -> by (apply Nat.ltb_ge; lia).
    assert ((length (usable p) <? 5)%nat = true) as Hfew by (apply Nat.ltb_lt; lia).
    unfold median_worthy. rewrite Hfew, !orb_true_r. done. }
  destruct Hplan as [Hmode Hcount]. split; [done|]. split; [done|].
  rewrite iteration_unfold, Hp. cbn [events fst].
  destruct (predict_and_save_events p (fst (plan p st)))
    as (pre & _ & Htemp & Hmed & _ & Hrun).
  destruct (Hmed Hmode) as [rest Hrest].
  assert (Hquiet : Forall (fun e => is_temporal_call e = false) pre).
  { apply Htemp. by rewrite Hmode. }
  destruct Hrun as [[preds Hrun] | [e Hrun]]; rewrite Hrun; cbn [events fst].
  - split.
    + exists (rest ++ [EvSave (OwnPatch (folder_y p) (folder_x p)) preds;
                       EvSave (NeighbourLeftPatch (folder_x p)) preds]).
      by rewrite Hrest.
    + constructor; [done|]. apply Forall_app. split; [done|]. by repeat constructor.
  - split; [exists rest; by rewrite Hrest|]. by constructor.
Qed.

(** X6.  A pass records a temporal call exactly when the subtile was
    composited from 5 usable dates or more, the tile has not switched to
    the median model, and the subtile does not bring the count of
    median-worthy subtiles to the threshold. *)
Theorem temporal_model_runs_only_before_the_switch
    (inp : inputs (px := px) (px1 := px1)) (st : loop_state) :
  Exists (fun e => is_temporal_call e = true) (events (iteration E inp st)) <->
  exists p md,
    prepare E inp (t st) = Ok p /\ composite p = Some md /\
    (5 <= length (usable p))%nat /\
    gap_between_years st = false /\
    (median_worthy (usable p) md = true -> n_median st + 1 < median_thresh).
Proof.
  rewrite iteration_unfold.
  destruct (prepare E inp (t st)) as [p|e0] eqn:Hp.
  2:{ split; [intros H; by apply Exists_nil in H | by intros (p & md & [= ] & _)]. }
  cbn [events fst].
  assert (Hmode : fst (plan p st) = TemporalMode <->
            exists md, composite p = Some md /\ (5 <= length (usable p))%nat /\
              gap_between_years st = false /\
              (median_worthy (usable p) md = true -> n_median st + 1 < median_thresh)).
  { unfold plan, dates_tile.
    destruct (composite p) as [md|]; [|split; [done | by intros (? & [= ] & _)]].
    destruct (Nat.ltb_spec (length (usable p)) 3) as [Hlt3 | Hge3].
    { split; [done | intros (? & _ & ? & _); lia]. }
    destruct (Nat.ltb_spec (length (usable p)) 5) as [Hlt5 | Hge5].
    { cbn [orb fst]. split; [done | intros (? & _ & ? & _); lia]. }
    cbn [orb fst].
    destruct (gap_between_years st).
    { cbn [orb]. split; [done | by intros (? & _ & _ & [= ] & _)]. }
    cbn [orb negb andb].
    destruct (median_worthy (usable p) md) eqn:Hworthy.
    - rewrite andb_true_l. destruct (Z.leb_spec median_thresh (n_median st + 1)).
      + split; [done|]. intros (md' & [= <-] & _ & _ & Hbelow).
        specialize (Hbelow Hworthy). lia.
      + split; [|done]. intros _. exists md. repeat split; try done.
    - rewrite andb_false_l. split; [|done]. intros _. exists md.
      repeat split; try done. by rewrite Hworthy. }
  assert (Hev : Exists (fun e => is_temporal_call e = true)
                  (EvRun SuperresolveSession (padded p)
                   :: events (predict_and_save E p (fst (plan p st)))) <->
                fst (plan p st) = TemporalMode).
  { destruct (predict_and_save_events p (fst (plan p st)))
      as (pre & _ & Htemp & _ & Hhead & Hrun).
    assert (Hsaves : forall preds,
              Forall (fun e => is_temporal_call e = false)
                [EvSave (OwnPatch (folder_y p) (folder_x p)) preds;
                 EvSave (NeighbourLeftPatch (folder_x p)) preds])
      by (intros preds; by repeat constructor).
    split.
    - intros Hex.
      destruct (fst (plan p st)) eqn:Hm; [exfalso | exfalso | done].
      all: assert (Hquiet : Forall (fun e => is_temporal_call e = false) pre)
             by (by apply Htemp).
      all: apply Exists_cons in Hex as [Hex | Hex]; [done|].
      all: destruct Hrun as [[preds Hrun] | [e Hrun]]; rewrite Hrun in Hex;
             cbn [events fst] in Hex.
      all: try (apply Exists_app in Hex as [Hex | Hex]).
      all: apply Exists_exists in Hex as (ev & Hin & Htrue).
      all: first [ rewrite Forall_forall in Hquiet; apply Hquiet in Hin; congruence
                 | specialize (Hsaves preds); rewrite Forall_forall in Hsaves;
                   apply Hsaves in Hin; congruence ].
    - intros Hm. destruct (Hhead Hm) as [rest Hrest].
      apply Exists_cons_tl.
      destruct Hrun as [[preds Hrun] | [e Hrun]]; rewrite Hrun, Hrest; cbn [events fst].
      + by apply Exists_cons_hd.
      + by apply Exists_cons_hd. }
  rewrite Hev, Hmode. split.
  - intros (md & ? & ? & ? & ?). by exists p, md.
  - intros (p' & md & [= <-] & ? & ? & ? & ?). by exists md.
Qed.

Lemma delete_from_sublist {A} (arr : list A) (obj : list nat) (idx : nat) :
  delete_from idx arr obj `sublist_of` arr.
Proof.
  revert idx. induction arr as [|x arr IH]; intros idx; cbn [delete_from]; [done|].
  destruct (bool_decide (idx ∈ obj)); [apply sublist_cons | apply sublist_skip]; apply IH.
Qed.

Lemma delete_from_zip {A B} (a : list A) (b : list B) (obj : list nat) (idx : nat) :
  delete_from idx (zip a b) obj = zip (delete_from idx a obj) (delete_from idx b obj).
Proof.
  revert b idx. induction a as [|x a IH]; intros [|y b] idx; cbn [zip zip_with delete_from];
    try done.
  - by destruct (bool_decide (idx ∈ obj)); cbn [zip_with]; rewrite ?zip_with_nil_r.
  - destruct (bool_decide (idx ∈ obj)); cbn [zip_with]; by rewrite <- IH.
Qed.

Lemma delete_from_length {A B} (a : list A) (b : list B) (obj : list nat) (idx : nat) :
  length a = length b ->
  length (delete_from idx a obj) = length (delete_from idx b obj).
Proof.
  revert b idx. induction a as [|x a IH]; intros [|y b] idx Hlen; try done.
  cbn [delete_from]. injection Hlen as Hlen.
  destruct (bool_decide (idx ∈ obj)); cbn [length]; by rewrite (IH b).
Qed.

Lemma drop_dates_spec (obj : list nat) (d : list Z) (s : list (list (list px)))
    (d' : list Z) (s' : list (list (list px))) :
  length s = length d ->
  drop_dates obj d s = Ok (d', s') ->
  length s' = length d' /\ d' `sublist_of` d /\ zip d' s' `sublist_of` zip d s.
Proof.
  intros Hlen. unfold drop_dates, np_delete.
  destruct (0 <? length obj)%nat; [|by intros [= <- <-]].
  destruct (forallb _ obj); [|done]. cbn [rbind].
  destruct (forallb _ obj); [|done]. cbn [rbind].
  intros [= <- <-].
  split; [by apply delete_from_length|].
  split; [apply delete_from_sublist|].
  rewrite <- delete_from_zip. apply delete_from_sublist.
Qed.

(** X7.  The three date filters of lines 296-312 only remove dates: when
    they go through, the usable dates are a subsequence of the tile's
    dates, the image stack holds one image per usable date, and every
    usable date is still paired with the crop of its own image. *)
Theorem usable_dates_are_a_subsequence
    (inp : inputs (px := px) (px1 := px1)) (start_y end_y start_x end_x : Z)
    (dates_tile : list Z) (subset : list (list (list px))) :
  length (interpolate_na_vals E (s2 inp)) = length (dates inp) ->
  usable_dates E inp start_y end_y start_x end_x = Ok (dates_tile, subset) ->
  dates_tile `sublist_of` dates inp /\
  length subset = length dates_tile /\
  zip dates_tile subset `sublist_of`
    zip (dates inp)
        (map (crop2 start_y end_y start_x end_x) (interpolate_na_vals E (s2 inp))).
Proof.
  intros Hlen. unfold usable_dates.
  set (subset0 := map (crop2 start_y end_y start_x end_x) (interpolate_na_vals E (s2 inp))).
  assert (Hlen0 : length subset0 = length (dates inp)).
  { unfold subset0. by rewrite length_map. }
  destruct (drop_dates _ (dates inp) subset0) as [[d1 s1]|] eqn:H1; [|done].
  destruct (drop_dates_spec _ _ _ _ _ Hlen0 H1) as (Hl1 & Hd1 & Hz1).
  cbn [rbind].
  destruct (drop_dates _ d1 s1) as [[d2 s2']|] eqn:H2; [|done].
  destruct (drop_dates_spec _ _ _ _ _ Hl1 H2) as (Hl2 & Hd2 & Hz2).
  cbn [rbind]. intros H3.
  destruct (drop_dates_spec _ _ _ _ _ Hl2 H3) as (Hl3 & Hd3 & Hz3).
  split; [by etrans; [|etrans]|]. split; [done|].
  by etrans; [|etrans].
Qed.
End PassFacts.

Lemma border_patches_are_saved_under_their_offsets_witness :
  exists ys,
    Grid.tiles_folder_y 618 = Ok ys /\
    length (Subtiles.tiles_folder Examples.border_inputs) = length ys /\
    forall st y, ys !! Subtiles.t st = Some y ->
      (forall p, Subtiles.prepare Examples.demo_env Examples.border_inputs (Subtiles.t st) = Ok p ->
         Subtiles.folder_x p = y /\ Subtiles.folder_y p = (618 - 84)%Z) /\
      (forall tr st',
         Subtiles.iteration Examples.demo_env Examples.border_inputs st = (tr, Ok st') ->
         exists pre preds,
           tr = pre ++ [EvSave (OwnPatch (618 - 84) y) preds;
                        EvSave (NeighbourLeftPatch y) preds] /\
           Forall (fun e => is_predictor_event e = true) pre) /\
      (forall tr e,
         Subtiles.iteration Examples.demo_env Examples.border_inputs st = (tr, Raise e) ->
         Forall (fun e => is_predictor_event e = true) tr).
Proof.
  apply (border_patches_are_saved_under_their_offsets Examples.demo_env 618 618
           Examples.border_inputs).
  - vm_compute. reflexivity.
  - vm_compute. reflexivity.
Defined.

Lemma three_or_four_dates_go_to_the_median_model_witness :
  fst (Subtiles.plan Examples.prepared_2 Examples.at_window_2) = Subtiles.MedianMode /\
  Subtiles.n_median (snd (Subtiles.plan Examples.prepared_2 Examples.at_window_2))
  = (Subtiles.n_median Examples.at_window_2 + 1)%Z /\
  (exists rest,
      events (Subtiles.iteration Examples.demo_env Examples.demo_inputs Examples.at_window_2)
      = EvRun SuperresolveSession (Subtiles.padded Examples.prepared_2)
        :: EvCall Median (Subtiles.tensor Examples.prepared_2) :: rest) /\
  Forall (fun e => is_temporal_call e = false)
    (events (Subtiles.iteration Examples.demo_env Examples.demo_inputs Examples.at_window_2)).
Proof.
  apply (three_or_four_dates_go_to_the_median_model Examples.demo_env Examples.demo_inputs
           Examples.at_window_2 Examples.prepared_2 40).
  - vm_compute. reflexivity.
  - reflexivity.
  - vm_compute. lia.
Defined.

Lemma usable_dates_are_a_subsequence_witness :
  [180; 220; 260; 300]%Z `sublist_of` Subtiles.dates Examples.demo_inputs /\
  length (replicate 4 [[4%Z]]) = length [180; 220; 260; 300]%Z /\
  zip [180; 220; 260; 300]%Z (replicate 4 [[4%Z]]) `sublist_of`
    zip (Subtiles.dates Examples.demo_inputs)
        (map (crop2 2 3 0 1)
             (interpolate_na_vals Examples.demo_env (Subtiles.s2 Examples.demo_inputs))).
Proof.
  apply (usable_dates_are_a_subsequence Examples.demo_env Examples.demo_inputs 2 3 0 1).
  - reflexivity.
  - vm_compute. reflexivity.
Defined.

(** ** The two predictors: the shape of what they return *)

Section PredictionShape.
Variables (temporal_features median_features : ndarray -> ndarray).

Lemma trim_ends_length {A} (l : list A) : length (trim_ends l) = (length l - 2)%nat.
Proof. unfold trim_ends. rewrite length_take, length_drop. lia. Qed.

Lemma trim_ends_lookup {A} (l : list A) (i : nat) :
  (i < length l - 2)%nat -> trim_ends l !! i = l !! S i.
Proof.
  intros Hi. unfold trim_ends. rewrite lookup_take_lt by done. by rewrite lookup_drop.
Qed.

Lemma crop_border_shape {A} (g : list (list A)) (n m : nat) :
  length g = (n + 2)%nat -> Forall (fun row => length row = (m + 2)%nat) g ->
  length (crop_border g) = n /\
  Forall (fun row => length row = m) (crop_border g) /\
  forall x y, (x < n)%nat -> (y < m)%nat -> pix (crop_border g) x y = pix g (S x) (S y).
Proof.
  intros Hn Hm. unfold crop_border.
  split; [rewrite length_map, trim_ends_length; lia|].
  split.
  - apply Forall_map. unfold trim_ends at 2. apply Forall_take, Forall_drop.
    eapply Forall_impl; [exact Hm|]. intros row Hrow. simpl.
    rewrite trim_ends_length, Hrow. lia.
  - intros x y Hx Hy. unfold pix.
    rewrite list_lookup_fmap, trim_ends_lookup by lia.
    destruct (g !! S x) as [row|] eqn:Hrow; [|done]. simpl.
    apply trim_ends_lookup.
    rewrite Forall_forall in Hm.
    rewrite (Hm row) by (by eapply list_elem_of_lookup_2). lia.
Qed.

Lemma np_full_shape {A} (h w : nat) (v : A) :
  length (np_full h w v) = h /\ Forall (fun row => length row = w) (np_full h w v).
Proof.
  unfold np_full. split; [apply length_replicate|].
  apply Forall_replicate, length_replicate.
Qed.

Lemma predictor_returns (features : ndarray -> ndarray) (s : session)
    (subtile : ndarray) (sess : ndarray -> list (list Q))
    (tr : list event) (preds : list (list Q)) :
  (if Qltb 0 (np_sum subtile) then
     (let* scaled := lift (Predictors.to_unit_range subtile) in
      let batch_x := features scaled in
      let* _ := emit (EvRun s batch_x) in
      ret (crop_border (sess batch_x)))%run
   else ret (np_full SIZE SIZE 255%Q)) = (tr, Ok preds) ->
  (tr = [] /\ preds = np_full SIZE SIZE 255%Q /\ ~ (0 < np_sum subtile)%Q) \/
  (exists scaled,
      Predictors.to_unit_range subtile = Ok scaled /\
      tr = [EvRun s (features scaled)] /\
      preds = crop_border (sess (features scaled)) /\ (0 < np_sum subtile)%Q).
Proof.
  destruct (Qltb 0 (np_sum subtile)) eqn:Hsum.
  - apply Qltb_lt in Hsum.
    destruct (Predictors.to_unit_range subtile) as [scaled|e]; [|done].
    intros [= <- <-]. right. by exists scaled.
  - intros [= <- <-]. left. repeat split. intros Hpos. apply Qltb_lt in Hpos. congruence.
Qed.

(** X8.  When the sessions return rasters of [SIZE + 2] rows and columns,
    whatever predict_subtile and predict_gap return is a raster of [SIZE]
    rows and [SIZE] columns: the no-data raster, or the session's output
    without its outermost ring of pixels, pixel (x, y) of the prediction
    being pixel (x + 1, y + 1) of the output. *)
Theorem predictions_have_the_subtile_shape
    (subtile : ndarray) (sess gap_sess : ndarray -> list (list Q)) :
  (forall x, length (sess x) = (SIZE + 2)%nat /\
             Forall (fun row => length row = (SIZE + 2)%nat) (sess x)) ->
  (forall x, length (gap_sess x) = (SIZE + 2)%nat /\
             Forall (fun row => length row = (SIZE + 2)%nat) (gap_sess x)) ->
  (forall tr preds,
      Predictors.predict_subtile temporal_features subtile sess = (tr, Ok preds) ->
      length preds = SIZE /\ Forall (fun row => length row = SIZE) preds /\
      (tr = [] /\ preds = np_full SIZE SIZE 255%Q \/
       exists batch_x, tr = [EvRun TemporalSession batch_x] /\
         forall x y, (x < SIZE)%nat -> (y < SIZE)%nat ->
           pix preds x y = pix (sess batch_x) (S x) (S y))) /\
  (forall tr preds,
      Predictors.predict_gap median_features subtile gap_sess = (tr, Ok preds) ->
      length preds = SIZE /\ Forall (fun row => length row = SIZE) preds /\
      (tr = [] /\ preds = np_full SIZE SIZE 255%Q \/
       exists batch_x, tr = [EvRun GapSession batch_x] /\
         forall x y, (x < SIZE)%nat -> (y < SIZE)%nat ->
           pix preds x y = pix (gap_sess batch_x) (S x) (S y))).
Proof.
  intros Hsess Hgap.
  assert (Hgen : forall features s (run_sess : ndarray -> list (list Q)) tr preds,
             (forall x, length (run_sess x) = (SIZE + 2)%nat /\
                        Forall (fun row => length row = (SIZE + 2)%nat) (run_sess x)) ->
             (if Qltb 0 (np_sum subtile) then
                (let* scaled := lift (Predictors.to_unit_range subtile) in
                 let batch_x := features scaled in
                 let* _ := emit (EvRun s batch_x) in
                 ret (crop_border (run_sess batch_x)))%run
              else ret (np_full SIZE SIZE 255%Q)) = (tr, Ok preds) ->
             length preds = SIZE /\ Forall (fun row => length row = SIZE) preds /\
             (tr = [] /\ preds = np_full SIZE SIZE 255%Q \/
              exists batch_x, tr = [EvRun s batch_x] /\
                forall x y, (x < SIZE)%nat -> (y < SIZE)%nat ->
                  pix preds x y = pix (run_sess batch_x) (S x) (S y))).
  { intros features s run_sess tr preds Hshape Hrun.
    apply predictor_returns in Hrun
      as [(-> & -> & _) | (scaled & _ & -> & -> & _)].
    - destruct (np_full_shape SIZE SIZE 255%Q) as [Hlen Hrows]. by auto.
    - destruct (Hshape (features scaled)) as [Hlen Hrows].
      destruct (crop_border_shape _ SIZE SIZE Hlen Hrows) as (? & ? & Hpix).
      split; [done|]. split; [done|]. right. by exists (features scaled). }
  split; intros tr preds Hrun; eapply Hgen; eauto.
Qed.
End PredictionShape.

Lemma predictions_have_the_subtile_shape_witness :
  (forall tr preds,
      Predictors.predict_subtile id Examples.unit_tensor Examples.ring_sess = (tr, Ok preds) ->
      length preds = SIZE /\ Forall (fun row => length row = SIZE) preds /\
      (tr = [] /\ preds = np_full SIZE SIZE 255%Q \/
       exists batch_x, tr = [EvRun TemporalSession batch_x] /\
         forall x y, (x < SIZE)%nat -> (y < SIZE)%nat ->
           pix preds x y = pix (Examples.ring_sess batch_x) (S x) (S y))) /\
  (forall tr preds,
      Predictors.predict_gap id Examples.unit_tensor Examples.ring_sess = (tr, Ok preds) ->
      length preds = SIZE /\ Forall (fun row => length row = SIZE) preds /\
      (tr = [] /\ preds = np_full SIZE SIZE 255%Q \/
       exists batch_x, tr = [EvRun GapSession batch_x] /\
         forall x y, (x < SIZE)%nat -> (y < SIZE)%nat ->
           pix preds x y = pix (Examples.ring_sess batch_x) (S x) (S y))).
Proof.
  apply (predictions_have_the_subtile_shape id id Examples.unit_tensor
           Examples.ring_sess Examples.ring_sess).
  - intros x. apply np_full_shape.
  - intros x. apply np_full_shape.
Defined.

(** ** Border orchestrator: the checks, the radar stacks and the strips *)

Section OrchestratorFacts.
Context {px px1 : Type} (E : collaborators px px1).
Import Border.

Lemma merge_other_edge (fuel : nat) (w : world (px := px) (px1 := px1)) :
  exists e, merge_and_process E fuel w OtherEdge = Some ([], Raise e).
Proof.
  unfold merge_and_process.
  destruct (tile w) as [d|e]; [|by exists e]. cbn [rbind].
  destruct (Grid.tiles_folder_y _) as [ys|e]; [|by exists e]. cbn [rbind].
  by exists NameError.
Qed.

Lemma checks_reprocess (w : world (px := px) (px1 := px1)) (e : edge) :
  checks w e = Ok Reprocess ->
  processed w = true /\ processed_neighbor w = true /\ (0 < catalog_rows w)%nat /\
  (exists tile_raster smooth_t neighbor_raster smooth_n,
      tile_tif w = Ok (tile_raster, smooth_t) /\
      neighbor_tif w = Ok (neighbor_raster, smooth_n) /\ smooth_n <> 1%Z) /\
  test_subtile w = Ok SIZE /\
  (e = RightEdge -> test_subtile_neighbor w = Ok SIZE).
Proof.
  unfold checks.
  destruct (processed w); [|done].
  destruct (processed_neighbor w); [|done].
  destruct (Nat.ltb_spec 0 (catalog_rows w)) as [Hrows|]; [|done].
  cbn [andb].
  destruct (tile_tif w) as [[tile_raster smooth_t]|]; [|done]. cbn [rbind].
  destruct (neighbor_tif w) as [[neighbor_raster smooth_n]|]; [|done]. cbn [rbind].
  destruct (Z.eqb_spec smooth_n 1) as [|Hsmooth]; [done|].
  destruct (right_mean_of neighbor_raster) as [right_mean|]; [|done]. cbn [rbind].
  destruct (left_mean_of tile_raster) as [left_mean|]; [|done]. cbn [rbind].
  destruct (border_differs right_mean left_mean); [|done].
  destruct (test_subtile w) as [rows|]; [|done]. cbn [rbind].
  destruct (Nat.eqb_spec rows SIZE) as [->|]; [|done]. cbn [negb].
  destruct e.
  - destruct (test_subtile_neighbor w) as [rows_n|]; [|done]. cbn [rbind].
    destruct (Nat.eqb_spec rows_n SIZE) as [->|]; [|done]. intros _.
    repeat split; try done.
    by exists tile_raster, smooth_t, neighbor_raster, smooth_n.
  - intros _. repeat split; try done.
    by exists tile_raster, smooth_t, neighbor_raster, smooth_n.
Qed.

(** X9.  resegment_border runs a session, calls a predictor, saves a file or
    returns 1 only for the right edge of a pair that passed every check:
    the tile and the neighbour are processed, the catalog lists the
    neighbour, both finished rasters load, the neighbour's is not a
    smoothed one, and the first subtile of the tile and of the neighbour
    has [SIZE] rows.  For any other edge it returns 0 or raises. *)
Theorem reprocessing_passes_every_check
    (fuel : nat) (w : world (px := px) (px1 := px1)) (e : edge)
    (tr : list event) (r : result Z) :
  resegment_border E fuel w e = Some (tr, r) ->
  r = Ok 1%Z \/ tr <> [] ->
  e = RightEdge /\
  processed w = true /\ processed_neighbor w = true /\ (0 < catalog_rows w)%nat /\
  (exists tile_raster smooth_t neighbor_raster smooth_n,
      tile_tif w = Ok (tile_raster, smooth_t) /\
      neighbor_tif w = Ok (neighbor_raster, smooth_n) /\ smooth_n <> 1%Z) /\
  test_subtile w = Ok SIZE /\
  test_subtile_neighbor w = Ok SIZE.
Proof.
  unfold resegment_border. intros Hrun Hran.
  destruct (checks w e) as [[|]|err] eqn:Hchecks.
  - injection Hrun as <- <-. by destruct Hran.
  - destruct (checks_reprocess w e Hchecks) as (? & ? & ? & ? & ? & Hneighb).
    destruct e.
    + repeat split; try done. by apply Hneighb.
    + destruct (merge_other_edge fuel w) as [err Hmerge].
      rewrite Hmerge in Hrun. injection Hrun as <- <-. by destruct Hran.
  - injection Hrun as <- <-. by destruct Hran.
Qed.

Lemma hconcat_stack_mismatch {A} (a b : list (list (list A))) :
  length a <> length b -> hconcat_stack a b = Raise ValueError.
Proof.
  revert b. induction a as [|g a IH]; intros [|h b] Hlen; try done.
  cbn [hconcat_stack]. unfold hconcat.
  destruct (length g =? length h)%nat; [|done]. cbn [rbind].
  rewrite IH; [done|]. simpl in Hlen. lia.
Qed.

(** The counts of radar observations that lines 524-549 know. *)
Lemma reconcile_s1_unsupported {A} (s1 s1_neighb : list A) :
  ~ ((length s1 = 4 \/ length s1 = 6 \/ length s1 = 12) /\
     (length s1_neighb = 4 \/ length s1_neighb = 6 \/ length s1_neighb = 12))%nat ->
  reconcile_s1 s1 s1_neighb = Ok (s1, s1_neighb).
Proof.
  intros Hunsupported. unfold reconcile_s1.
  destruct (Nat.eqb_spec (length s1) (length s1_neighb)); [done|].
  destruct (Nat.eqb_spec (length s1) 12) as [H12|].
  { destruct (Nat.eqb_spec (length s1_neighb) 6); [lia|].
    destruct (Nat.eqb_spec (length s1_neighb) 4); [lia|]. done. }
  destruct (Nat.eqb_spec (length s1_neighb) 12) as [H12|].
  { destruct (Nat.eqb_spec (length s1) 6); [lia|].
    destruct (Nat.eqb_spec (length s1) 4); [lia|]. done. }
  destruct (Nat.eqb_spec (length s1) 6) as [H6|].
  { destruct (Nat.eqb_spec (length s1_neighb) 4); [lia|]. done. }
  destruct (Nat.eqb_spec (length s1_neighb) 6) as [H6|].
  { destruct (Nat.eqb_spec (length s1) 4); [lia|]. done. }
  done.
Qed.

(** X10.  Two radar stacks with different numbers of observations, not both
    among 4, 6 and 12, are left as they are by lines 524-549, and their
    concatenation then raises a ValueError: the pair is not reprocessed on
    misaligned radar data. *)
Theorem unsupported_radar_counts_raise {A} (s1 s1_neighb : list (list (list A))) :
  length s1 <> length s1_neighb ->
  ~ ((length s1 = 4 \/ length s1 = 6 \/ length s1 = 12) /\
     (length s1_neighb = 4 \/ length s1_neighb = 6 \/ length s1_neighb = 12))%nat ->
  reconcile_s1 s1 s1_neighb = Ok (s1, s1_neighb) /\
  (let* (a, b) := reconcile_s1 s1 s1_neighb in hconcat_stack a b)%result
  = Raise ValueError.
Proof.
  intros Hdiff Hunsupported.
  rewrite (reconcile_s1_unsupported s1 s1_neighb Hunsupported). split; [done|].
  cbn [rbind]. by apply hconcat_stack_mismatch.
Qed.

(** X11.  Two radar stacks of 4, 6 or 12 observations each leave
    lines 524-549 with the same number of observations, that of the
    shorter stack: the shorter one is untouched, and the longer one is
    subsampled in order, starting with its first observation. *)
Theorem supported_radar_counts_are_equalised {A} (s1 s1_neighb : list A) :
  (length s1 = 4 \/ length s1 = 6 \/ length s1 = 12)%nat ->
  (length s1_neighb = 4 \/ length s1_neighb = 6 \/ length s1_neighb = 12)%nat ->
  exists a b,
    reconcile_s1 s1 s1_neighb = Ok (a, b) /\
    length a = Nat.min (length s1) (length s1_neighb) /\
    length b = Nat.min (length s1) (length s1_neighb) /\
    a `sublist_of` s1 /\ b `sublist_of` s1_neighb /\
    head a = head s1 /\ head b = head s1_neighb /\
    ((length s1 <= length s1_neighb)%nat -> a = s1) /\
    ((length s1_neighb <= length s1)%nat -> b = s1_neighb).
Proof.
  intros Hn Hm.
  destruct Hn as [Hn | [Hn | Hn]]; destruct Hm as [Hm | [Hm | Hm]];
    repeat (destruct s1 as [|? s1]; cbn [length] in Hn; try lia);
    repeat (destruct s1_neighb as [|? s1_neighb]; cbn [length] in Hm; try lia);
    (eexists _, _; split; [reflexivity|]);
    cbn [length Nat.min head];
    repeat split; try done; try (intros; lia); repeat constructor.
Qed.

Lemma py_from_nonneg {A} (k : nat) (row : list A) :
  py_from (Z.of_nat k) row = drop k row.
Proof.
  unfold py_from. rewrite py_bound_of_nat.
  destruct (Nat.le_ge_cases k (length row)).
  - by rewrite Nat.min_l.
  - rewrite Nat.min_r by done. by rewrite !drop_ge by lia.
Qed.

(** X12.  For a tile and a neighbour of at least 91 columns, split_fn keeps
    the last 91 columns of every row of the tile and the first 91 of every
    row of the neighbour ([SIZE // 2 + 7] each) and names the strip by the
    column [width - 84]; the rows of the concatenated strip are 182
    columns long, the width of every read window of the grid. *)
Theorem border_strip_is_182_columns_wide {A}
    (item item_neighb : list (list (list A))) (width : nat) :
  cols_of item = Z.of_nat width ->
  (91 <= width)%nat ->
  Forall (Forall (fun row => length row = width)) item ->
  Forall (Forall (fun row => (91 <= length row)%nat)) item_neighb ->
  snd (split_fn_tile item) = (Z.of_nat width - 84)%Z /\
  fst (split_fn_tile item) = map (map (drop (width - 91))) item /\
  split_fn_neighbor item_neighb = map (map (take 91)) item_neighb /\
  Forall (Forall (fun row => length row = 91%nat)) (fst (split_fn_tile item)) /\
  Forall (Forall (fun row => length row = 91%nat)) (split_fn_neighbor item_neighb) /\
  forall g h m, g ∈ fst (split_fn_tile item) -> h ∈ split_fn_neighbor item_neighb ->
    hconcat g h = Ok m -> Forall (fun row => length row = 182%nat) m.
Proof.
  intros Hcols Hwide Hitem Hneighb.
  assert (Hleft : Grid.overlap_left (cols_of item) = Z.of_nat (width - 91)).
  { unfold Grid.overlap_left. rewrite Hcols. change (Z.of_nat (SIZE / 2)) with 84%Z. lia. }
  assert (Htile : fst (split_fn_tile item) = map (map (drop (width - 91))) item).
  { unfold split_fn_tile. cbn [fst]. rewrite Hleft.
    apply map_ext. intros g. apply map_ext. intros row. apply py_from_nonneg. }
  assert (Hn : split_fn_neighbor item_neighb = map (map (take 91)) item_neighb).
  { unfold split_fn_neighbor. apply map_ext. intros g. apply map_ext. intros row.
    unfold py_upto. change Grid.overlap_right with (Z.of_nat 91).
    rewrite py_bound_of_nat. apply take_min_length. }
  assert (Htile91 : Forall (Forall (fun row => length row = 91%nat))
                      (fst (split_fn_tile item))).
  { rewrite Htile. apply Forall_map. eapply Forall_impl; [exact Hitem|].
    intros g Hg. cbn beta. apply Forall_map. eapply Forall_impl; [exact Hg|].
    intros row Hrow. cbn beta in *. rewrite length_drop, Hrow. lia. }
  assert (Hn91 : Forall (Forall (fun row => length row = 91%nat))
                   (split_fn_neighbor item_neighb)).
  { rewrite Hn. apply Forall_map. eapply Forall_impl; [exact Hneighb|].
    intros g Hg. cbn beta. apply Forall_map. eapply Forall_impl; [exact Hg|].
    intros row Hrow. cbn beta in *. rewrite length_take. lia. }
  split.
  { unfold split_fn_tile. cbn [snd]. rewrite Hleft. lia. }
  split; [done|]. split; [done|]. split; [done|]. split; [done|].
  intros g h m Hg Hh. unfold hconcat.
  destruct (length g =? length h)%nat; [|done]. intros [= <-].
  rewrite Forall_forall in Htile91, Hn91.
  specialize (Htile91 g Hg). specialize (Hn91 h Hh).
  rewrite Forall_forall in Htile91, Hn91.
  apply Forall_forall. intros row Hrow.
  apply list_elem_of_lookup in Hrow as [i Hi].
  apply lookup_zip_with_Some in Hi as (a & b & -> & Ha & Hb).
  rewrite length_app.
  rewrite (Htile91 a) by (by eapply list_elem_of_lookup_2).
  rewrite (Hn91 b) by (by eapply list_elem_of_lookup_2). done.
Qed.
End OrchestratorFacts.

Lemma reprocessing_passes_every_check_witness :
  Border.RightEdge = Border.RightEdge /\
  Border.processed Examples.reprocess_world = true /\
  Border.processed_neighbor Examples.reprocess_world = true /\
  (0 < Border.catalog_rows Examples.reprocess_world)%nat /\
  (exists tile_raster smooth_t neighbor_raster smooth_n,
      Border.tile_tif Examples.reprocess_world = Ok (tile_raster, smooth_t) /\
      Border.neighbor_tif Examples.reprocess_world = Ok (neighbor_raster, smooth_n) /\
      smooth_n <> 1%Z) /\
  Border.test_subtile Examples.reprocess_world = Ok SIZE /\
  Border.test_subtile_neighbor Examples.reprocess_world = Ok SIZE.
Proof.
  apply (reprocessing_passes_every_check Examples.demo_env 6 Examples.reprocess_world
           Border.RightEdge Examples.reprocess_trace (Ok 1%Z)).
  - vm_compute. reflexivity.
  - left. reflexivity.
Defined.

Lemma unsupported_radar_counts_raise_witness :
  Border.reconcile_s1 Examples.radar_12 Examples.radar_5
  = Ok (Examples.radar_12, Examples.radar_5) /\
  (let* (a, b) := Border.reconcile_s1 Examples.radar_12 Examples.radar_5 in
   Border.hconcat_stack a b)%result
  = Raise ValueError.
Proof.
  apply (unsupported_radar_counts_raise Examples.radar_12 Examples.radar_5).
  - vm_compute. lia.
  - vm_compute. lia.
Defined.

Lemma supported_radar_counts_are_equalised_witness :
  exists a b,
    Border.reconcile_s1 Examples.radar_12 Examples.radar_6 = Ok (a, b) /\
    length a = Nat.min (length Examples.radar_12) (length Examples.radar_6) /\
    length b = Nat.min (length Examples.radar_12) (length Examples.radar_6) /\
    a `sublist_of` Examples.radar_12 /\ b `sublist_of` Examples.radar_6 /\
    head a = head Examples.radar_12 /\ head b = head Examples.radar_6 /\
    ((length Examples.radar_12 <= length Examples.radar_6)%nat -> a = Examples.radar_12) /\
    ((length Examples.radar_6 <= length Examples.radar_12)%nat -> b = Examples.radar_6).
Proof.
  apply (supported_radar_counts_are_equalised Examples.radar_12 Examples.radar_6).
  - right. right. reflexivity.
  - right. left. reflexivity.
Defined.

Lemma border_strip_is_182_columns_wide_witness :
  snd (Border.split_fn_tile Examples.tile_band) = (Z.of_nat 100 - 84)%Z /\
  fst (Border.split_fn_tile Examples.tile_band)
  = map (map (drop (100 - 91))) Examples.tile_band /\
  Border.split_fn_neighbor Examples.neighbour_band
  = map (map (take 91)) Examples.neighbour_band /\
  Forall (Forall (fun row => length row = 91%nat))
    (fst (Border.split_fn_tile Examples.tile_band)) /\
  Forall (Forall (fun row => length row = 91%nat))
    (Border.split_fn_neighbor Examples.neighbour_band) /\
  forall g h m,
    g ∈ fst (Border.split_fn_tile Examples.tile_band) ->
    h ∈ Border.split_fn_neighbor Examples.neighbour_band ->
    Border.hconcat g h = Ok m -> Forall (fun row => length row = 182%nat) m.
Proof.
  apply (border_strip_is_182_columns_wide Examples.tile_band Examples.neighbour_band 100).
  - reflexivity.
  - lia.
  - vm_compute. repeat constructor.
  - vm_compute. repeat constructor; lia.
Defined.

(** The pair of the example is reprocessed: three windows, each with the
    super-resolution run, the temporal call and session run and the two
    saves. *)
Example strip_pair_is_reprocessed :
  outcome <$> Border.resegment_border Examples.demo_env 6 Examples.reprocess_world
                Border.RightEdge = Some (Ok 1%Z) /\
  length Examples.reprocess_trace = 15%nat.
Proof. split; vm_compute; reflexivity. Qed.

(** ** Mosaic reconciler: how a patch enters the stacks *)

Section Placement.
Import Mosaic.

Lemma SIZE_value : SIZE = 168%nat.
Proof. reflexivity. Qed.

Lemma rectangular_spec {A} (h w : nat) (g : list (list A)) :
  rectangular h w g = true <-> has_shape h w g.
Proof.
  unfold rectangular, has_shape. rewrite andb_true_iff, Nat.eqb_eq.
  split; intros [Hlen Hrows]; (split; [done|]).
  - apply Forall_forall. intros row Hrow.
    rewrite forallb_forall in Hrows. apply Nat.eqb_eq, Hrows. by apply list_elem_of_In.
  - apply forallb_forall. intros row Hrow. apply Nat.eqb_eq.
    rewrite Forall_forall in Hrows. apply Hrows. by apply list_elem_of_In.
Qed.

Lemma broadcast_id {A} (h w : nat) (v : list (list A)) :
  has_shape h w v -> broadcast h w v = v.
Proof.
  intros [Hlen Hrows]. unfold broadcast.
  assert (Hfirst : match v with [row] => replicate h row | _ => v end = v).
  { destruct v as [|row [|row' v]]; try done. simpl in Hlen. by subst h. }
  rewrite Hfirst. clear Hfirst Hlen.
  induction Hrows as [|row v Hrow Hrows IH]; [done|].
  cbn [map]. f_equal; [|exact IH].
  destruct row as [|a [|b row]]; try done. simpl in Hrow. by subst w.
Qed.

Lemma has_shape_width {A} (h w : nat) (g : list (list A)) :
  has_shape h w g -> g <> [] -> width g = w.
Proof.
  intros [_ Hrows] Hne. destruct g as [|row g]; [done|].
  by apply Forall_cons in Hrows as [? _].
Qed.

Lemma has_shape_pix {A} (h w : nat) (g : list (list A)) (x y : nat) :
  has_shape h w g -> (x < h)%nat -> (y < w)%nat -> is_Some (pix g x y).
Proof.
  intros [Hlen Hrows] Hx Hy. unfold pix.
  destruct (lookup_lt_is_Some_2 g x) as [row Hrow]; [lia|]. rewrite Hrow.
  apply lookup_lt_is_Some_2.
  rewrite Forall_forall in Hrows. rewrite (Hrows row); [done|].
  by eapply list_elem_of_lookup_2.
Qed.

(** The row that the assignment writes over [row]. *)
Lemma lookup_overwritten {A} (y w : nat) (row vrow : list A) (j : nat) :
  length vrow = w -> (y + w <= length row)%nat ->
  (take y row ++ vrow ++ drop (y + w) row) !! j =
  if bool_decide (y <= j < y + w)%nat then vrow !! (j - y)%nat else row !! j.
Proof.
  intros Hv Hfit.
  destruct (decide (j < y)%nat) as [Hlow | Hge].
  - rewrite bool_decide_eq_false_2 by lia.
    rewrite lookup_app_l by (rewrite length_take; lia).
    by rewrite lookup_take_lt.
  - rewrite lookup_app_r by (rewrite length_take; lia).
    rewrite length_take. replace (Nat.min y (length row)) with y by lia.
    destruct (decide (j < y + w)%nat) as [Hin | Hout].
    + rewrite bool_decide_eq_true_2 by lia.
      by rewrite lookup_app_l by lia.
    + rewrite bool_decide_eq_false_2 by lia.
      rewrite lookup_app_r by lia. rewrite lookup_drop. f_equal. lia.
Qed.

Lemma assign_window_fits {A} (H W h w x y : nat) (v layer : list (list A)) :
  has_shape H W layer -> has_shape h w v ->
  (x + h <= H)%nat -> (y + w <= W)%nat ->
  exists layer',
    assign_window x y h w v layer = Ok layer' /\
    has_shape H W layer' /\
    forall i j,
      pix layer' i j =
      if bool_decide ((x <= i < x + h)%nat /\ (y <= j < y + w)%nat)
      then pix v (i - x) (j - y) else pix layer i j.
Proof.
  intros Hlayer Hv Hx Hy.
  destruct (decide (layer = [])) as [-> | Hne].
  { destruct Hlayer as [HlenL _]. simpl in HlenL. subst H.
    assert (h = 0)%nat as -> by lia. assert (x = 0)%nat as -> by lia.
    destruct Hv as [Hlenv _]. apply length_zero_iff_nil in Hlenv as ->.
    exists []. split; [done|]. split; [by split|].
    intros i j. unfold pix. rewrite !lookup_nil. by case_bool_decide. }
  pose proof (has_shape_width H W layer Hlayer Hne) as Hwidth.
  destruct Hlayer as [HlenL HrowsL]. pose proof Hv as [Hlenv Hrowsv].
  unfold assign_window. rewrite HlenL, Hwidth.
  replace (Nat.min (x + h) H - Nat.min x H)%nat with h by lia.
  replace (Nat.min (y + w) W - Nat.min y W)%nat with w by lia.
  rewrite (broadcast_id h w v Hv).
  assert (rectangular h w v = true) as -> by (by apply rectangular_spec).
  eexists. split; [reflexivity|].
  rewrite Forall_forall in HrowsL, Hrowsv.
  split; [split|].
  - rewrite !length_app, length_take, length_zip_with, length_take, !length_drop. lia.
  - apply Forall_app. split; [|apply Forall_app; split].
    + apply Forall_take, Forall_forall, HrowsL.
    + apply Forall_forall. intros row Hrow.
      apply list_elem_of_lookup in Hrow as [k Hk].
      apply lookup_zip_with_Some in Hk as (r & vrow & -> & Hr & Hvrow).
      apply lookup_take_Some in Hr as [Hr _]. rewrite lookup_drop in Hr.
      rewrite !length_app, length_take, length_drop.
      rewrite (HrowsL r) by (by eapply list_elem_of_lookup_2).
      rewrite (Hrowsv vrow) by (by eapply list_elem_of_lookup_2). lia.
    + apply Forall_drop, Forall_forall, HrowsL.
  - intros i j. unfold pix.
    destruct (decide (i < x)%nat) as [Hlow | Hge].
    { rewrite bool_decide_eq_false_2 by lia.
      rewrite lookup_app_l by (rewrite length_take; lia).
      by rewrite lookup_take_lt. }
    rewrite lookup_app_r by (rewrite length_take; lia).
    rewrite length_take. replace (Nat.min x (length layer)) with x by lia.
    assert (Hzip : length (zip_with (fun row vrow : list A =>
                                       take y row ++ vrow ++ drop (y + w) row)
                                    (take h (drop x layer)) v) = h).
    { rewrite length_zip_with, length_take, length_drop. lia. }
    destruct (decide (i < x + h)%nat) as [Hin | Hout].
    + rewrite lookup_app_l by lia.
      rewrite lookup_zip_with, lookup_take_lt, lookup_drop by lia.
      replace (x + (i - x))%nat with i by lia.
      destruct (lookup_lt_is_Some_2 layer i) as [row Hrow]; [lia|].
      destruct (lookup_lt_is_Some_2 v (i - x)) as [vrow Hvrow]; [lia|].
      rewrite Hrow, Hvrow. cbn [mbind option_bind fmap option_fmap option_map].
      rewrite lookup_overwritten.
      * repeat case_bool_decide; try done; lia.
      * apply Hrowsv. by eapply list_elem_of_lookup_2.
      * rewrite (HrowsL row) by (by eapply list_elem_of_lookup_2). lia.
    + rewrite bool_decide_eq_false_2 by lia.
      rewrite lookup_app_r by lia. rewrite Hzip, lookup_drop.
      by replace (x + h + (i - x - h))%nat with i by lia.
Qed.

Lemma assign_window_overflow {A} (H W h w x y : nat) (v layer : list (list A)) :
  has_shape H W layer -> has_shape h w v ->
  (2 <= h)%nat -> (2 <= w)%nat ->
  (H < x + h)%nat \/ (W < y + w)%nat ->
  assign_window x y h w v layer = Raise ValueError.
Proof.
  intros Hlayer [Hlenv Hrowsv] Hh Hw Hover.
  unfold assign_window.
  set (h' := (Nat.min (x + h) (length layer) - Nat.min x (length layer))%nat).
  set (w' := (Nat.min (y + w) (width layer) - Nat.min y (width layer))%nat).
  assert (Hsame : broadcast h' w' v = v).
  { unfold broadcast.
    assert (Hfirst : match v with [row] => replicate h' row | _ => v end = v).
    { destruct v as [|row [|row' v]]; try done. simpl in Hlenv. lia. }
    rewrite Hfirst. clear Hfirst Hlenv.
    induction Hrowsv as [|row v Hrow Hrows IH]; [done|].
    cbn [map]. f_equal; [|exact IH].
    destruct row as [|a [|b row]]; try done. simpl in Hrow. lia. }
  rewrite Hsame.
  destruct (rectangular h' w' v) eqn:Hrect; [|done].
  exfalso. apply rectangular_spec in Hrect as [Hlen' Hrows'].
  assert (Hh' : h' = h) by lia.
  destruct v as [|row v]; [simpl in Hlenv; lia|].
  apply Forall_cons in Hrowsv as [Hrow _]. apply Forall_cons in Hrows' as [Hrow' _].
  assert (Hw' : w' = w) by lia.
  destruct (decide (layer = [])) as [-> | Hne]; [simpl in *; lia|].
  pose proof (has_shape_width H W layer Hlayer Hne) as Hwidth.
  destruct Hlayer as [HlenL _]. subst h' w'. rewrite HlenL in Hh'. rewrite Hwidth in Hw'.
  clear -Hh' Hw' Hover Hh Hw. lia.
Qed.

(** X13.  Assigning a patch to a window of a raster writes the window and
    nothing else: when the window fits, the result has the shape of the
    raster, holds the patch inside the window and the old values outside
    it.  A patch of two rows and two columns or more whose window does not
    fit raises a ValueError, the patch not being broadcastable to the
    clipped window. *)
Theorem patch_assignment_writes_its_window {A}
    (H W h w x y : nat) (v layer : list (list A)) :
  has_shape H W layer -> has_shape h w v ->
  ((x + h <= H)%nat -> (y + w <= W)%nat ->
   exists layer',
     assign_window x y h w v layer = Ok layer' /\
     has_shape H W layer' /\
     forall i j,
       pix layer' i j =
       if bool_decide ((x <= i < x + h)%nat /\ (y <= j < y + w)%nat)
       then pix v (i - x) (j - y) else pix layer i j) /\
  ((2 <= h)%nat -> (2 <= w)%nat -> (H < x + h)%nat \/ (W < y + w)%nat ->
   assign_window x y h w v layer = Raise ValueError).
Proof.
  intros Hlayer Hv. split.
  - by apply assign_window_fits.
  - by apply assign_window_overflow.
Qed.

Lemma transpose_shape_pix {A} (h w : nat) (g : list (list A)) :
  has_shape h w g ->
  has_shape w h (transpose w g) /\ forall a b, pix (transpose w g) a b = pix g b a.
Proof.
  revert h. induction g as [|row rest IH]; intros h [Hlen Hrows].
  - simpl in Hlen. subst h. cbn [transpose]. split.
    + split; [apply length_replicate | by apply Forall_replicate].
    + intros a b. unfold pix. rewrite lookup_nil.
      destruct (replicate w [] !! a) as [col|] eqn:Hcol; [|done].
      apply lookup_replicate in Hcol as [-> _]. apply lookup_nil.
  - apply Forall_cons in Hrows as [Hrow Hrows]. simpl in Hlen.
    destruct h as [|h]; [done|]. injection Hlen as Hlen.
    destruct (IH h (conj Hlen Hrows)) as [[HlenT HrowsT] HpixT].
    cbn [transpose]. split.
    + split; [rewrite length_zip_with; lia|].
      apply Forall_forall. intros col Hcol.
      apply list_elem_of_lookup in Hcol as [k Hk].
      apply lookup_zip_with_Some in Hk as (v & col' & -> & _ & Hcol').
      rewrite Forall_forall in HrowsT. cbn [length].
      rewrite (HrowsT col') by (by eapply list_elem_of_lookup_2). done.
    + intros a b. unfold pix at 1. rewrite lookup_zip_with.
      destruct (row !! a) as [v|] eqn:Hv; cbn [mbind option_bind].
      * destruct (lookup_lt_is_Some_2 (transpose w rest) a) as [col Hcol].
        { rewrite HlenT. apply lookup_lt_Some in Hv. lia. }
        rewrite Hcol. cbn [fmap option_fmap option_map].
        destruct b as [|b]; [by unfold pix; cbn [lookup list_lookup]; rewrite ?Hv|].
        specialize (HpixT a b). unfold pix in HpixT. rewrite Hcol in HpixT.
        unfold pix. cbn [lookup list_lookup]. exact HpixT.
      * destruct b as [|b]; [unfold pix; cbn [lookup list_lookup]; by rewrite Hv|].
        specialize (HpixT a b). unfold pix in HpixT.
        apply lookup_ge_None in Hv.
        rewrite (lookup_ge_None_2 (transpose w rest) a) in HpixT by lia.
        unfold pix. cbn [lookup list_lookup]. exact HpixT.
Qed.

Lemma map_map_shape {A B} (f : A -> B) (h w : nat) (g : list (list A)) :
  has_shape h w g -> has_shape h w (map (map f) g).
Proof.
  intros [Hlen Hrows]. split; [by rewrite length_map|].
  apply Forall_map. eapply Forall_impl; [exact Hrows|].
  intros row Hrow. cbn beta. by rewrite length_map.
Qed.

Lemma scaled_T_shape_pix (p : list (list Q)) :
  has_shape SIZE SIZE p ->
  has_shape SIZE SIZE (scaled_T p) /\
  forall a b, pix (scaled_T p) a b = (fun v => Some (Qred (v * 100))) <$> pix p b a.
Proof.
  intros Hp. unfold scaled_T.
  assert (Hwidth : width p = SIZE).
  { apply (has_shape_width SIZE SIZE p Hp). destruct Hp as [Hlen _].
    intros ->. by rewrite SIZE_value in Hlen. }
  rewrite Hwidth.
  pose proof (map_map_shape (fun v => Some (Qred (v * 100))) SIZE SIZE p Hp) as Hscaled.
  destruct (transpose_shape_pix SIZE SIZE _ Hscaled) as [Hshape Hpix].
  split; [done|]. intros a b. rewrite Hpix. apply pix_map.
Qed.

Lemma cut_shape_pix {A} (pt : part) (g : list (list A)) :
  has_shape SIZE SIZE g ->
  has_shape (extent pt) SIZE (cut pt g) /\
  forall a b, (a < extent pt)%nat -> pix (cut pt g) a b = pix g (first_row pt + a) b.
Proof.
  intros [Hlen Hrows]. rewrite SIZE_value in Hlen.
  destruct pt; cbn [cut extent first_row].
  - split; [split; [by rewrite SIZE_value | done] | done].
  - change (py_from 84 g) with (py_from (Z.of_nat 84) g).
    rewrite py_from_nonneg. change (SIZE / 2)%nat with 84%nat. split.
    + split; [rewrite length_drop; lia | by apply Forall_drop].
    + intros a b Ha. unfold pix. by rewrite lookup_drop.
  - change (py_upto 84 g) with (py_upto (Z.of_nat 84) g).
    unfold py_upto. rewrite py_bound_of_nat, take_min_length.
    change (SIZE / 2)%nat with 84%nat. split.
    + split; [rewrite length_take; lia | by apply Forall_take].
    + intros a b Ha. unfold pix. by rewrite lookup_take_lt.
Qed.

Lemma assign_layer_fits {A} (H W h w x y i : nat) (v layer : list (list A))
    (stack : list (list (list A))) :
  stack !! i = Some layer -> has_shape H W layer -> has_shape h w v ->
  (x + h <= H)%nat -> (y + w <= W)%nat ->
  exists layer',
    assign_layer i x y h w v stack = Ok (<[i := layer']> stack) /\
    has_shape H W layer' /\
    forall u t,
      pix layer' u t =
      if bool_decide ((x <= u < x + h)%nat /\ (y <= t < y + w)%nat)
      then pix v (u - x) (t - y) else pix layer u t.
Proof.
  intros Hi Hlayer Hv Hx Hy.
  destruct (assign_window_fits H W h w x y v layer Hlayer Hv Hx Hy)
    as (layer' & Hassign & Hshape & Hpix).
  exists layer'. unfold assign_layer. by rewrite Hi, Hassign.
Qed.

(** X14.  A patch of [SIZE] x [SIZE] that holds data enters layer [i] of
    the two stacks transposed and scaled by 100: pixel (r, c) of the patch
    lands at raster pixel (x_tile + c, y_tile + r), with the weight of the
    kernel at (c, r).  An interior patch gives all of its columns, a
    right-border patch columns 0 to 83 and a left-border patch columns 84
    to 167, which land from x_tile on.  Nothing else changes: the other
    pixels of the layer, the other layers, and the shape of the
    rasters. *)
Theorem patch_lands_transposed_at_its_offsets
    (fspecial_gauss : nat -> Z -> list (list Q)) (pt : part)
    (x_tile y_tile i H W : nat) (p : list (list Q)) (s : stacks)
    (layer wl : list (list (option Q))) :
  has_shape SIZE SIZE p -> has_data p = true ->
  has_shape SIZE SIZE (fspecial_gauss SIZE (sigma_of pt)) ->
  predictions s !! i = Some layer -> mults s !! i = Some wl ->
  has_shape H W layer -> has_shape H W wl ->
  (x_tile + extent pt <= H)%nat -> (y_tile + SIZE <= W)%nat ->
  exists layer' wl',
    add_patch fspecial_gauss pt x_tile y_tile p (s, i)
    = Ok ({| predictions := <[i := layer']> (predictions s);
             mults := <[i := wl']> (mults s) |}, S i) /\
    has_shape H W layer' /\ has_shape H W wl' /\
    (forall a b, (a < extent pt)%nat -> (b < SIZE)%nat ->
       pix layer' (x_tile + a) (y_tile + b)
       = (fun v => Some (Qred (v * 100))) <$> pix p b (first_row pt + a) /\
       pix wl' (x_tile + a) (y_tile + b)
       = Some <$> pix (fspecial_gauss SIZE (sigma_of pt)) (first_row pt + a) b) /\
    (forall u t,
       ~ ((x_tile <= u < x_tile + extent pt)%nat /\ (y_tile <= t < y_tile + SIZE)%nat) ->
       pix layer' u t = pix layer u t /\ pix wl' u t = pix wl u t).
Proof.
  intros Hp Hdata Hkernel Hlayer Hwl HshapeL HshapeW Hx Hy.
  destruct (scaled_T_shape_pix p Hp) as [HshapeT HpixT].
  destruct (cut_shape_pix pt (scaled_T p) HshapeT) as [HshapeC HpixC].
  assert (HshapeK : has_shape SIZE SIZE (kernel fspecial_gauss (sigma_of pt)))
    by (by apply map_map_shape).
  destruct (cut_shape_pix pt _ HshapeK) as [HshapeCK HpixCK].
  destruct (assign_layer_fits H W (extent pt) SIZE x_tile y_tile i _ layer _
              Hlayer HshapeL HshapeC Hx Hy) as (layer' & Hassign & Hshape' & Hpix').
  destruct (assign_layer_fits H W (extent pt) SIZE x_tile y_tile i _ wl _
              Hwl HshapeW HshapeCK Hx Hy) as (wl' & HassignW & HshapeW' & HpixW').
  exists layer', wl'. split.
  { unfold add_patch. by rewrite Hdata, Hassign, HassignW. }
  split; [done|]. split; [done|]. split.
  - intros a b Ha Hb. rewrite Hpix', HpixW'.
    rewrite !bool_decide_eq_true_2 by lia.
    replace (x_tile + a - x_tile)%nat with a by lia.
    replace (y_tile + b - y_tile)%nat with b by lia.
    rewrite HpixC, HpixT, HpixCK by done. split; [done|].
    unfold kernel. apply pix_map.
  - intros u t Hout. rewrite Hpix', HpixW'.
    by rewrite !bool_decide_eq_false_2.
Qed.
End Placement.

Lemma patch_assignment_writes_its_window_witness :
  ((1 + 2 <= 3)%nat -> (1 + 2 <= 4)%nat ->
   exists layer',
     Mosaic.assign_window 1 1 2 2 Examples.small_patch Examples.small_raster = Ok layer' /\
     Mosaic.has_shape 3 4 layer' /\
     forall i j,
       pix layer' i j =
       if bool_decide ((1 <= i < 1 + 2)%nat /\ (1 <= j < 1 + 2)%nat)
       then pix Examples.small_patch (i - 1) (j - 1) else pix Examples.small_raster i j) /\
  ((2 <= 2)%nat -> (2 <= 2)%nat -> (3 < 1 + 2)%nat \/ (4 < 1 + 2)%nat ->
   Mosaic.assign_window 1 1 2 2 Examples.small_patch Examples.small_raster
   = Raise ValueError).
Proof.
  apply (patch_assignment_writes_its_window 3 4 2 2 1 1
           Examples.small_patch Examples.small_raster).
  - split; [reflexivity | vm_compute; repeat constructor].
  - split; [reflexivity | vm_compute; repeat constructor].
Defined.

(** The patch at the lower right corner of the small raster, and one column
    further, where it does not fit. *)
Example small_patch_in_the_corner :
  Mosaic.assign_window 1 2 2 2 Examples.small_patch Examples.small_raster
  = Ok [[0; 0; 0; 0]; [0; 0; 1; 2]; [0; 0; 3; 4]]%nat /\
  Mosaic.assign_window 1 3 2 2 Examples.small_patch Examples.small_raster
  = Raise ValueError.
Proof. split; reflexivity. Qed.

Lemma patch_lands_transposed_at_its_offsets_witness :
  exists layer' wl',
    Mosaic.add_patch Examples.flat_kernel Mosaic.Whole 0 1 (Examples.const_patch (3 # 10))
      (Examples.blank_stacks, 1%nat)
    = Ok ({| Mosaic.predictions := <[1%nat := layer']> (Mosaic.predictions Examples.blank_stacks);
             Mosaic.mults := <[1%nat := wl']> (Mosaic.mults Examples.blank_stacks) |}, 2%nat) /\
    Mosaic.has_shape 168 169 layer' /\ Mosaic.has_shape 168 169 wl' /\
    (forall a b, (a < Mosaic.extent Mosaic.Whole)%nat -> (b < SIZE)%nat ->
       pix layer' (0 + a) (1 + b)
       = (fun v => Some (Qred (v * 100))) <$>
           pix (Examples.const_patch (3 # 10)) b (Mosaic.first_row Mosaic.Whole + a) /\
       pix wl' (0 + a) (1 + b)
       = Some <$> pix (Examples.flat_kernel SIZE (Mosaic.sigma_of Mosaic.Whole))
                      (Mosaic.first_row Mosaic.Whole + a) b) /\
    (forall u t,
       ~ ((0 <= u < 0 + Mosaic.extent Mosaic.Whole)%nat /\ (1 <= t < 1 + SIZE)%nat) ->
       pix layer' u t = pix (np_full 168 169 None) u t /\
       pix wl' u t = pix (np_full 168 169 (Some 0%Q)) u t).
Proof.
  apply (patch_lands_transposed_at_its_offsets Examples.flat_kernel Mosaic.Whole 0 1 1
           168 169 (Examples.const_patch (3 # 10)) Examples.blank_stacks
           (np_full 168 169 None) (np_full 168 169 (Some 0%Q))).
  - apply np_full_shape.
  - vm_compute. reflexivity.
  - apply np_full_shape.
  - reflexivity.
  - reflexivity.
  - apply np_full_shape.
  - apply np_full_shape.
  - vm_compute. lia.
  - vm_compute. lia.
Defined.

(** ** Mosaic reconciler: the shape of the stacks and of the result *)

Section Shapes.
Import Mosaic.

Lemma assign_window_shape {A} (H W h w x y : nat) (v layer layer' : list (list A)) :
  has_shape H W layer ->
  assign_window x y h w v layer = Ok layer' ->
  has_shape H W layer'.
Proof.
  intros Hlayer. unfold assign_window.
  set (h' := (Nat.min (x + h) (length layer) - Nat.min x (length layer))%nat).
  set (w' := (Nat.min (y + w) (width layer) - Nat.min y (width layer))%nat).
  destruct (rectangular h' w' (broadcast h' w' v)) eqn:Hrect; [|done].
  apply rectangular_spec in Hrect as [Hlenv Hrowsv]. intros [= <-].
  destruct Hlayer as [HlenL HrowsL].
  rewrite Forall_forall in HrowsL, Hrowsv.
  split.
  - rewrite !length_app, length_take, length_zip_with, length_take, !length_drop, Hlenv.
    subst h'. clear -HlenL. lia.
  - apply Forall_app. split; [|apply Forall_app; split].
    + apply Forall_take, Forall_forall, HrowsL.
    + apply Forall_forall. intros row Hrow.
      apply list_elem_of_lookup in Hrow as [k Hk].
      apply lookup_zip_with_Some in Hk as (r & vrow & -> & Hr & Hvrow).
      apply lookup_take_Some in Hr as [Hr _]. rewrite lookup_drop in Hr.
      assert (Hne : layer <> []) by (intros ->; by rewrite lookup_nil in Hr).
      pose proof (has_shape_width H W layer (conj HlenL (proj2 (Forall_forall _ _) HrowsL))
                    Hne) as Hwidth.
      rewrite !length_app, length_take, length_drop.
      rewrite (HrowsL r) by (by eapply list_elem_of_lookup_2).
      rewrite (Hrowsv vrow) by (by eapply list_elem_of_lookup_2).
      subst w'. rewrite Hwidth. clear. lia.
    + apply Forall_drop, Forall_forall, HrowsL.
Qed.

Lemma assign_layer_shape {A} (H W h w x y i : nat) (v : list (list A))
    (stack stack' : list (list (list A))) :
  Forall (has_shape H W) stack ->
  assign_layer i x y h w v stack = Ok stack' ->
  Forall (has_shape H W) stack' /\ length stack' = length stack.
Proof.
  intros Hstack. unfold assign_layer.
  destruct (stack !! i) as [layer|] eqn:Hi; [|done].
  destruct (assign_window x y h w v layer) as [layer'|] eqn:Hassign; [|done].
  cbn [rbind]. intros [= <-]. split; [|apply length_insert].
  apply Forall_insert; [done|].
  eapply assign_window_shape; [|exact Hassign].
  rewrite Forall_forall in Hstack. apply Hstack. by eapply list_elem_of_lookup_2.
Qed.

Section FillShape.
Variable fspecial_gauss : nat -> Z -> list (list Q).
Variables H W n : nat.

Lemma add_patch_shape (pt : part) (x_tile y_tile : nat) (p : list (list Q))
    (s s' : stacks) (i i' : nat) :
  stacks_shaped H W n s ->
  add_patch fspecial_gauss pt x_tile y_tile p (s, i) = Ok (s', i') ->
  stacks_shaped H W n s'.
Proof.
  intros (Hlp & Hlm & Hp & Hm). unfold add_patch.
  destruct (has_data p); [|by intros [= <- _]].
  destruct (assign_layer i _ _ _ _ _ (predictions s)) as [preds|] eqn:Hpreds; [|done].
  destruct (assign_layer i _ _ _ _ _ (mults s)) as [ms|] eqn:Hms; [|done].
  cbn [rbind]. intros [= <- _].
  destruct (assign_layer_shape _ _ _ _ _ _ _ _ _ _ Hp Hpreds) as [? ?].
  destruct (assign_layer_shape _ _ _ _ _ _ _ _ _ _ Hm Hms) as [? ?].
  repeat split; cbn [predictions mults]; try done; congruence.
Qed.

Lemma add_files_shape (pt : part) (x_tile : nat)
    (files : list (file_name * list (list Q))) (name : nat -> file_name -> bool)
    (y_tiles : list nat) (st st' : stacks * nat) :
  stacks_shaped H W n (fst st) ->
  add_files fspecial_gauss pt x_tile files name y_tiles st = Ok st' ->
  stacks_shaped H W n (fst st').
Proof.
  revert st. induction y_tiles as [|y_tile rest IH]; intros st Hst; cbn [add_files].
  - by intros [= <-].
  - destruct (load files (name y_tile)) as [p|]; [|by apply IH].
    destruct st as [s i].
    destruct (add_patch fspecial_gauss pt x_tile y_tile p (s, i)) as [[s1 i1]|] eqn:Hadd;
      [|done].
    cbn [rbind]. apply IH. cbn [fst]. by eapply add_patch_shape.
Qed.

Lemma add_interior_shape (d : list (dir_name * list (file_name * list (list Q))))
    (x_tiles : list nat) (st st' : stacks * nat) :
  stacks_shaped H W n (fst st) ->
  add_interior fspecial_gauss d x_tiles st = Ok st' ->
  stacks_shaped H W n (fst st').
Proof.
  revert st. induction x_tiles as [|x_tile rest IH]; intros st Hst; cbn [add_interior].
  - by intros [= <-].
  - destruct (add_files _ _ _ _ _ _ st) as [st1|] eqn:Hadd; [|done].
    cbn [rbind]. apply IH. by eapply add_files_shape.
Qed.

Lemma add_left_shape (d : list (dir_name * list (file_name * list (list Q))))
    (x_tiles : list nat) (st st' : stacks * nat) :
  stacks_shaped H W n (fst st) ->
  add_left fspecial_gauss d x_tiles st = Ok st' ->
  stacks_shaped H W n (fst st').
Proof.
  revert st. induction x_tiles as [|x_tile rest IH]; intros st Hst; cbn [add_left].
  - by intros [= <-].
  - destruct (add_files _ _ _ _ _ _ st) as [st1|] eqn:Hadd; [|done].
    cbn [rbind]. apply IH. by eapply add_files_shape.
Qed.

Lemma add_right_shape (d : list (dir_name * list (file_name * list (list Q))))
    (right : list nat) (st st' : stacks * nat) :
  stacks_shaped H W n (fst st) ->
  add_right fspecial_gauss d right st = Ok st' ->
  stacks_shaped H W n (fst st').
Proof.
  revert st. induction right as [|x_tile rest IH]; intros st Hst; cbn [add_right].
  - by intros [= <-].
  - destruct (right_ys _) as [ys|]; [|done]. cbn [rbind].
    destruct (add_files _ _ _ _ _ _ st) as [st1|] eqn:Hadd; [|done].
    cbn [rbind]. apply IH. by eapply add_files_shape.
Qed.
End FillShape.

Lemma fill_shape (fspecial_gauss : nat -> Z -> list (list Q))
    (d : list (dir_name * list (file_name * list (list Q)))) (l : layout) (s : stacks) :
  fill fspecial_gauss d l = Ok s ->
  stacks_shaped (max_x l) (max_y l) (n_tiles l) s.
Proof.
  unfold fill.
  set (st0 := ({| predictions := replicate (n_tiles l) (np_full (max_x l) (max_y l) None);
                  mults := replicate (n_tiles l)
                             (np_full (max_x l) (max_y l) (Some 0%Q)) |}, 0%nat)).
  assert (Hst0 : stacks_shaped (max_x l) (max_y l) (n_tiles l) (fst st0)).
  { repeat split; cbn [fst st0 predictions mults]; rewrite ?length_replicate; try done;
      apply Forall_replicate, np_full_shape. }
  destruct (add_interior _ _ _ st0) as [st1|] eqn:H1; [|done]. cbn [rbind].
  pose proof (add_interior_shape _ _ _ _ _ _ _ _ Hst0 H1) as Hst1.
  destruct (if (0 <? n_border l)%nat then _ else _) as [st2|] eqn:H2; [|done]. cbn [rbind].
  assert (Hst2 : stacks_shaped (max_x l) (max_y l) (n_tiles l) (fst st2)).
  { destruct (0 <? n_border l)%nat; [by eapply add_left_shape | by injection H2 as <-]. }
  destruct (add_right _ _ _ st2) as [st3|] eqn:H3; [|done]. cbn [rbind].
  intros [= <-]. by eapply add_right_shape.
Qed.

Lemma blank_layer_shape {A} (h w : nat) (v : A) (layer : list (list A)) :
  has_shape h w layer -> has_shape h w (blank_layer v layer).
Proof. apply map_map_shape. Qed.

Lemma reject_loop_shape (v : verdicts) (range : list (list (option Q))) (h w n : nat)
    (idxs : list nat) (s s' : stacks) :
  stacks_shaped h w n s ->
  reject_loop v range idxs s = Ok s' ->
  stacks_shaped h w n s'.
Proof.
  revert s. induction idxs as [|i rest IH]; intros s Hs; cbn [reject_loop].
  - by intros [= <-].
  - destruct (reject_one v range i s) as [s1|] eqn:Hone; [|done]. cbn [rbind].
    apply IH. revert Hone. unfold reject_one.
    destruct (predictions s !! i) as [layer|] eqn:Hlayer; [|done].
    destruct (is_outlier v range layer) as [[|]|]; cbn [rbind]; [|by intros [= <-]|done].
    intros [= <-]. destruct Hs as (Hlp & Hlm & Hp & Hm).
    repeat split; cbn [predictions mults].
    + by rewrite length_insert.
    + by rewrite length_alter.
    + apply Forall_insert; [done|]. apply blank_layer_shape.
      rewrite Forall_forall in Hp. apply Hp. by eapply list_elem_of_lookup_2.
    + apply Forall_alter; [done|]. intros wl Hwl. by apply blank_layer_shape.
Qed.

Lemma reject_outliers_shape (l : layout) (h w n : nat) (s s' : stacks) :
  stacks_shaped h w n s -> reject_outliers l s = Ok s' -> stacks_shaped h w n s'.
Proof.
  intros Hs. unfold reject_outliers.
  destruct (predictions_range (predictions s)) as [range|]; [|done]. cbn [rbind].
  by apply reject_loop_shape.
Qed.

Lemma grid_zip_shape {A B C} (f : A -> B -> C) (h w : nat)
    (a : list (list A)) (b : list (list B)) :
  has_shape h w a -> has_shape h w b -> has_shape h w (grid_zip f a b).
Proof.
  intros [Hla Hra] [Hlb Hrb]. unfold grid_zip. split.
  - rewrite length_zip_with. lia.
  - apply Forall_forall. intros row Hrow.
    apply list_elem_of_lookup in Hrow as [k Hk].
    apply lookup_zip_with_Some in Hk as (ra & rb & -> & Ha & Hb).
    rewrite Forall_forall in Hra. rewrite Forall_forall in Hrb.
    rewrite length_zip_with.
    rewrite (Hra ra) by (by eapply list_elem_of_lookup_2).
    rewrite (Hrb rb) by (by eapply list_elem_of_lookup_2). lia.
Qed.

Lemma fold_grid_zip_shape {A B} (f : B -> A -> B) (h w : nat)
    (stack : list (list (list A))) (init : list (list B)) :
  Forall (has_shape h w) stack -> has_shape h w init ->
  has_shape h w (fold_left (grid_zip f) stack init).
Proof.
  intros Hstack. revert init.
  induction Hstack as [|layer stack Hlayer Hstack IH]; intros init Hinit; [done|].
  cbn [fold_left]. apply IH. by apply grid_zip_shape.
Qed.

Lemma fuse_shape (h w n : nat) (s : stacks) :
  stacks_shaped h w n s ->
  has_shape h w (fst (fuse h w s)) /\
  length (snd (fuse h w s)) = n /\ Forall (has_shape h w) (snd (fuse h w s)).
Proof.
  intros (Hlp & Hlm & Hp & Hm).
  assert (Hnorm : Forall (has_shape h w) (normalize h w (mults s))).
  { unfold normalize. apply Forall_map. eapply Forall_impl; [exact Hm|].
    intros layer Hlayer. cbn beta. apply grid_zip_shape; [done|].
    unfold sum_layers. apply fold_grid_zip_shape; [done | apply np_full_shape]. }
  assert (Hclip : Forall (has_shape h w) (map (map (map clip_invalid)) (predictions s))).
  { apply Forall_map. eapply Forall_impl; [exact Hp|].
    intros layer Hlayer. by apply map_map_shape. }
  split; [|split; [|exact Hnorm]].
  - unfold fuse. cbn [fst]. apply map_map_shape, map_map_shape, grid_zip_shape.
    + unfold nansum_layers. apply fold_grid_zip_shape; [|apply np_full_shape].
      apply Forall_forall. intros layer Hlayer.
      apply list_elem_of_lookup in Hlayer as [k Hk].
      apply lookup_zip_with_Some in Hk as (a & b & -> & Ha & Hb).
      rewrite Forall_forall in Hclip, Hnorm.
      apply grid_zip_shape; [apply Hclip | apply Hnorm]; by eapply list_elem_of_lookup_2.
    + unfold count_nan. apply fold_grid_zip_shape; [done | apply np_full_shape].
  - unfold fuse. cbn [snd]. unfold normalize. by rewrite length_map.
Qed.

Lemma Forall2_shape {A} (R : A -> A -> Prop) (h w : nat) (g g' : list (list A)) :
  Forall2 (Forall2 R) g g' -> has_shape h w g -> has_shape h w g'.
Proof.
  intros Hrel [Hlen Hrows]. split.
  - by rewrite <- (Forall2_length _ _ _ Hrel).
  - clear Hlen. induction Hrel as [|row row' g g' Hrow Hrel IH]; [done|].
    apply Forall_cons in Hrows as [Hlen Hrows].
    constructor; [|by apply IH]. by rewrite <- (Forall2_length _ _ _ Hrow).
Qed.

Lemma postprocess_shape (h w : nat) (g : list (list Z)) :
  has_shape h w g -> has_shape h w (postprocess g).
Proof.
  intros Hg. unfold postprocess, cleanup. apply map_map_shape.
  eapply Forall2_shape; [apply scan_rows_kept_or_zero | done].
Qed.

Lemma threshold_values (v : Z) :
  (threshold v = 0 \/ 21 <= threshold v <= 100 \/ threshold v = 255)%Z.
Proof.
  unfold threshold.
  destruct (Z.leb_spec v 20); [left; by destruct (Z.ltb_spec 100 0); [lia|]|].
  destruct (Z.ltb_spec 100 v); [by right; right | right; left; lia].
Qed.

(** X15.  Once the folder is enumerated, the stacks are filled and the
    outlier rejection has returned, recreate_resegmented_tifs returns: the
    raster has [max(x_tiles) + SIZE] rows and [max_y] columns, there is
    one weight raster of that shape for every patch file of the folder,
    and every pixel of the raster is 0, a percentage from 21 to 100, or
    the no-data value 255. *)
Theorem returned_raster_has_the_tile_shape
    (fspecial_gauss : nat -> Z -> list (list Q))
    (d : list (dir_name * list (file_name * list (list Q)))) (l : layout)
    (s s' : stacks) :
  enumerate d = Ok l ->
  fill fspecial_gauss d l = Ok s ->
  reject_outliers l s = Ok s' ->
  exists raster blend,
    recreate_resegmented_tifs fspecial_gauss d = Ok (raster, blend) /\
    has_shape (max_x l) (max_y l) raster /\
    length blend = n_tiles l /\
    Forall (has_shape (max_x l) (max_y l)) blend /\
    forall x y v, pix raster x y = Some v -> (v = 0 \/ 21 <= v <= 100 \/ v = 255)%Z.
Proof.
  intros Hl Hfill Hreject.
  pose proof (fill_shape _ _ _ _ Hfill) as Hs.
  pose proof (reject_outliers_shape _ _ _ _ _ _ Hs Hreject) as Hs'.
  destruct (fuse_shape _ _ _ _ Hs') as (Hfused & Hlen & Hweights).
  exists (postprocess (fst (fuse (max_x l) (max_y l) s'))),
         (snd (fuse (max_x l) (max_y l) s')).
  split.
  { unfold recreate_resegmented_tifs, reconcile, load_stacks.
    rewrite Hl. cbn [rbind]. rewrite Hfill. cbn [rbind]. rewrite Hreject. cbn [rbind].
    by destruct (fuse (max_x l) (max_y l) s'). }
  split; [by apply postprocess_shape|]. split; [done|]. split; [done|].
  intros x y v. unfold postprocess. rewrite pix_map.
  destruct (pix (cleanup _) x y) as [u|]; [|done].
  intros [= <-]. apply threshold_values.
Qed.
End Shapes.

Lemma returned_raster_has_the_tile_shape_witness :
  exists raster blend,
    Mosaic.recreate_resegmented_tifs Examples.flat_kernel Examples.interior_outlier_folder
    = Ok (raster, blend) /\
    Mosaic.has_shape (Mosaic.max_x Examples.outlier_layout)
                     (Mosaic.max_y Examples.outlier_layout) raster /\
    length blend = Mosaic.n_tiles Examples.outlier_layout /\
    Forall (Mosaic.has_shape (Mosaic.max_x Examples.outlier_layout)
                             (Mosaic.max_y Examples.outlier_layout)) blend /\
    forall x y v, pix raster x y = Some v -> (v = 0 \/ 21 <= v <= 100 \/ v = 255)%Z.
Proof.
  apply (returned_raster_has_the_tile_shape Examples.flat_kernel
           Examples.interior_outlier_folder Examples.outlier_layout
           Examples.outlier_stacks Examples.rejected_stacks).
  - reflexivity.
  - vm_compute. reflexivity.
  - vm_compute. reflexivity.
Defined.

(** ** Mosaic reconciler: the reach of the cleanup *)

Section CleanupReach.
Import Mosaic.

(** The inner loop writes columns 0 to [passes + 1] only. *)
Lemma scan_band_beyond (passes : nat) (r0 r1 r2 : list Z) (j : nat) :
  passes = 0%nat \/ (passes + 2 <= j)%nat ->
  (scan_band passes r0 r1 r2).1.1 !! j = r0 !! j /\
  (scan_band passes r0 r1 r2).1.2 !! j = r1 !! j /\
  (scan_band passes r0 r1 r2).2 !! j = r2 !! j.
Proof.
  revert r0 r1 r2 j. induction passes as [|k IH]; intros r0 r1 r2 j Hj; [done|].
  destruct Hj as [|Hj]; [done|]. cbn [scan_band].
  destruct r0 as [|a0 [|a1 [|a2 t0]]]; try done.
  destruct r1 as [|b0 [|b1 [|b2 t1]]]; try done.
  destruct r2 as [|c0 [|c1 [|c2 t2]]]; try done.
  destruct (visit_nine a0 a1 a2 b0 b1 b2 c0 c1 c2)
    as (a0' & a1' & a2' & b0' & b1' & b2' & c0' & c1' & c2' & -> & _).
  destruct j as [|[|[|j]]]; try lia.
  specialize (IH (a1' :: a2' :: t0) (b1' :: b2' :: t1) (c1' :: c2' :: t2) (S (S j))).
  destruct (scan_band k _ _ _) as [[r0' r1'] r2']. cbn [fst snd] in *.
  destruct IH as (H0 & H1 & H2); [right; lia|].
  cbn [lookup list_lookup] in *. done.
Qed.

Lemma scan_rows_beyond_column (passes inner : nat) (g : list (list Z)) (i j : nat) :
  inner = 0%nat \/ (inner + 2 <= j)%nat ->
  pix (scan_rows passes inner g) i j = pix g i j.
Proof.
  intros Hj. revert g i. induction passes as [|k IH]; intros g i; [done|].
  cbn [scan_rows].
  destruct g as [|r0 [|r1 [|r2 rest]]]; try done.
  destruct (scan_band_beyond inner r0 r1 r2 j Hj) as (H0 & H1 & H2).
  destruct (scan_band inner r0 r1 r2) as [[r0' r1'] r2']. cbn [fst snd] in *.
  destruct i as [|i]; [exact H0|].
  change (pix (r0' :: scan_rows k inner (r1' :: r2' :: rest)) (S i) j)
    with (pix (scan_rows k inner (r1' :: r2' :: rest)) i j).
  rewrite IH. destruct i as [|[|i]]; [exact H1 | exact H2 | done].
Qed.

(** The outer loop writes rows 0 to [passes + 1] only. *)
Lemma scan_rows_beyond_row (passes inner : nat) (g : list (list Z)) (i : nat) :
  passes = 0%nat \/ (passes + 2 <= i)%nat ->
  scan_rows passes inner g !! i = g !! i.
Proof.
  revert g i. induction passes as [|k IH]; intros g i Hi; [done|].
  destruct Hi as [|Hi]; [done|]. cbn [scan_rows].
  destruct g as [|r0 [|r1 [|r2 rest]]]; try done.
  destruct (scan_band inner r0 r1 r2) as [[r0' r1'] r2'].
  destruct i as [|[|[|i]]]; try lia.
  transitivity (scan_rows k inner (r1' :: r2' :: rest) !! S (S i)); [done|].
  by rewrite IH by (right; lia).
Qed.

(** X16.  The two cleanup loops run over [range(0, shape - 3)], so the last
    window they visit ends one pixel short of the raster: the pixels of
    the last row and of the last column are never written by the cleanup
    and are returned as the fusion left them, thresholded. *)
Theorem cleanup_spares_the_last_row_and_column (h w : nat) (g : list (list Z)) :
  has_shape h w g ->
  (forall y, pix (postprocess g) (h - 1) y = threshold <$> pix g (h - 1) y) /\
  (forall x, pix (postprocess g) x (w - 1) = threshold <$> pix g x (w - 1)).
Proof.
  intros Hg. unfold postprocess, cleanup. split.
  - intros y. rewrite pix_map. f_equal. unfold pix.
    rewrite scan_rows_beyond_row; [done|].
    destruct Hg as [<- _]. lia.
  - intros x. rewrite pix_map. f_equal.
    apply scan_rows_beyond_column.
    destruct (decide (g = [])) as [-> | Hne]; [by left|].
    rewrite (has_shape_width h w g Hg Hne). lia.
Qed.
End CleanupReach.

Lemma cleanup_spares_the_last_row_and_column_witness :
  (forall y, pix (Mosaic.postprocess Examples.peak_raster) (5 - 1) y
             = Mosaic.threshold <$> pix Examples.peak_raster (5 - 1) y) /\
  (forall x, pix (Mosaic.postprocess Examples.peak_raster) x (5 - 1)
             = Mosaic.threshold <$> pix Examples.peak_raster x (5 - 1)).
Proof.
  apply (cleanup_spares_the_last_row_and_column 5 5 Examples.peak_raster).
  split; [reflexivity | repeat constructor].
Defined.

(** On the raster of the example the cleanup zeroes the ring around the lone
    peak at (1, 1); the peak at (4, 4) is the centre of no window, and row 4
    and column 4 are as they were. *)
Example peak_raster_after_cleanup :
  Mosaic.cleanup Examples.peak_raster =
  [[0; 0; 0; 24; 24];
   [0; 60; 0; 24; 24];
   [0; 0; 0; 24; 24];
   [24; 24; 24; 24; 24];
   [24; 24; 24; 24; 90]]%Z /\
  Mosaic.postprocess Examples.peak_raster =
  [[0; 0; 0; 24; 24];
   [0; 60; 0; 24; 24];
   [0; 0; 0; 24; 24];
   [24; 24; 24; 24; 24];
   [24; 24; 24; 24; 90]]%Z.
Proof. split; vm_compute; reflexivity. Qed.

(** ** Mosaic reconciler: tiles whose patches agree *)

Section Agreement.
Import Mosaic.

Lemma split_n_length {A} (parts len : nat) (l : list A) :
  length (split_n parts len l) = parts.
Proof.
  revert l. induction parts as [|k IH]; intros l; cbn [split_n length]; [done|].
  by rewrite IH.
Qed.

Lemma split_n_Forall {A} (P : A -> Prop) (parts len : nat) (l : list A) :
  Forall P l ->
  Forall (fun piece => Forall P piece /\ (length piece <= len)%nat) (split_n parts len l).
Proof.
  revert l. induction parts as [|k IH]; intros l Hl; cbn [split_n]; constructor.
  - split; [by apply Forall_take | rewrite length_take; lia].
  - apply IH. by apply Forall_drop.
Qed.

Lemma flat_map_bound {A B} (P : B -> Prop) (f : A -> list B) (b : nat) (l : list A) :
  Forall (fun x => Forall P (f x) /\ (length (f x) <= b)%nat) l ->
  Forall P (flat_map f l) /\ (length (flat_map f l) <= b * length l)%nat.
Proof.
  induction 1 as [|x l [HP Hlen] Hl [IHP IHlen]]; cbn [flat_map length]; [split; [done|lia]|].
  split; [by apply Forall_app|]. rewrite length_app. lia.
Qed.

Lemma foldr_Qplus_bound (c : Q) (l : list Q) :
  Forall (fun q => (q <= c)%Q) l ->
  (foldr Qplus 0 l <= c * of_nat (length l))%Q.
Proof.
  induction 1 as [|q l Hq Hl IH]; cbn [foldr length].
  - change (of_nat 0) with 0%Q. lra.
  - unfold of_nat in *. rewrite Nat2Z.inj_succ, <- Z.add_1_r, inject_Z_plus.
    change (inject_Z 1) with 1%Q. lra.
Qed.

(** The mean of at most [b] values, none above [c >= 0], over the divisor
    [b] is not above [c]. *)
Lemma block_mean_bound (c : Q) (b : nat) (l : list Q) :
  (0 <= c)%Q -> (0 < b)%nat -> (length l <= b)%nat ->
  Forall (fun q => (q <= c)%Q) l ->
  Qltb c (Qred (qsum l / of_nat b)) = false.
Proof.
  intros Hc Hb Hlen Hl.
  destruct (Qltb c (Qred (qsum l / of_nat b))) eqn:Hlt; [|done].
  exfalso. apply Qltb_lt in Hlt. rewrite Qred_correct, qsum_foldr in Hlt.
  pose proof (foldr_Qplus_bound c l Hl) as Hsum.
  assert (Hlb : (of_nat (length l) <= of_nat b)%Q).
  { unfold of_nat. rewrite <- Zle_Qle. lia. }
  assert (Hbpos : (0 < of_nat b)%Q).
  { unfold of_nat. change 0%Q with (inject_Z 0). rewrite <- Zlt_Qlt. lia. }
  assert (Hle : (foldr Qplus 0 l <= c * of_nat b)%Q).
  { eapply Qle_trans; [exact Hsum|].
    rewrite (Qmult_comm c (of_nat (length l))), (Qmult_comm c (of_nat b)).
    by apply Qmult_le_compat_r. }
  apply Qlt_not_le in Hlt. apply Hlt.
  apply Qle_shift_div_r; [done|]. exact Hle.
Qed.

Lemma nth_Forall {A} (P : A -> Prop) (l : list A) (d : A) (c : nat) :
  Forall P l -> P d -> P (nth c l d).
Proof.
  intros Hl Hd. revert c. induction Hl as [|x l Hx Hl IH]; intros [|c]; cbn [nth]; auto.
Qed.

Lemma filter_none {A} (P : A -> Prop) `{!forall x, Decision (P x)} (l : list A) :
  Forall (fun x => ~ P x) l -> filter P l = [].
Proof.
  induction 1 as [|x l Hx Hl IH]; [done|].
  rewrite filter_cons. by destruct (decide (P x)).
Qed.

Lemma Ok_eq {A} (a b : A) : @Ok A a = Ok b -> a = b.
Proof. by intros [= ->]. Qed.

Lemma block_means_low (v : list Q) (means : list (list Q)) :
  Forall (fun q => (q <= 50)%Q) v ->
  block_means v = Ok means -> count_above 50 means = 0%nat.
Proof.
  intros Hv. unfold block_means.
  destruct (length v =? 3 * 56 * 3 * 56)%nat; [|done]. intros Heq.
  apply Ok_eq in Heq. subst means.
  unfold count_above. apply length_zero_iff_nil, filter_none.
  apply Forall_concat, Forall_map.
  eapply Forall_impl; [apply (split_n_Forall _ 3 (56 * (3 * 56)) v Hv)|].
  intros band [Hband _]. cbv zeta. apply Forall_map, Forall_forall. intros c _.
  rewrite block_mean_bound; [done|lra|lia| |].
  - set (rows := map (split_n 3 56) (split_n 56 (3 * 56) band)).
    replace (56 * 56)%nat with (56 * length rows)%nat
      by (subst rows; by rewrite length_map, split_n_length).
    apply (flat_map_bound (fun q => (q <= 50)%Q)).
    subst rows. apply Forall_map.
    eapply Forall_impl; [apply (split_n_Forall _ 56 (3 * 56) band Hband)|].
    intros piece [Hpiece _].
    apply (nth_Forall (fun cell => Forall (fun q => (q <= 50)%Q) cell /\ (length cell <= 56)%nat)).
    + apply split_n_Forall, Hpiece.
    + split; [done|cbn [length]; lia].
  - set (rows := map (split_n 3 56) (split_n 56 (3 * 56) band)).
    apply (flat_map_bound (fun q => (q <= 50)%Q) _ 56 rows).
    subst rows. apply Forall_map.
    eapply Forall_impl; [apply (split_n_Forall _ 56 (3 * 56) band Hband)|].
    intros piece [Hpiece _].
    apply (nth_Forall (fun cell => Forall (fun q => (q <= 50)%Q) cell /\ (length cell <= 56)%nat)).
    + apply split_n_Forall, Hpiece.
    + split; [done|cbn [length]; lia].
Qed.

Lemma range_on_low (range layer : list (list (option Q))) :
  agree range = true -> Forall (fun q => (q <= 50)%Q) (range_on range layer).
Proof.
  intros Hagree. apply Forall_forall. intros q Hq.
  unfold range_on, numbers in Hq.
  apply list_elem_of_omap in Hq as (cell & Hcell & Hnum). cbn in Hnum. subst cell.
  apply list_elem_of_In, in_concat in Hcell as (row & Hrow & Hin).
  apply list_elem_of_In, elem_of_zip_with in Hrow as (rrow & lrow & -> & Hrrow & _).
  apply list_elem_of_In, elem_of_zip_with in Hin as (r & v & Hrv & Hr & _).
  assert (r = Some q) as -> by (destruct v; [done|discriminate]).
  unfold agree in Hagree. rewrite forallb_forall in Hagree.
  apply list_elem_of_In, Hagree in Hrrow. rewrite forallb_forall in Hrrow.
  apply list_elem_of_In, Hrrow in Hr. apply negb_true_iff in Hr.
  cbn [fgt] in Hr. unfold Qltb in Hr. apply negb_false_iff, Qle_bool_iff in Hr. exact Hr.
Qed.

Lemma is_outlier_low (v : verdicts) (range layer : list (list (option Q))) :
  agree range = true -> reshapable range layer = true ->
  is_outlier v range layer = Ok false.
Proof.
  intros Hagree Hshape.
  destruct (is_outlier_reshapable v range layer Hshape) as [b Hb]. rewrite Hb.
  unfold is_outlier in Hb. cbv zeta in Hb.
  destruct (0 <? length (range_on range layer))%nat; [|done].
  destruct (block_means (range_on range layer)) as [means|e] eqn:Hmeans; [|done].
  apply block_means_low in Hmeans; [|by apply range_on_low].
  cbn [rbind] in Hb. rewrite Hmeans in Hb. cbn in Hb. done.
Qed.

Lemma reject_loop_agree (v : verdicts) (range : list (list (option Q))) (s : stacks)
    (idxs : list nat) :
  agree range = true ->
  (forall i, i ∈ idxs ->
     exists layer, predictions s !! i = Some layer /\ reshapable range layer = true) ->
  reject_loop v range idxs s = Ok s.
Proof.
  intros Hagree. induction idxs as [|i rest IH]; intros Hidx; [done|].
  cbn [reject_loop]. destruct (Hidx i) as (layer & Hlayer & Hshape); [left|].
  unfold reject_one. rewrite Hlayer, (is_outlier_low v range layer Hagree Hshape).
  cbn [rbind]. apply IH. intros j Hj. apply Hidx. by right.
Qed.

(** X17.  Outlier rejection leaves a tile alone when its patches agree: when
    the range of the stacked predictions is nowhere above 50 (pixels without
    any prediction aside) and the reshape of line 666 fits each examined
    patch, the loop of lines 663-672 blanks no patch and no weight, and the
    stacks come out as they went in. *)
Theorem agreeing_patches_are_never_rejected (l : layout) (s : stacks)
    (range : list (list (option Q))) :
  predictions_range (predictions s) = Ok range ->
  agree range = true ->
  forallb (reshapable range) (take (examined l s) (predictions s)) = true ->
  reject_outliers l s = Ok s.
Proof.
  intros Hrange Hagree Hshape. unfold reject_outliers. rewrite Hrange. cbn [rbind]. cbv zeta.
  apply reject_loop_agree; [done|].
  intros i Hi. apply elem_of_seq in Hi as [_ Hi]. cbn in Hi.
  assert (Hlt : (i < length (predictions s))%nat) by (unfold examined in Hi; lia).
  apply lookup_lt_is_Some_2 in Hlt as [layer Hlayer]. exists layer. split; [done|].
  rewrite forallb_forall in Hshape. apply Hshape, list_elem_of_In.
  apply (list_elem_of_lookup_2 _ i). by rewrite lookup_take_lt.
Qed.

Lemma agreeing_patches_are_never_rejected_witness :
  reject_outliers Examples.outlier_layout Examples.agreeing_stacks
  = Ok Examples.agreeing_stacks.
Proof.
  apply (agreeing_patches_are_never_rejected _ _ Examples.agreeing_range);
    vm_compute; reflexivity.
Defined.
End Agreement.
(** ** Mosaic reconciler: the fused value is bounded by the predictions *)

Section FusedBound.
Import Mosaic.

Notation count_step :=
  (fun (n : nat) (v : option Q) => match v with None => S n | Some _ => n end).

Lemma count_nan_le (vals : list (option Q)) (n : nat) :
  (fold_left count_step vals n <= n + length vals)%nat.
Proof.
  revert n. induction vals as [|v vals IH]; intros n; cbn [fold_left length]; [lia|].
  specialize (IH (count_step n v)). destruct v; cbn beta iota in *; lia.
Qed.

Lemma count_nan_lt (vals : list (option Q)) (n : nat) :
  Exists is_Some vals -> (fold_left count_step vals n < n + length vals)%nat.
Proof.
  intros Hex. revert n.
  induction Hex as [v vals [q ->] | v vals Hex IH]; intros n; cbn [fold_left length].
  - pose proof (count_nan_le vals n). cbn beta iota. lia.
  - specialize (IH (count_step n v)). destruct v; cbn beta iota in *; lia.
Qed.

Lemma clip_within (hi : Q) (ps : list (option Q)) :
  (hi <= 100)%Q -> Forall (within hi) ps -> map clip_invalid ps = ps.
Proof.
  intros Hhi. induction 1 as [|p ps Hp Hps IH]; cbn [map]; [done|].
  rewrite IH. f_equal. destruct p as [q|]; [|done].
  unfold clip_invalid. cbn [fgt].
  destruct (Qltb 100 q) eqn:Hlt; [|done].
  apply Qltb_lt in Hlt. cbn [within] in Hp. lra.
Qed.

Lemma nansum_bound (hi : Q) (ps : list (option Q)) :
  (0 <= hi)%Q -> Forall (within hi) ps ->
  forall (ns : list Q) (a : Q), Forall (fun n => (0 <= n)%Q) ns ->
  exists q, fold_left nan_add (zip_with fmul ps (map Some ns)) (Some a) = Some q /\
            (a <= q <= a + hi * foldr Qplus 0 ns)%Q.
Proof.
  intros Hhi. induction 1 as [|p ps Hp Hps IH]; intros ns a Hns.
  - exists a. split; [done|].
    pose proof (Qmult_le_0_compat _ _ Hhi (foldr_Qplus_nonneg ns Hns)). lra.
  - destruct Hns as [|n ns Hn Hns]; cbn [map zip_with fold_left foldr].
    + exists a. split; [done|]. lra.
    + pose proof (Qmult_le_0_compat _ _ Hhi Hn) as Hhn.
      destruct p as [v|]; cbn [fmul nan_add].
      * cbn [within] in Hp. destruct Hp as [Hv0 Hvhi].
        destruct (IH ns (a + v * n)%Q Hns) as (q & Hq & Hlo & Hup).
        exists q. split; [done|].
        pose proof (Qmult_le_0_compat _ _ Hv0 Hn) as Hvn.
        pose proof (Qmult_le_compat_r _ _ n Hvhi Hn) as Hle.
        rewrite Qmult_plus_distr_r. lra.
      * destruct (IH ns a Hns) as (q & Hq & Hlo & Hup).
        exists q. split; [done|]. rewrite Qmult_plus_distr_r. lra.
Qed.

Lemma normalized_column (h w : nat) (mults : list (list (list (option Q))))
    (x y : nat) (ws : list Q) :
  (x < h)%nat -> (y < w)%nat ->
  column_at mults x y = Some (map Some ws) ->
  Forall (fun q => (0 <= q)%Q) ws ->
  Exists (fun q => (0 < q)%Q) ws ->
  exists ns, column_at (normalize h w mults) x y = Some (map Some ns) /\
             Forall (fun n => (0 <= n)%Q) ns /\ (foldr Qplus 0 ns == 1)%Q.
Proof.
  intros Hx Hy Hcol Hnonneg Hpos.
  pose proof (normalize_column h w mults x y _ Hx Hy Hcol) as Hnorm.
  rewrite fold_left_fadd_numbers in Hnorm.
  set (W := fold_left Qplus ws 0%Q) in *.
  assert (HW : (0 < W)%Q).
  { unfold W. rewrite fold_left_Qplus, Qplus_0_l. by apply foldr_Qplus_pos. }
  assert (Hnz : Qeq_bool W 0 = false).
  { apply not_true_iff_false. rewrite Qeq_bool_iff. intros Heq.
    rewrite Heq in HW. by apply Qlt_irrefl in HW. }
  exists (map (fun q => q / W)%Q ws). split; [|split].
  - rewrite Hnorm. f_equal. rewrite !map_map. apply map_ext. intros q. cbn [fdiv].
    by rewrite Hnz.
  - apply Forall_map. eapply Forall_impl; [exact Hnonneg|].
    intros q Hq. cbn beta. apply Qle_shift_div_l; [done|]. by rewrite Qmult_0_l.
  - rewrite foldr_Qplus_div.
    assert (Hsame : (foldr Qplus 0 ws == W)%Q).
    { unfold W. rewrite fold_left_Qplus. ring. }
    rewrite Hsame. apply Qmult_inv_r. intros Heq.
    rewrite Heq in HW. by apply Qlt_irrefl in HW.
Qed.

Lemma to_uint8_bound (q : Q) (hi : Z) :
  (0 <= q <= inject_Z hi)%Q -> (hi < 256)%Z ->
  (0 <= to_uint8 (Some q) <= hi)%Z.
Proof.
  intros [Hlo Hup] Hhi. unfold to_uint8.
  assert (Hnum : (0 <= Qnum q)%Z).
  { unfold Qle in Hlo. cbn in Hlo. lia. }
  rewrite Z.quot_div_nonneg by lia.
  replace (Qnum q / Z.pos (Qden q))%Z with (Qfloor q) by (by destruct q).
  pose proof (Qfloor_resp_le _ _ Hlo) as H0. pose proof (Qfloor_resp_le _ _ Hup) as H1.
  rewrite Qfloor_Z in H1. change (Qfloor 0) with 0%Z in H0.
  rewrite Z.mod_small by lia. lia.
Qed.

(** X18.  Fusion never raises a pixel above the predictions that go into
    it.  At a pixel where the weights are not negative and one is positive,
    where every patch holds not-a-number or a value from 0 to [hi] (at most
    100), and where one patch at least holds a number, the fused raster of
    line 683 holds a value from 0 to [hi], and not the no-data value 255. *)
Theorem fused_pixel_never_exceeds_the_highest_prediction
    (h w : nat) (s : stacks) (x y : nat) (ps : list (option Q)) (ws : list Q) (hi : Z) :
  (x < h)%nat -> (y < w)%nat ->
  column_at (predictions s) x y = Some ps ->
  column_at (mults s) x y = Some (map Some ws) ->
  Forall (fun q => (0 <= q)%Q) ws -> Exists (fun q => (0 < q)%Q) ws ->
  (hi <= 100)%Z ->
  Forall (within (inject_Z hi)) ps -> Exists is_Some ps ->
  exists v, pix (fst (fuse h w s)) x y = Some v /\ (0 <= v <= hi)%Z.
Proof.
  intros Hx Hy Hps Hms Hnonneg Hpos Hhi Hwithin Hsome.
  assert (Hhi100 : (inject_Z hi <= 100)%Q).
  { change 100%Q with (inject_Z 100). by rewrite <- Zle_Qle. }
  assert (Hhi0 : (0 <= inject_Z hi)%Q).
  { apply Exists_exists in Hsome as (p & Hin & [q ->]).
    rewrite Forall_forall in Hwithin. apply Hwithin in Hin. cbn [within] in Hin. lra. }
  destruct (normalized_column h w (mults s) x y ws Hx Hy Hms Hnonneg Hpos)
    as (ns & Hnorm & Hns & Hone).
  apply column_at_Forall2 in Hps, Hnorm.
  pose proof (Forall2_map_pix clip_invalid _ _ x y Hps) as Hclipped.
  rewrite (clip_within _ ps Hhi100 Hwithin) in Hclipped.
  unfold fuse. cbn [fst].
  rewrite !pix_map, pix_grid_zip.
  set (preds := map (map (map clip_invalid)) (predictions s)) in *.
  assert (Hout : exists n, pix (count_nan h w preds) x y = Some n /\ (n < length preds)%nat).
  { unfold count_nan.
    rewrite (pix_fold_left _ _ _ _ 0%nat x y Hclipped) by (by apply pix_np_full).
    eexists. split; [reflexivity|].
    apply Forall2_length in Hclipped. rewrite Hclipped.
    apply (count_nan_lt ps 0 Hsome). }
  destruct Hout as (n & Hout & Hn).
  pose proof (Forall2_zip_with_pix fmul _ _ _ _ x y Hclipped Hnorm) as Hprod.
  destruct (nansum_bound (inject_Z hi) ps Hhi0 Hwithin ns 0%Q Hns) as (q & Hq & Hlo & Hup).
  unfold nansum_layers.
  rewrite (pix_fold_left _ _ _ _ (Some 0%Q) x y Hprod) by (by apply pix_np_full).
  rewrite Hq, Hout. cbn [fmap option_fmap option_map].
  assert (Hne : (n =? length preds)%nat = false) by (apply Nat.eqb_neq; lia).
  rewrite Hne. eexists. split; [reflexivity|].
  apply to_uint8_bound; [|lia]. rewrite Hone in Hup. lra.
Qed.

Lemma fused_pixel_never_exceeds_the_highest_prediction_witness :
  exists v, pix (fst (fuse 1 2 Examples.two_pixel_stacks)) 0 0 = Some v /\ (0 <= v <= 60)%Z.
Proof.
  apply (fused_pixel_never_exceeds_the_highest_prediction
           1 2 Examples.two_pixel_stacks 0 0 [Some 40%Q; Some 60%Q] [1%Q; 3%Q] 60).
  - lia.
  - lia.
  - reflexivity.
  - reflexivity.
  - repeat constructor; vm_compute; discriminate.
  - left. reflexivity.
  - lia.
  - repeat constructor; vm_compute; discriminate.
  - left. by eexists.
Defined.
End FusedBound.
(** ** The batch loop: where it stops *)

Section BatchFacts.
Import Batch.
Variable border_outcome : Z -> Z -> result Z.

Lemma number_from_bounds (i : Z) (table : list (Z * Z * Q * Q)) :
  Forall (fun r => (i <= label r < i + Z.of_nat (length table))%Z) (number_from i table).
Proof.
  revert i. induction table as [|[[[xt yt] x] y] rest IH]; intros i; cbn [number_from]; constructor.
  - cbn [label length]. lia.
  - eapply Forall_impl; [apply IH|]. intros r Hr. cbn beta in *. cbn [length]. lia.
Qed.

Lemma number_from_has (i k : Z) (table : list (Z * Z * Q * Q)) :
  (i <= k < i + Z.of_nat (length table))%Z ->
  exists r, r ∈ number_from i table /\ label r = k.
Proof.
  revert i. induction table as [|[[[xt yt] x] y] rest IH]; intros i Hk; cbn [length] in Hk; [lia|].
  cbn [number_from]. destruct (decide (k = i)) as [->|Hne].
  - eexists. split; [left|]. done.
  - destruct (IH (i + 1)%Z) as (r & Hr & Hl); [lia|]. exists r. split; [by right|done].
Qed.

Lemma number_from_NoDup (i : Z) (table : list (Z * Z * Q * Q)) :
  NoDup (map label (number_from i table)).
Proof.
  revert i. induction table as [|[[[xt yt] x] y] rest IH]; intros i; cbn [number_from map].
  - constructor.
  - constructor; [|apply IH]. cbn [label]. intros Hin.
    apply list_elem_of_fmap in Hin as (r & Hl & Hr).
    pose proof (number_from_bounds (i + 1) rest) as Hb.
    rewrite Forall_forall in Hb. apply Hb in Hr. lia.
Qed.

Lemma insert_row_perm (r : row) (l : list row) : insert_row r l ≡ₚ r :: l.
Proof.
  induction l as [|r' l IH]; cbn [insert_row]; [done|].
  destruct (precedes r r'); [done|]. rewrite IH. apply Permutation_swap.
Qed.

Lemma sort_values_perm (l : list row) : sort_values l ≡ₚ l.
Proof.
  induction l as [|r l IH]; cbn [sort_values foldr]; [done|].
  rewrite insert_row_perm. by constructor.
Qed.

Lemma at_label_found (data : list row) (k : Z) :
  (exists r, r ∈ data /\ label r = k) -> is_Some (at_label data k).
Proof.
  intros (r & Hr & Hl). unfold at_label.
  destruct (find (fun r => (label r =? k)%Z) data) as [r'|] eqn:Hfind; [by eexists|].
  apply list_elem_of_In in Hr.
  pose proof (find_none _ _ Hfind r Hr) as Hne. cbn beta in Hne. lia.
Qed.

Lemma at_label_missing (data : list row) (k : Z) :
  Forall (fun r => label r <> k) data -> at_label data k = None.
Proof.
  intros Hall. unfold at_label.
  destruct (find (fun r => (label r =? k)%Z) data) as [r|] eqn:Hfind; [|done].
  apply find_some in Hfind as [Hin Heq]. rewrite Forall_forall in Hall.
  apply list_elem_of_In, Hall in Hin. lia.
Qed.

Lemma loop_skips (data : list row) (start_id : Z) (rows : list row) :
  Forall (fun r => (label r <= start_id)%Z) rows ->
  loop border_outcome data start_id rows = ([], Finished).
Proof.
  induction 1 as [|r rows Hr Hrows IH]; cbn [loop]; [done|].
  destruct (start_id <? label r)%Z eqn:Hlt; [lia|done].
Qed.

Lemma loop_stops (data : list row) (start_id : Z) (before after : list row) (last : row) :
  (start_id < label last)%Z ->
  at_label data (label last + 1) = None ->
  Forall (fun r => is_Some (at_label data (label r + 1))) before ->
  exists visits,
    loop border_outcome data start_id (before ++ last :: after)
    = (visits, KeyError (label last + 1)) /\
    map index visits = filter (fun k => (start_id < k)%Z) (map label before).
Proof.
  intros Hlast Hnone. induction 1 as [|r before [next Hnext] Hbefore (visits & Hloop & Hvisits)].
  - exists []. split; [|done]. cbn [app loop]. unfold body. rewrite Hnone.
    destruct (start_id <? label last)%Z eqn:Hlt; [done|lia].
  - cbn [app loop map]. rewrite filter_cons. unfold body at 1. rewrite Hnext, Hloop.
    destruct (decide (start_id < label r)%Z) as [Hlt|Hge].
    + apply Z.ltb_lt in Hlt. rewrite Hlt. eexists. split; [reflexivity|].
      cbn [map index]. by rewrite Hvisits.
    + assert ((start_id <? label r)%Z = false) as -> by lia. by exists visits.
Qed.

Lemma sorted_labels (table : list (Z * Z * Q * Q)) :
  let data := sort_values (reset_index table) in
  Forall (fun r => (0 <= label r < Z.of_nat (length table))%Z) data /\
  NoDup (map label data) /\
  forall k, (0 <= k < Z.of_nat (length table))%Z -> exists r, r ∈ data /\ label r = k.
Proof.
  cbv zeta. pose proof (sort_values_perm (reset_index table)) as Hperm.
  split; [|split].
  - rewrite Hperm. apply (number_from_bounds 0).
  - rewrite Hperm. apply number_from_NoDup.
  - intros k Hk. destruct (number_from_has 0 k table) as (r & Hr & Hl); [lia|].
    exists r. split; [by rewrite Hperm|done].
Qed.

(** X19.  The batch loop cannot get past the row with the highest index
    label.  For a table of [n >= 1] rows and a start index below [n - 1],
    the rows that the sort puts before that row are visited when their label
    is above the start index; at that row line 861 looks up the label [n],
    which no row carries, and the loop ends with that KeyError, so that the
    rows sorted after it are never visited. *)
Theorem batch_loop_ends_with_a_key_error (table : list (Z * Z * Q * Q)) (start_id : Z) :
  table <> [] ->
  (start_id < Z.of_nat (length table) - 1)%Z ->
  exists before last after visits,
    sort_values (reset_index table) = before ++ last :: after /\
    label last = (Z.of_nat (length table) - 1)%Z /\
    main_loop border_outcome table start_id
    = (visits, KeyError (Z.of_nat (length table))) /\
    map index visits = filter (fun k => (start_id < k)%Z) (map label before).
Proof.
  intros Hne Hstart. unfold main_loop. cbv zeta.
  destruct (sorted_labels table) as (Hbounds & Hnodup & Hhas).
  set (data := sort_values (reset_index table)) in *.
  set (n := Z.of_nat (length table)) in *.
  assert (Hn : (0 < n)%Z) by (subst n; destruct table; [done|cbn [length]; lia]).
  destruct (Hhas (n - 1)%Z) as (last & Hin & Hlast); [lia|].
  destruct (list_elem_of_split _ _ Hin) as (before & after & Hsplit).
  assert (Hbefore : Forall (fun r => label r <> label last) before).
  { rewrite Hsplit, map_app in Hnodup. apply NoDup_app in Hnodup as (_ & Hdisj & _).
    apply Forall_forall. intros r Hr Heq.
    apply (Hdisj (label r)); [by apply list_elem_of_fmap_2|].
    cbn [map]. rewrite Heq. left. }
  destruct (loop_stops data start_id before after last) as (visits & Hloop & Hvisits).
  - lia.
  - apply at_label_missing. eapply Forall_impl; [exact Hbounds|]. intros r Hr. cbn beta in *. lia.
  - assert (Hsub : Forall (fun r => (0 <= label r < n)%Z) before).
    { rewrite Hsplit in Hbounds. by apply Forall_app in Hbounds as [? _]. }
    apply Forall_forall. intros r Hr.
    rewrite Forall_forall in Hbefore, Hsub.
    pose proof (Hbefore r Hr). pose proof (Hsub r Hr).
    apply at_label_found, Hhas. lia.
  - exists before, last, after, visits. rewrite <- Hsplit in Hloop.
    replace n with (label last + 1)%Z by lia.
    split; [done|]. split; [lia|]. by split.
Qed.

(** X20.  With a start index of [n - 1] or more the loop visits no row of a
    table of [n] rows: a table of a single row is left alone under the
    default start index 0. *)
Theorem batch_loop_skips_labels_up_to_the_start (table : list (Z * Z * Q * Q)) (start_id : Z) :
  (Z.of_nat (length table) - 1 <= start_id)%Z ->
  main_loop border_outcome table start_id = ([], Finished).
Proof.
  intros Hstart. unfold main_loop. cbv zeta. apply loop_skips.
  destruct (sorted_labels table) as (Hbounds & _).
  eapply Forall_impl; [exact Hbounds|]. intros r Hr. cbn beta in *. lia.
Qed.
End BatchFacts.

Lemma batch_loop_ends_with_a_key_error_witness :
  exists before last after visits,
    Batch.sort_values (Batch.reset_index Examples.three_tiles) = before ++ last :: after /\
    Batch.label last = 2%Z /\
    Batch.main_loop Examples.always_reprocessed Examples.three_tiles 0
    = (visits, Batch.KeyError 3) /\
    map Batch.index visits = filter (fun k => (0 < k)%Z) (map Batch.label before).
Proof.
  apply (batch_loop_ends_with_a_key_error Examples.always_reprocessed Examples.three_tiles 0).
  - discriminate.
  - vm_compute. reflexivity.
Defined.

Lemma batch_loop_skips_labels_up_to_the_start_witness :
  Batch.main_loop Examples.always_reprocessed [(2010, 1080, 5 # 2, 10 # 1)%Z] 0
  = ([], Batch.Finished).
Proof.
  apply (batch_loop_skips_labels_up_to_the_start Examples.always_reprocessed
           [(2010, 1080, 5 # 2, 10 # 1)%Z] 0).
  vm_compute. discriminate.
Defined.

(** On the table of three tiles with the default start index: the row
    labelled 0 is skipped, the row labelled 1 is visited with the coordinates
    of the row labelled 2 as its neighbour, and the row labelled 2 raises. *)
Example three_tiles_batch :
  Batch.main_loop Examples.always_reprocessed Examples.three_tiles 0
  = ([{| Batch.index := 1; Batch.tile := (2011, 1079)%Z; Batch.neighb := (7 # 2, 19 # 2);
         Batch.finished := 1; Batch.smoothed := true |}],
     Batch.KeyError 3).
Proof. reflexivity. Qed.
(** ** Loading a finished raster: which file is read *)

Section TifFacts.
Import Tif.
Local Open Scope string_scope.
Variable fs : files.

Lemma candidates_listed (names : list String.string) (f : String.string) :
  f ∈ candidates names -> f ∈ names /\ is_tif f = true.
Proof.
  unfold candidates. cbv zeta.
  set (tifs := filter (fun file => is_tif file = true) names).
  assert (Htifs : forall g, g ∈ tifs -> g ∈ names /\ is_tif g = true).
  { intros g Hg. subst tifs. apply list_elem_of_filter in Hg as [? ?]. done. }
  assert (Hsub : forall (P : String.string -> Prop) `{!forall x, Decision (P x)} g,
             g ∈ (if (1 <? length tifs)%nat then filter P tifs else tifs) -> g ∈ tifs).
  { intros P ? g. destruct (1 <? length tifs)%nat; [|done].
    intros Hg. by apply list_elem_of_filter in Hg as [_ ?]. }
  destruct (length (if (1 <? length tifs)%nat then _ else tifs) =? 0)%nat;
    intros Hf; apply Hsub in Hf; by apply Htifs.
Qed.

Lemma load_tif_of_candidates (tile_id : String.string * String.string)
    (local_path : String.string) (names : list String.string) :
  listdir fs (dir_of tile_id local_path) = Some names ->
  load_tif fs tile_id local_path =
  match candidates names with
  | [] => Raise IndexError
  | f :: _ =>
      (let* band := read_band fs (os_path_join (dir_of tile_id local_path) f) in
       Ok (band,
           if (0 <? length (filter (fun file => contains "SMOOTH" file = true) names))%nat
           then 1%Z else 0%Z))%result
  end.
Proof.
  intros Hnames. unfold load_tif. cbv zeta. rewrite Hnames.
  by destruct (candidates names).
Qed.

(** X21.  Whatever [load_tif] returns is the first band of a file that the
    tile's folder lists with the extension [.tif]; the flag beside it is 1
    when some listed name contains SMOOTH and 0 otherwise. *)
Theorem loaded_raster_is_a_listed_tif (tile_id : String.string * String.string)
    (local_path : String.string) (band : list (list Z)) (smooth : Z) :
  load_tif fs tile_id local_path = Ok (band, smooth) ->
  exists names f,
    listdir fs (dir_of tile_id local_path) = Some names /\
    f ∈ names /\ is_tif f = true /\
    read_band fs (os_path_join (dir_of tile_id local_path) f) = Ok band /\
    ((smooth = 1%Z /\ exists g, g ∈ names /\ contains "SMOOTH" g = true) \/
     (smooth = 0%Z /\ forall g, g ∈ names -> contains "SMOOTH" g = false)).
Proof.
  intros Hload.
  destruct (listdir fs (dir_of tile_id local_path)) as [names|] eqn:Hnames.
  2:{ unfold load_tif in Hload. cbv zeta in Hload. by rewrite Hnames in Hload. }
  rewrite (load_tif_of_candidates _ _ names Hnames) in Hload.
  destruct (candidates names) as [|f rest] eqn:Hcand; [done|].
  destruct (read_band fs (os_path_join (dir_of tile_id local_path) f)) as [b|e] eqn:Hread;
    [|done].
  cbn [rbind] in Hload. injection Hload as <- <-.
  destruct (candidates_listed names f) as [Hin Htif]; [rewrite Hcand; left|].
  exists names, f. repeat (split; [done|]).
  set (processed := filter (fun file => contains "SMOOTH" file = true) names).
  destruct processed as [|g more] eqn:Hproc; cbn [length Nat.ltb Nat.leb].
  - right. split; [done|]. intros g Hg.
    destruct (contains "SMOOTH" g) eqn:Hc; [|done].
    assert (g ∈ processed) as Hgp by (subst processed; by apply list_elem_of_filter).
    rewrite Hproc in Hgp. by apply elem_of_nil in Hgp.
  - left. split; [done|]. exists g.
    assert (g ∈ processed) as Hgp by (rewrite Hproc; left).
    subst processed. apply list_elem_of_filter in Hgp as [? ?]. done.
Qed.

(** X22.  Which file is read.  A folder with one [.tif] gives that file
    whatever its name; with several, the first one in the listing whose name
    contains _FINAL, and when there is none, the first whose name contains
    _POST. *)
Theorem finished_raster_is_preferred (tile_id : String.string * String.string)
    (local_path : String.string) (names : list String.string) (f : String.string) :
  listdir fs (dir_of tile_id local_path) = Some names ->
  (let tifs := filter (fun file => is_tif file = true) names in
   tifs = [f] \/
   ((1 < length tifs)%nat /\
    (head (filter (fun x => contains "_FINAL" x = true) tifs) = Some f \/
     (filter (fun x => contains "_FINAL" x = true) tifs = [] /\
      head (filter (fun x => contains "_POST" x = true) tifs) = Some f)))) ->
  exists smooth,
    load_tif fs tile_id local_path =
    (let* band := read_band fs (os_path_join (dir_of tile_id local_path) f) in
     Ok (band, smooth))%result.
Proof.
  intros Hnames Hcase. cbv zeta in Hcase.
  rewrite (load_tif_of_candidates _ _ names Hnames).
  eexists.
  assert (Hcand : exists rest, candidates names = f :: rest).
  { unfold candidates. cbv zeta.
    set (tifs := filter (fun file => is_tif file = true) names) in *.
    destruct Hcase as [Hone | [Hmany [Hfinal | [Hnone Hpost]]]].
    - rewrite Hone. cbn [length Nat.ltb Nat.leb Nat.eqb]. by eexists.
    - apply Nat.ltb_lt in Hmany. rewrite Hmany.
      destruct (filter (fun x => contains "_FINAL" x = true) tifs) as [|g rest]; [done|].
      cbn [head] in Hfinal. injection Hfinal as ->.
      cbn [length Nat.eqb]. by eexists.
    - apply Nat.ltb_lt in Hmany. rewrite Hmany, Hnone. cbn [length Nat.eqb].
      destruct (filter (fun x => contains "_POST" x = true) tifs) as [|g rest]; [done|].
      cbn [head] in Hpost. injection Hpost as ->. by eexists. }
  destruct Hcand as [rest ->]. reflexivity.
Qed.

(** X23.  When line 416 finds nothing to take.  The function raises
    IndexError when the folder does not exist, when it lists no [.tif], and
    also when it lists several [.tif] files none of which has _FINAL or
    _POST in its name. *)
Theorem unnamed_rasters_raise_index_error (tile_id : String.string * String.string)
    (local_path : String.string) :
  (listdir fs (dir_of tile_id local_path) = None \/
   exists names,
     listdir fs (dir_of tile_id local_path) = Some names /\
     let tifs := filter (fun file => is_tif file = true) names in
     tifs = [] \/
     ((1 < length tifs)%nat /\
      Forall (fun x => contains "_FINAL" x = false /\ contains "_POST" x = false) tifs)) ->
  load_tif fs tile_id local_path = Raise IndexError.
Proof.
  intros [Hnone | (names & Hnames & Hcase)].
  - unfold load_tif. cbv zeta. by rewrite Hnone.
  - rewrite (load_tif_of_candidates _ _ names Hnames).
    assert (Hcand : candidates names = []); [|by rewrite Hcand].
    unfold candidates. cbv zeta in *.
    set (tifs := filter (fun file => is_tif file = true) names) in *.
    destruct Hcase as [Hempty | [Hmany Hplain]].
    + by rewrite Hempty.
    + apply Nat.ltb_lt in Hmany. rewrite Hmany.
      assert (Hfinal : filter (fun x => contains "_FINAL" x = true) tifs = []).
      { clear Hmany. induction Hplain as [|x l [Hx _] Hl IH]; [done|].
        rewrite filter_cons. destruct (decide (contains "_FINAL" x = true)); [congruence|done]. }
      assert (Hpost : filter (fun x => contains "_POST" x = true) tifs = []).
      { clear Hmany Hfinal. induction Hplain as [|x l [_ Hx] Hl IH]; [done|].
        rewrite filter_cons. destruct (decide (contains "_POST" x = true)); [congruence|done]. }
      by rewrite Hfinal, Hpost.
Qed.
End TifFacts.

Section TifExamples.
Local Open Scope string_scope.

Lemma loaded_raster_is_a_listed_tif_witness :
  exists names f,
    Tif.listdir Examples.tile_files (Tif.dir_of ("2011", "1079") "tiles/")%string = Some names /\
    f ∈ names /\ Tif.is_tif f = true /\
    Tif.read_band Examples.tile_files
      (Tif.os_path_join (Tif.dir_of ("2011", "1079") "tiles/") f)%string = Ok [[7; 8]]%Z /\
    ((1%Z = 1%Z /\ exists g, g ∈ names /\ Tif.contains "SMOOTH" g = true) \/
     (1%Z = 0%Z /\ forall g, g ∈ names -> Tif.contains "SMOOTH" g = false)).
Proof.
  apply (loaded_raster_is_a_listed_tif Examples.tile_files ("2011", "1079")%string "tiles/"%string
           [[7; 8]]%Z 1).
  vm_compute. reflexivity.
Defined.

Lemma finished_raster_is_preferred_witness :
  exists smooth,
    Tif.load_tif Examples.tile_files ("2011", "1079")%string "tiles/"%string =
    (let* band := Tif.read_band Examples.tile_files
                    (Tif.os_path_join (Tif.dir_of ("2011", "1079") "tiles/")
                                      "2011X1079Y_FINAL.tif")%string in
     Ok (band, smooth))%result.
Proof.
  apply (finished_raster_is_preferred Examples.tile_files ("2011", "1079")%string "tiles/"%string
           ["2011X1079Y_POST.tif"; "notes.txt"; "2011X1079Y_FINAL.tif";
            "2011X1079Y_SMOOTH.tif"]%string).
  - vm_compute. reflexivity.
  - right. split; [vm_compute; lia|]. left. vm_compute. reflexivity.
Defined.

Lemma unnamed_rasters_raise_index_error_witness :
  Tif.load_tif Examples.tile_files ("2012", "1079")%string "tiles/"%string = Raise IndexError.
Proof.
  apply (unnamed_rasters_raise_index_error Examples.tile_files ("2012", "1079")%string
           "tiles/"%string).
  right. exists ["a.tif"; "b.tif"]%string. split; [vm_compute; reflexivity|].
  right. split; [vm_compute; lia|]. vm_compute. repeat constructor.
Defined.

(** What counts as a [.tif]: a hidden file named [.tif] has no extension, and
    the comparison is case sensitive. *)
Example tif_extensions :
  map Tif.is_tif ["a.tif"; ".tif"; "a.TIF"; "a.tif.aux.xml"; "a_FINAL.tif"]%string
  = [true; false; false; false; true].
Proof. reflexivity. Qed.

End TifExamples.
(** ** Mosaic reconciler: the weights of the patches that cover a pixel *)

Section Weights.
Import Mosaic.

Lemma broadcast_Forall {A} (P : A -> Prop) (h w : nat) (v : list (list A)) :
  Forall (Forall P) v -> Forall (Forall P) (broadcast h w v).
Proof.
  intros Hv. unfold broadcast.
  assert (Hfirst : Forall (Forall P) match v with [row] => replicate h row | _ => v end).
  { destruct v as [|row [|row' v]]; try done.
    apply Forall_cons in Hv as [Hrow _]. by apply Forall_replicate. }
  apply Forall_map. eapply Forall_impl; [exact Hfirst|].
  intros row Hrow. cbn beta. destruct row as [|a [|b row]]; try done.
  apply Forall_cons in Hrow as [Ha _]. by apply Forall_replicate.
Qed.

Lemma cut_Forall {A} (P : A -> Prop) (pt : part) (g : list (list A)) :
  Forall (Forall P) g -> Forall (Forall P) (cut pt g).
Proof.
  intros Hg. destruct pt; cbn [cut]; [done| |].
  - change (py_from 84 g) with (py_from (Z.of_nat 84) g).
    rewrite py_from_nonneg. by apply Forall_drop.
  - unfold py_upto. by apply Forall_take.
Qed.

(** What a slice assignment that goes through leaves at a pixel of the
    raster: an element of the value inside the window, the old pixel
    outside. *)
Lemma assign_window_pixels {A} (P : A -> Prop) (H W h w x y : nat)
    (v layer layer' : list (list A)) :
  has_shape H W layer -> Forall (Forall P) v ->
  assign_window x y h w v layer = Ok layer' ->
  forall i j, (i < H)%nat -> (j < W)%nat ->
    if bool_decide ((x <= i < x + h)%nat /\ (y <= j < y + w)%nat)
    then exists a, pix layer' i j = Some a /\ P a
    else pix layer' i j = pix layer i j.
Proof.
  intros Hlayer Hv Hassign i j Hi Hj.
  assert (Hne : layer <> []).
  { intros ->. destruct Hlayer as [Hlen _]. cbn in Hlen. lia. }
  pose proof (has_shape_width H W layer Hlayer Hne) as Hwidth.
  destruct Hlayer as [HlenL HrowsL]. rewrite Forall_forall in HrowsL.
  unfold assign_window in Hassign. rewrite HlenL, Hwidth in Hassign. cbv zeta in Hassign.
  set (h' := (Nat.min (x + h) H - Nat.min x H)%nat) in *.
  set (w' := (Nat.min (y + w) W - Nat.min y W)%nat) in *.
  pose proof (broadcast_Forall P h' w' v Hv) as Hvb.
  set (vb := broadcast h' w' v) in *.
  destruct (rectangular h' w' vb) eqn:Hrect; [|done].
  apply rectangular_spec in Hrect as [Hlenvb Hrowsvb]. rewrite Forall_forall in Hrowsvb.
  injection Hassign as Hassign. subst layer'.
  unfold pix.
  destruct (decide (i < x)%nat) as [Hlow | Hge].
  { rewrite bool_decide_eq_false_2 by lia.
    rewrite lookup_app_l by (rewrite length_take; lia).
    by rewrite lookup_take_lt. }
  rewrite lookup_app_r by (rewrite length_take; lia).
  rewrite length_take. replace (Nat.min x (length layer)) with x by lia.
  assert (Hh' : (h' = Nat.min (x + h) H - x)%nat) by (subst h'; lia).
  assert (Hzip : length (zip_with (fun row vrow : list A =>
                                     take y row ++ vrow ++ drop (y + w') row)
                                  (take h' (drop x layer)) vb) = h').
  { rewrite length_zip_with, length_take, length_drop.
    clear -Hh' Hlenvb HlenL Hge Hi. lia. }
  destruct (decide (i < x + h)%nat) as [Hin | Hout].
  - rewrite lookup_app_l by lia.
    rewrite lookup_zip_with, lookup_take_lt, lookup_drop by lia.
    replace (x + (i - x))%nat with i by lia.
    destruct (lookup_lt_is_Some_2 layer i) as [row Hrow]; [lia|].
    destruct (lookup_lt_is_Some_2 vb (i - x)) as [vrow Hvrow]; [lia|].
    rewrite Hrow, Hvrow. cbn [mbind option_bind fmap option_fmap option_map].
    assert (Hlenrow : length row = W) by (apply HrowsL; by eapply list_elem_of_lookup_2).
    assert (Hlenvrow : length vrow = w') by (apply Hrowsvb; by eapply list_elem_of_lookup_2).
    destruct (decide (j < y)%nat) as [Hleft | Hright].
    + rewrite bool_decide_eq_false_2 by lia.
      rewrite lookup_app_l by (rewrite length_take; lia).
      by rewrite lookup_take_lt.
    + assert (Hw' : (w' = Nat.min (y + w) W - y)%nat) by (subst w'; lia).
      rewrite lookup_overwritten by lia.
      destruct (decide (j < y + w)%nat) as [Hinside | Houtside].
      * rewrite !bool_decide_eq_true_2 by lia.
        destruct (lookup_lt_is_Some_2 vrow (j - y)) as [a Ha]; [lia|].
        exists a. split; [done|].
        rewrite Forall_forall in Hvb.
        pose proof (Hvb vrow ltac:(by eapply list_elem_of_lookup_2)) as Hrowp.
        rewrite Forall_forall in Hrowp. apply Hrowp. by eapply list_elem_of_lookup_2.
      * by rewrite !bool_decide_eq_false_2 by lia.
  - rewrite bool_decide_eq_false_2 by lia.
    rewrite lookup_app_r by lia. rewrite Hzip, lookup_drop.
    by replace (x + h' + (i - x - h'))%nat with i by (clear -Hh' Hout Hge Hi; lia).
Qed.

Lemma weights_follow_blank (h w : nat) :
  weights_follow h w (np_full h w None) (np_full h w (Some 0%Q)).
Proof.
  intros x y Hx Hy. exists 0%Q. rewrite !pix_np_full by done.
  split; [done|]. split; [apply Qle_refl | done].
Qed.

Lemma weights_follow_blanked (h w : nat) (layer wl : list (list (option Q))) :
  weights_follow h w layer wl ->
  weights_follow h w (blank_layer None layer) (blank_layer (Some 0%Q) wl).
Proof.
  intros Hfollow x y Hx Hy. destruct (Hfollow x y Hx Hy) as (q & Hq & _).
  exists 0%Q. unfold blank_layer. rewrite !pix_map, Hq.
  split; [done|]. split; [apply Qle_refl|].
  intros v. by destruct (pix layer x y).
Qed.

Section FillWeights.
Variable fspecial_gauss : nat -> Z -> list (list Q).
Variables H W n : nat.
Hypothesis Hkernel : positive_kernel fspecial_gauss.

Lemma add_patch_weights (pt : part) (x_tile y_tile : nat) (p : list (list Q))
    (s s' : stacks) (i i' : nat) :
  weighted H W n s ->
  add_patch fspecial_gauss pt x_tile y_tile p (s, i) = Ok (s', i') ->
  weighted H W n s'.
Proof using Hkernel.
  intros [Hshape Hfollow] Hadd.
  split; [by eapply add_patch_shape|].
  revert Hadd. unfold add_patch.
  destruct (has_data p); [|by intros [= <- _]].
  unfold assign_layer.
  destruct (predictions s !! i) as [layer|] eqn:Hlayer; [|done].
  destruct (assign_window _ _ _ _ _ layer) as [layer'|] eqn:Hassign; [|done].
  cbn [rbind].
  destruct (mults s !! i) as [wl|] eqn:Hwl; [|done].
  destruct (assign_window _ _ _ _ _ wl) as [wl'|] eqn:Hassignw; [|done].
  cbn [rbind]. intros [= <- _]. cbn [predictions mults].
  apply Forall2_insert; [done|].
  destruct Hshape as (_ & _ & Hp & Hm).
  rewrite Forall_forall in Hp, Hm.
  pose proof (Hp layer ltac:(by eapply list_elem_of_lookup_2)) as Hlayer_shape.
  pose proof (Hm wl ltac:(by eapply list_elem_of_lookup_2)) as Hwl_shape.
  pose proof (Forall2_lookup_lr _ _ _ _ _ _ Hfollow Hlayer Hwl) as Hold.
  assert (Hpos : Forall (Forall (fun k : option Q => exists q, k = Some q /\ (0 < q)%Q))
                        (cut pt (kernel fspecial_gauss (sigma_of pt)))).
  { apply cut_Forall. unfold kernel. apply Forall_map.
    eapply Forall_impl; [apply Hkernel|]. intros row Hrow. cbn beta.
    apply Forall_map. eapply Forall_impl; [exact Hrow|]. intros q Hq. by exists q. }
  assert (Hany : Forall (Forall (fun _ : option Q => True))
                        (cut pt (scaled_T p))).
  { apply Forall_forall. intros row _. by apply Forall_forall. }
  intros a b Ha Hb.
  pose proof (assign_window_pixels _ _ _ _ _ _ _ _ _ _ Hlayer_shape Hany Hassign a b Ha Hb)
    as Hpix.
  pose proof (assign_window_pixels _ _ _ _ _ _ _ _ _ _ Hwl_shape Hpos Hassignw a b Ha Hb)
    as Hpixw.
  case_bool_decide.
  - destruct Hpixw as (k & Hk & q & -> & Hq). exists q.
    split; [done|]. split; [by apply Qlt_le_weak | done].
  - rewrite Hpix, Hpixw. by apply Hold.
Qed.

Lemma add_files_weights (pt : part) (x_tile : nat)
    (files : list (file_name * list (list Q))) (name : nat -> file_name -> bool)
    (y_tiles : list nat) (st st' : stacks * nat) :
  weighted H W n (fst st) ->
  add_files fspecial_gauss pt x_tile files name y_tiles st = Ok st' ->
  weighted H W n (fst st').
Proof using Hkernel.
  revert st. induction y_tiles as [|y_tile rest IH]; intros st Hst; cbn [add_files].
  - by intros [= <-].
  - destruct (load files (name y_tile)) as [p|]; [|by apply IH].
    destruct st as [s i].
    destruct (add_patch fspecial_gauss pt x_tile y_tile p (s, i)) as [[s1 i1]|] eqn:Hadd;
      [|done].
    cbn [rbind]. apply IH. cbn [fst]. by eapply add_patch_weights.
Qed.

Lemma add_interior_weights (d : list (dir_name * list (file_name * list (list Q))))
    (x_tiles : list nat) (st st' : stacks * nat) :
  weighted H W n (fst st) ->
  add_interior fspecial_gauss d x_tiles st = Ok st' ->
  weighted H W n (fst st').
Proof using Hkernel.
  revert st. induction x_tiles as [|x_tile rest IH]; intros st Hst; cbn [add_interior].
  - by intros [= <-].
  - destruct (add_files _ _ _ _ _ _ st) as [st1|] eqn:Hadd; [|done].
    cbn [rbind]. apply IH. by eapply add_files_weights.
Qed.

Lemma add_left_weights (d : list (dir_name * list (file_name * list (list Q))))
    (x_tiles : list nat) (st st' : stacks * nat) :
  weighted H W n (fst st) ->
  add_left fspecial_gauss d x_tiles st = Ok st' ->
  weighted H W n (fst st').
Proof using Hkernel.
  revert st. induction x_tiles as [|x_tile rest IH]; intros st Hst; cbn [add_left].
  - by intros [= <-].
  - destruct (add_files _ _ _ _ _ _ st) as [st1|] eqn:Hadd; [|done].
    cbn [rbind]. apply IH. by eapply add_files_weights.
Qed.

Lemma add_right_weights (d : list (dir_name * list (file_name * list (list Q))))
    (right : list nat) (st st' : stacks * nat) :
  weighted H W n (fst st) ->
  add_right fspecial_gauss d right st = Ok st' ->
  weighted H W n (fst st').
Proof using Hkernel.
  revert st. induction right as [|x_tile rest IH]; intros st Hst; cbn [add_right].
  - by intros [= <-].
  - destruct (right_ys _) as [ys|]; [|done]. cbn [rbind].
    destruct (add_files _ _ _ _ _ _ st) as [st1|] eqn:Hadd; [|done].
    cbn [rbind]. apply IH. by eapply add_files_weights.
Qed.
End FillWeights.

Lemma fill_weights (fspecial_gauss : nat -> Z -> list (list Q))
    (d : list (dir_name * list (file_name * list (list Q)))) (l : layout) (s : stacks) :
  positive_kernel fspecial_gauss ->
  fill fspecial_gauss d l = Ok s ->
  Forall2 (weights_follow (max_x l) (max_y l)) (predictions s) (mults s).
Proof.
  intros Hkernel. unfold fill.
  set (st0 := ({| predictions := replicate (n_tiles l) (np_full (max_x l) (max_y l) None);
                  mults := replicate (n_tiles l)
                             (np_full (max_x l) (max_y l) (Some 0%Q)) |}, 0%nat)).
  assert (Hst0 : weighted (max_x l) (max_y l) (n_tiles l) (fst st0)).
  { split.
    - repeat split; cbn [fst st0 predictions mults]; rewrite ?length_replicate; try done;
        apply Forall_replicate, np_full_shape.
    - cbn [fst st0 predictions mults].
      induction (n_tiles l) as [|k IH]; cbn [replicate]; constructor; [|done].
      apply weights_follow_blank. }
  destruct (add_interior _ _ _ st0) as [st1|] eqn:H1; [|done]. cbn [rbind].
  pose proof (add_interior_weights _ _ _ _ Hkernel _ _ _ _ Hst0 H1) as Hst1.
  destruct (if (0 <? n_border l)%nat then _ else _) as [st2|] eqn:H2; [|done]. cbn [rbind].
  assert (Hst2 : weighted (max_x l) (max_y l) (n_tiles l) (fst st2)).
  { destruct (0 <? n_border l)%nat;
      [by eapply (add_left_weights _ _ _ _ Hkernel) | by injection H2 as <-]. }
  destruct (add_right _ _ _ st2) as [st3|] eqn:H3; [|done]. cbn [rbind].
  intros [= <-]. by destruct (add_right_weights _ _ _ _ Hkernel _ _ _ _ Hst2 H3).
Qed.

Lemma alter_as_insert {A} (f : A -> A) (l : list A) (i : nat) (a : A) :
  l !! i = Some a -> alter f i l = <[i := f a]> l.
Proof.
  revert i. induction l as [|b l IH]; intros [|i] Hi; try done.
  - cbn in Hi. by injection Hi as ->.
  - cbn in Hi. cbn. f_equal. by apply IH.
Qed.

Lemma reject_loop_weights (v : verdicts) (range : list (list (option Q))) (h w : nat)
    (idxs : list nat) (s s' : stacks) :
  Forall2 (weights_follow h w) (predictions s) (mults s) ->
  reject_loop v range idxs s = Ok s' ->
  Forall2 (weights_follow h w) (predictions s') (mults s').
Proof.
  revert s. induction idxs as [|i rest IH]; intros s Hs; cbn [reject_loop].
  - by intros [= <-].
  - destruct (reject_one v range i s) as [s1|] eqn:Hone; [|done]. cbn [rbind].
    apply IH. revert Hone. unfold reject_one.
    destruct (predictions s !! i) as [layer|] eqn:Hlayer; [|done].
    destruct (is_outlier v range layer) as [[|]|]; cbn [rbind]; [|by intros [= <-]|done].
    intros [= <-]. cbn [predictions mults].
    destruct (Forall2_lookup_l _ _ _ _ _ Hs Hlayer) as (wl & Hwl & Hfollow).
    rewrite (alter_as_insert (blank_layer (Some 0%Q)) (mults s) i wl Hwl).
    apply Forall2_insert; [done|]. by apply weights_follow_blanked.
Qed.

Lemma reject_outliers_weights (l : layout) (h w : nat) (s s' : stacks) :
  Forall2 (weights_follow h w) (predictions s) (mults s) ->
  reject_outliers l s = Ok s' ->
  Forall2 (weights_follow h w) (predictions s') (mults s').
Proof.
  intros Hs. unfold reject_outliers.
  destruct (predictions_range (predictions s)) as [range|]; [|done]. cbn [rbind].
  by apply reject_loop_weights.
Qed.

(** The weights at a pixel of stacks whose weights follow the patches. *)
Lemma weights_column (h w : nat) (preds mults : list (list (list (option Q)))) (x y : nat) :
  (x < h)%nat -> (y < w)%nat ->
  Forall2 (weights_follow h w) preds mults ->
  exists ws,
    column_at mults x y = Some (map Some ws) /\
    Forall (fun q => (0 <= q)%Q) ws /\
    (Exists (fun layer => contributes x y layer = true) preds ->
     Exists (fun q => (0 < q)%Q) ws).
Proof.
  intros Hx Hy Hfollow.
  induction Hfollow as [|layer wl preds mults Hone Hrest (ws & Hcol & Hnonneg & Hpos)].
  - exists []. split; [done|]. split; [done|]. by intros ?%Exists_nil.
  - destruct (Hone x y Hx Hy) as (q & Hq & Hq0 & Hqpos).
    exists (q :: ws). split; [|split].
    + apply column_at_Forall2. cbn [map]. constructor; [done|].
      by apply column_at_Forall2.
    + by constructor.
    + intros Hex. apply Exists_cons in Hex as [Hhere | Hthere].
      * left. unfold contributes in Hhere.
        destruct (pix layer x y) as [[v|]|] eqn:Hv; try done. by apply (Hqpos v).
      * right. by apply Hpos.
Qed.

Lemma column_exists {A} (h w : nat) (stack : list (list (list A))) (x y : nat) :
  (x < h)%nat -> (y < w)%nat -> Forall (has_shape h w) stack ->
  exists vals, column_at stack x y = Some vals.
Proof.
  intros Hx Hy. induction 1 as [|layer stack Hlayer Hstack (vals & Hvals)].
  - by exists [].
  - destruct (has_shape_pix h w layer x y Hlayer Hx Hy) as [v Hv].
    exists (v :: vals). apply column_at_Forall2. constructor; [done|].
    by apply column_at_Forall2.
Qed.

Lemma contributing_positive (s : stacks) (x y : nat) :
  (0 < contributing s x y)%nat ->
  Exists (fun layer => contributes x y layer = true) (predictions s).
Proof.
  unfold contributing. intros Hpos.
  destruct (filter _ (predictions s)) as [|layer rest] eqn:Hfilter; [cbn in Hpos; lia|].
  assert (Hin : layer ∈ filter (fun layer => contributes x y layer = true) (predictions s))
    by (rewrite Hfilter; left).
  apply list_elem_of_filter in Hin as [Hc Hin].
  apply Exists_exists. by exists layer.
Qed.

(** C6 on the code.  With a blend kernel without zero or negative entries,
    once the folder is enumerated, the stacks are filled and the outlier
    rejection has returned, the function returns the cleaned fused raster
    and the normalised weights.  At every pixel of the raster that one
    retained patch at least contributes to, the normalised weights are
    numbers that sum to 1.  At every pixel that no patch contributes to,
    the fused raster of line 683 holds the no-data value 255; the cleanup
    of lines 685-706 reads 255 as a tree-cover value, and the returned
    raster holds 255 there or, where the second cleanup rule wrote, 0. *)
Theorem contributing_weights_sum_to_one_and_fusion_marks_no_data
    (fspecial_gauss : nat -> Z -> list (list Q))
    (d : list (dir_name * list (file_name * list (list Q)))) (l : layout)
    (s s' : stacks) (x y : nat) :
  positive_kernel fspecial_gauss ->
  enumerate d = Ok l ->
  fill fspecial_gauss d l = Ok s ->
  reject_outliers l s = Ok s' ->
  (x < max_x l)%nat -> (y < max_y l)%nat ->
  let fused := fst (fuse (max_x l) (max_y l) s') in
  let blend := snd (fuse (max_x l) (max_y l) s') in
  recreate_resegmented_tifs fspecial_gauss d = Ok (postprocess fused, blend) /\
  ((0 < contributing s' x y)%nat ->
   exists ns, column_at blend x y = Some (map Some ns) /\ (qsum ns == 1)%Q) /\
  (contributing s' x y = 0%nat ->
   pix fused x y = Some 255%Z /\
   (pix (postprocess fused) x y = Some 255%Z \/ pix (postprocess fused) x y = Some 0%Z)).
Proof.
  intros Hkernel Henum Hfill Hreject Hx Hy. cbv zeta.
  pose proof (fill_shape _ _ _ _ Hfill) as Hshape.
  pose proof (reject_outliers_shape _ _ _ _ _ _ Hshape Hreject) as Hshape'.
  pose proof (fill_weights _ _ _ _ Hkernel Hfill) as Hfollow.
  pose proof (reject_outliers_weights _ _ _ _ _ Hfollow Hreject) as Hfollow'.
  split; [|split].
  - unfold recreate_resegmented_tifs, reconcile, load_stacks.
    rewrite Henum. cbn [rbind]. rewrite Hfill. cbn [rbind]. rewrite Hreject. cbn [rbind].
    by destruct (fuse (max_x l) (max_y l) s').
  - intros Hpos.
    destruct (weights_column _ _ _ _ x y Hx Hy Hfollow') as (ws & Hcol & Hnonneg & Hex).
    rewrite fuse_snd.
    apply (normalized_weights_sum_to_one _ _ (mults s') x y ws); try done.
    by apply Hex, contributing_positive.
  - intros Hzero. destruct Hshape' as (_ & _ & Hp & Hm).
    destruct (column_exists _ _ _ x y Hx Hy Hp) as [ps Hps].
    destruct (column_exists _ _ _ x y Hx Hy Hm) as [ms Hms].
    assert (Hfused : pix (fst (fuse (max_x l) (max_y l) s')) x y = Some 255%Z).
    { apply (fused_pixel_without_contribution _ _ s' x y ps ms); try done.
      by apply no_contribution_column with s' x y. }
    split; [done | by apply postprocess_no_data_pixel].
Qed.

Lemma contributing_weights_sum_to_one_and_fusion_marks_no_data_witness :
  let fused := fst (fuse 168 169 Examples.rejected_stacks) in
  let blend := snd (fuse 168 169 Examples.rejected_stacks) in
  recreate_resegmented_tifs Examples.flat_kernel Examples.interior_outlier_folder
  = Ok (postprocess fused, blend) /\
  ((0 < contributing Examples.rejected_stacks 0 0)%nat ->
   exists ns, column_at blend 0 0 = Some (map Some ns) /\ (qsum ns == 1)%Q) /\
  (contributing Examples.rejected_stacks 0 0 = 0%nat ->
   pix fused 0 0 = Some 255%Z /\
   (pix (postprocess fused) 0 0 = Some 255%Z \/ pix (postprocess fused) 0 0 = Some 0%Z)).
Proof.
  apply (contributing_weights_sum_to_one_and_fusion_marks_no_data
           Examples.flat_kernel Examples.interior_outlier_folder Examples.outlier_layout
           Examples.outlier_stacks Examples.rejected_stacks 0 0).
  - intros sigma. unfold Examples.flat_kernel, np_full.
    apply Forall_replicate, Forall_replicate. reflexivity.
  - vm_compute. reflexivity.
  - vm_compute. reflexivity.
  - vm_compute. reflexivity.
  - vm_compute. lia.
  - vm_compute. lia.
Defined.
End Weights.

(** ** Mosaic reconciler: runs on whole folders *)

(** C9 as stated fails on a folder whose two patches are entirely no-data:
    none of them is usable, and the function returns the all-255 raster. *)
Lemma all_no_data_folder_returns_raster :
  Mosaic.usable_patches Examples.no_data_folder = 0%nat /\
  Mosaic.returns_raster
    (Mosaic.recreate_resegmented_tifs Examples.flat_kernel Examples.no_data_folder)
    (np_full 168 169 255%Z).
Proof. split; vm_compute; reflexivity. Qed.

(** C2 on the code.  A window that passes the test of the first rule is not
    written at all, and the second rule is then skipped: in the raster fused
    from two overlapping patches of 0.30, every window holds nine pixels of
    30, and the returned raster is 30 everywhere. *)
Theorem speckle_window_keeps_its_pixels :
  (forall w, Mosaic.speckle w = true -> Mosaic.visit w = w) /\
  Mosaic.speckle (replicate 9 30%Z) = true /\
  Mosaic.returns_raster
    (Mosaic.recreate_resegmented_tifs Examples.flat_kernel Examples.speckle_folder)
    (np_full 168 169 30%Z).
Proof.
  split; [|split].
  - intros w Hw. unfold Mosaic.visit. by rewrite Hw.
  - reflexivity.
  - vm_compute. reflexivity.
Qed.

(** C3 as stated fails on a left-border patch: the tile over-predicts, the
    patch's mean of 100 is above the low-range mean of 0 and the range is above
    50 on every one of its 14112 pixels, yet the loop does not reach it and it
    keeps its values and weights. *)
Lemma left_border_outlier_is_kept :
  Mosaic.report_patch Examples.flat_kernel Examples.border_outlier_folder 2 =
  Some {| Mosaic.reached := false;
          Mosaic.tile_overpredicts := true;
          Mosaic.patch_mean := Some 100%Q;
          Mosaic.low_range_mean := Some 0%Q;
          Mosaic.is_problem_tile := true;
          Mosaic.cells := 14112;
          Mosaic.cells_above_50 := 14112;
          Mosaic.numbers_after := 14112;
          Mosaic.weight_after := 14112%Q |}.
Proof. vm_compute. reflexivity. Qed.

(** An interior patch that meets the tests is emptied: in a tile that
    under-predicts, the patch of 0 lies below the low-range mean of 50 and all
    nine of its blocks have a mean range above 50. *)
Example interior_outlier_is_discarded :
  Mosaic.report_patch Examples.flat_kernel Examples.interior_outlier_folder 1 =
  Some {| Mosaic.reached := true;
          Mosaic.tile_overpredicts := false;
          Mosaic.patch_mean := Some 0%Q;
          Mosaic.low_range_mean := Some 50%Q;
          Mosaic.is_problem_tile := true;
          Mosaic.cells := 28224;
          Mosaic.cells_above_50 := 28056;
          Mosaic.numbers_after := 0;
          Mosaic.weight_after := 0%Q |}.
Proof. vm_compute. reflexivity. Qed.

(** The fill builds the stacks of the rejection example from that folder. *)
Example interior_outlier_folder_stacks :
  Mosaic.load_stacks Examples.flat_kernel Examples.interior_outlier_folder =
  Ok (Examples.outlier_layout, Examples.outlier_stacks).
Proof. vm_compute. reflexivity. Qed.

(** C6 on the notch folder: no patch contributes to pixel (168, 169) and the
    fused raster holds 255 there, but the returned raster holds 0, written by
    the second cleanup rule, which took the no-data value for a peak. *)
Lemma no_data_pixel_zeroed_by_cleanup :
  match Mosaic.reconcile Examples.flat_kernel Examples.notch_folder with
  | Ok r =>
      Mosaic.contributing (Mosaic.kept r) 168 169 = 0%nat /\
      pix (Mosaic.fused r) 168 169 = Some 255%Z /\
      pix (Mosaic.returned r) 168 169 = Some 0%Z
  | Raise _ => False
  end.
Proof. vm_compute. repeat split; reflexivity. Qed.
